(** * Morpheas: a shallow embedding of [morpheas.py]

    The widget toolkit keeps a tree of morphs under a [World].  This file
    embeds the classes [Morph] and [World] of [morpheas.py] and states the
    properties of the lookup, hit-test, hidden-flag, geometry, attachment
    and event-dispatch code.

    Modelling choices.
    - Numbers are Python integers, embedded as [Z]; a scale is an integer
      factor (the default [1.0] is [1]).  Every arithmetic operation the
      embedded code performs ([+], [-], [*], [min], [max], comparisons) is
      exact on integers.  The code accepts floats as well, on which sums
      are rounded: a property that rests on re-arranging sums is stated
      for integer coordinates, and says so.
    - Two-element lists such as [position] are pairs; the four-element
      [bounds] and [draw_area] are records of four numbers.
    - A morph and its [children] form a rose tree [Morph]: every morph is
      attached once.  The [_parent] pointers of a morph are the path
      towards the root, embedded as a [Parent] chain handed to every
      operation that follows them ([get_absolute_scale],
      [get_absolute_position], [world]); the [world] of a morph is the
      world its chain ends in, which is what [add_morph] and the [world]
      property make it in such a tree.
    - What the host and the module [morpheas_tools] provide
      ([collisionDetect], the circle test, image loading, the viewport
      region) is a parameter of the operations that use it.
    - Python exceptions are the [Raise] results of [Exc]; an operation that
      mutates [self] returns the new [self] next to its result, so that a
      raise keeps the mutations made before it.
    - Bound actions are objects of the embedding application.  Calling a
      method of one is recorded in the list of [HandlerRun]s an operation
      returns; the called code is taken not to touch the morphs.
    - Rendering ([draw]) and the rendering-only attributes ([color],
      [round_corners], [draw_count], [image]) are not embedded, nor is the
      cache [_world] that the [world] property fills on its first read.
    - The methods embedded are those of the classes [Morph] and [World].
      Of these, [TextMorph] overrides the constructor and [draw];
      [ButtonMorph] overrides the constructor and the two hover handlers
      [on_mouse_in] and [on_mouse_out], and its handlers call no bound
      action and assign [color] and nothing else.  An event dispatch
      therefore does to the attributes of [MorphData] of a [ButtonMorph]
      what it does to those of a [Morph]; the bound actions a pointer move
      is said to call are those the hover handlers of [Morph] call. *)

From Stdlib Require Import ZArith List String Bool Lia.
Import ListNotations.
Open Scope string_scope.
Open Scope list_scope.
Open Scope Z_scope.

Set Implicit Arguments.

(** ** Exceptions *)

Inductive exn : Type :=
| ValueError (msg : string)
| AttributeError (msg : string)
| KeyError (key : string)
| RuntimeError (msg : string).

Inductive Exc (A : Type) : Type :=
| Ok (a : A)
| Raise (e : exn).

Arguments Ok {A} a.
Arguments Raise {A} e.

Definition bind {A B : Type} (c : Exc A) (k : A -> Exc B) : Exc B :=
  match c with
  | Ok a => k a
  | Raise e => Raise e
  end.

Notation "x <- c ;; k" := (bind c (fun x => k))
  (at level 100, c at next level, right associativity).

(** ** Data model *)

Definition Point : Type := (Z * Z)%type.

(** [bounds] and [draw_area]: a list of four numbers, indices 0 to 3. *)
Record Box : Type := mkBox { b0 : Z; b1 : Z; b2 : Z; b3 : Z }.

(** A bound action object of the application, known by its identity. *)
Definition Action : Type := nat.

(** An entry of the [textures] dictionary, the image left out. *)
Record Texture : Type := mkTexture {
  dimensions : Z * Z;
  full_path : string;
  is_gl_initialised : bool;
  tex_scale : Z;
  texture_id : Z
}.

(** The attributes of a [Morph] object other than [children], [_parent]
    and [_world].  [oid] is the identity of the Python object. *)
Record MorphData : Type := mkMorphData {
  oid : nat;
  real_width : Z;
  real_height : Z;
  real_position : Point;
  _width : Z;
  _height : Z;
  _position : Point;
  handles_mouse_down : bool;
  handles_events : bool;
  handles_mouse_over : bool;
  handles_drag_drop : bool;
  _is_hidden : bool;
  bounds : Box;
  _name : string;
  textures : list (string * Texture);
  scale : Z;
  circle : bool;
  texture_path : string;
  drag_drop : bool;
  drag_position : Point;
  active_texture : option string;
  on_left_click_action : option Action;
  on_left_click_released_action : option Action;
  on_right_click_action : option Action;
  on_right_click_released_action : option Action;
  on_mouse_in_action : option Action;
  on_mouse_out_action : option Action
}.

(** Attribute assignments, one function per assigned attribute. *)

Definition set_real_width (v : Z) (d : MorphData) : MorphData :=
  let '(mkMorphData i rw rh rp w h p hd he ho hg hid b n tx s c tp dd dp at_ a1 a2 a3 a4 a5 a6) := d in
  mkMorphData i v rh rp w h p hd he ho hg hid b n tx s c tp dd dp at_ a1 a2 a3 a4 a5 a6.

Definition set_real_height (v : Z) (d : MorphData) : MorphData :=
  let '(mkMorphData i rw rh rp w h p hd he ho hg hid b n tx s c tp dd dp at_ a1 a2 a3 a4 a5 a6) := d in
  mkMorphData i rw v rp w h p hd he ho hg hid b n tx s c tp dd dp at_ a1 a2 a3 a4 a5 a6.

Definition set_real_position (v : Point) (d : MorphData) : MorphData :=
  let '(mkMorphData i rw rh rp w h p hd he ho hg hid b n tx s c tp dd dp at_ a1 a2 a3 a4 a5 a6) := d in
  mkMorphData i rw rh v w h p hd he ho hg hid b n tx s c tp dd dp at_ a1 a2 a3 a4 a5 a6.

Definition set__width (v : Z) (d : MorphData) : MorphData :=
  let '(mkMorphData i rw rh rp w h p hd he ho hg hid b n tx s c tp dd dp at_ a1 a2 a3 a4 a5 a6) := d in
  mkMorphData i rw rh rp v h p hd he ho hg hid b n tx s c tp dd dp at_ a1 a2 a3 a4 a5 a6.

Definition set__height (v : Z) (d : MorphData) : MorphData :=
  let '(mkMorphData i rw rh rp w h p hd he ho hg hid b n tx s c tp dd dp at_ a1 a2 a3 a4 a5 a6) := d in
  mkMorphData i rw rh rp w v p hd he ho hg hid b n tx s c tp dd dp at_ a1 a2 a3 a4 a5 a6.

Definition set__position (v : Point) (d : MorphData) : MorphData :=
  let '(mkMorphData i rw rh rp w h p hd he ho hg hid b n tx s c tp dd dp at_ a1 a2 a3 a4 a5 a6) := d in
  mkMorphData i rw rh rp w h v hd he ho hg hid b n tx s c tp dd dp at_ a1 a2 a3 a4 a5 a6.

Definition set__is_hidden (v : bool) (d : MorphData) : MorphData :=
  let '(mkMorphData i rw rh rp w h p hd he ho hg hid b n tx s c tp dd dp at_ a1 a2 a3 a4 a5 a6) := d in
  mkMorphData i rw rh rp w h p hd he ho hg v b n tx s c tp dd dp at_ a1 a2 a3 a4 a5 a6.

Definition set_bounds (v : Box) (d : MorphData) : MorphData :=
  let '(mkMorphData i rw rh rp w h p hd he ho hg hid b n tx s c tp dd dp at_ a1 a2 a3 a4 a5 a6) := d in
  mkMorphData i rw rh rp w h p hd he ho hg hid v n tx s c tp dd dp at_ a1 a2 a3 a4 a5 a6.

Definition set_textures (v : list (string * Texture)) (d : MorphData) : MorphData :=
  let '(mkMorphData i rw rh rp w h p hd he ho hg hid b n tx s c tp dd dp at_ a1 a2 a3 a4 a5 a6) := d in
  mkMorphData i rw rh rp w h p hd he ho hg hid b n v s c tp dd dp at_ a1 a2 a3 a4 a5 a6.

Definition set_scale (v : Z) (d : MorphData) : MorphData :=
  let '(mkMorphData i rw rh rp w h p hd he ho hg hid b n tx s c tp dd dp at_ a1 a2 a3 a4 a5 a6) := d in
  mkMorphData i rw rh rp w h p hd he ho hg hid b n tx v c tp dd dp at_ a1 a2 a3 a4 a5 a6.

Definition set_drag_drop (v : bool) (d : MorphData) : MorphData :=
  let '(mkMorphData i rw rh rp w h p hd he ho hg hid b n tx s c tp dd dp at_ a1 a2 a3 a4 a5 a6) := d in
  mkMorphData i rw rh rp w h p hd he ho hg hid b n tx s c tp v dp at_ a1 a2 a3 a4 a5 a6.

Definition set_drag_position (v : Point) (d : MorphData) : MorphData :=
  let '(mkMorphData i rw rh rp w h p hd he ho hg hid b n tx s c tp dd dp at_ a1 a2 a3 a4 a5 a6) := d in
  mkMorphData i rw rh rp w h p hd he ho hg hid b n tx s c tp dd v at_ a1 a2 a3 a4 a5 a6.

Definition set_active_texture (v : option string) (d : MorphData) : MorphData :=
  let '(mkMorphData i rw rh rp w h p hd he ho hg hid b n tx s c tp dd dp at_ a1 a2 a3 a4 a5 a6) := d in
  mkMorphData i rw rh rp w h p hd he ho hg hid b n tx s c tp dd dp v a1 a2 a3 a4 a5 a6.

(** A morph with its [children], in insertion order. *)
Unset Elimination Schemes.
Inductive Morph : Type :=
| Node (d : MorphData) (cs : list Morph).
Set Elimination Schemes.

Definition data (m : Morph) : MorphData := let '(Node d _) := m in d.
Definition children (m : Morph) : list Morph := let '(Node _ cs) := m in cs.

(** Induction over a morph tree: the property holds of a node when it holds
    of all of its children. *)
Section Morph_induction.
Variable P : Morph -> Prop.
Hypothesis P_Node : forall d cs, Forall P cs -> P (Node d cs).

Fixpoint Morph_ind (m : Morph) : P m :=
  match m with
  | Node d cs =>
      P_Node d
        ((fix go (l : list Morph) : Forall P l :=
            match l with
            | [] => Forall_nil P
            | c :: l' => Forall_cons c (Morph_ind c) (go l')
            end) cs)
  end.
End Morph_induction.

(** The chain of [_parent] pointers above a morph: no parent, the world,
    or a morph with its own chain.  The world at the end of a chain is the
    [World] value handed to the operation, since it changes during a
    dispatch. *)
Inductive Parent : Type :=
| NoParent
| ParentWorld
| ParentMorph (d : MorphData) (p : Parent).

(** ** Properties of [Morph] *)

Definition name (d : MorphData) : string := _name d.
Definition is_hidden (d : MorphData) : bool := _is_hidden d.
Definition position (d : MorphData) : Point := real_position d.

Definition width (d : MorphData) : Exc Z :=
  if real_width d <? 0
  then Raise (ValueError "width must not be a negative value")
  else Ok (real_width d).

Definition width_scaled (d : MorphData) : Exc Z :=
  if _width d <? 0
  then Raise (ValueError "width must not be a negative value")
  else Ok (_width d).

Definition height (d : MorphData) : Exc Z :=
  if _height d <? 0
  then Raise (ValueError "height must not be a negative value ")
  else Ok (real_height d).

Definition height_scaled (d : MorphData) : Exc Z :=
  if _height d <? 0
  then Raise (ValueError "height must not be a negative value ")
  else Ok (_height d).

(** ** Events, frame context and the world *)

(** [event.type] and [event.value]: the strings the code compares against,
    and any other string. *)
Inductive EventType : Type := LEFTMOUSE | RIGHTMOUSE | MOUSEMOVE | OTHER_TYPE.
Inductive EventValue : Type := PRESS | RELEASE | OTHER_VALUE.

Record Event : Type := mkEvent {
  type : EventType;
  value : EventValue;
  mouse_region_x : Z;
  mouse_region_y : Z
}.

(** A region of the host: [x], [y], [width], [height]. *)
Record Region : Type := mkRegion {
  region_x : Z;
  region_y : Z;
  region_width : Z;
  region_height : Z
}.

(** The frame context: [context.region] may be [None]. *)
Record Context : Type := mkContext { region : option Region }.

(** A [World] object: the attributes it inherits from [Morph], with its
    children, and its own. *)
Record World : Type := mkWorld {
  morph : Morph;
  consumed_event : bool;
  modal_operator : Z;
  mouse_position : Point;
  mouse_position_absolute : Point;
  mouse_cursor_inside : bool;
  window_position : Point;
  window_width : Z;
  window_height : Z;
  event : option Event;
  draw_area : Box;
  draw_area_position : Point;
  draw_area_width : Z;
  draw_area_height : Z;
  auto_hide : bool
}.

Definition set_morph (v : Morph) (w : World) : World :=
  let '(mkWorld m ce mo mp mpa mci wp ww wh ev da dap daw dah ah) := w in
  mkWorld v ce mo mp mpa mci wp ww wh ev da dap daw dah ah.

Definition set_consumed_event (v : bool) (w : World) : World :=
  let '(mkWorld m ce mo mp mpa mci wp ww wh ev da dap daw dah ah) := w in
  mkWorld m v mo mp mpa mci wp ww wh ev da dap daw dah ah.

Definition set_mouse_position (v : Point) (w : World) : World :=
  let '(mkWorld m ce mo mp mpa mci wp ww wh ev da dap daw dah ah) := w in
  mkWorld m ce mo v mpa mci wp ww wh ev da dap daw dah ah.

Definition set_mouse_position_absolute (v : Point) (w : World) : World :=
  let '(mkWorld m ce mo mp mpa mci wp ww wh ev da dap daw dah ah) := w in
  mkWorld m ce mo mp v mci wp ww wh ev da dap daw dah ah.

Definition set_window_position (v : Point) (w : World) : World :=
  let '(mkWorld m ce mo mp mpa mci wp ww wh ev da dap daw dah ah) := w in
  mkWorld m ce mo mp mpa mci v ww wh ev da dap daw dah ah.

Definition set_window_width (v : Z) (w : World) : World :=
  let '(mkWorld m ce mo mp mpa mci wp ww wh ev da dap daw dah ah) := w in
  mkWorld m ce mo mp mpa mci wp v wh ev da dap daw dah ah.

Definition set_window_height (v : Z) (w : World) : World :=
  let '(mkWorld m ce mo mp mpa mci wp ww wh ev da dap daw dah ah) := w in
  mkWorld m ce mo mp mpa mci wp ww v ev da dap daw dah ah.

Definition set_event (v : option Event) (w : World) : World :=
  let '(mkWorld m ce mo mp mpa mci wp ww wh ev da dap daw dah ah) := w in
  mkWorld m ce mo mp mpa mci wp ww wh v da dap daw dah ah.

(** [world]: the world a chain of parents ends in, if it ends in one. *)
Fixpoint world (w : World) (parent : Parent) : option World :=
  match parent with
  | NoParent => None
  | ParentWorld => Some w
  | ParentMorph _ p => world w p
  end.

(** ** Absolute scale and position *)

(** [World.get_absolute_position]. *)
Definition World_get_absolute_position (w : World) : Point :=
  (fst (position (data (morph w))) + fst (draw_area_position w),
   snd (position (data (morph w))) + snd (draw_area_position w)).

(** [Morph.get_absolute_position]: the parent's absolute position plus
    [_position]; [_position] when there is no parent.  The sums are those
    of the code, in its order; on integers they are exact. *)
Fixpoint get_absolute_position (w : World) (parent : Parent) (self : MorphData) : Point :=
  match parent with
  | NoParent => _position self
  | ParentWorld =>
      (fst (World_get_absolute_position w) + fst (_position self),
       snd (World_get_absolute_position w) + snd (_position self))
  | ParentMorph d p =>
      (fst (get_absolute_position w p d) + fst (_position self),
       snd (get_absolute_position w p d) + snd (_position self))
  end.

(** [Morph.get_absolute_scale]: the product of the scales up the chain of
    parents.  A world has no parent: its absolute scale is its [scale]. *)
Fixpoint get_absolute_scale (w : World) (parent : Parent) (self : MorphData) : Z :=
  match parent with
  | NoParent => scale self
  | ParentWorld => scale self * scale (data (morph w))
  | ParentMorph d p => scale self * get_absolute_scale w p d
  end.

(** [position_scaled]. *)
Definition position_scaled (w : World) (parent : Parent) (self : MorphData) : Point :=
  (fst (real_position self) * get_absolute_scale w parent self,
   snd (real_position self) * get_absolute_scale w parent self).

(** ** Setters *)

(** The [width] setter. *)
Definition set_width (w : World) (parent : Parent) (value : Z) (self : MorphData)
  : Exc unit * MorphData :=
  if value <? 0
  then (Raise (ValueError "new value for width must be a positive number"), self)
  else (Ok tt,
        set__width (value * get_absolute_scale w parent self) (set_real_width value self)).

(** The [height] setter. *)
Definition set_height (w : World) (parent : Parent) (value : Z) (self : MorphData)
  : Exc unit * MorphData :=
  if value <? 0
  then (Raise (ValueError "new value for width must be a positive number"), self)
  else (Ok tt,
        set__height (value * get_absolute_scale w parent self) (set_real_height value self)).

(** The [position] setter. *)
Definition set_position (w : World) (parent : Parent) (value : Point) (self : MorphData)
  : MorphData :=
  let self1 := set_real_position value self in
  set__position (fst value * get_absolute_scale w parent self1,
                 snd value * get_absolute_scale w parent self1) self1.

(** The [is_hidden] setter: the children whose flag differs from [value]
    are assigned first, then the morph's own flag. *)
Fixpoint set_is_hidden (value : bool) (self : Morph) : Morph :=
  match self with
  | Node d cs =>
      Node (set__is_hidden value d)
           (map (fun morph =>
                   if negb (Bool.eqb (is_hidden (data morph)) value)
                   then set_is_hidden value morph
                   else morph) cs)
  end.

(** ** Attaching and looking up children *)

(** The four comparisons of [add_morph] on [self.bounds]. *)
Definition grow_bounds (sb mb : Box) : Box :=
  let sb := if b0 sb >? b0 mb then mkBox (b0 mb) (b1 sb) (b2 sb) (b3 sb) else sb in
  let sb := if b1 sb >? b1 mb then mkBox (b0 sb) (b1 mb) (b2 sb) (b3 sb) else sb in
  let sb := if b2 sb <? b2 mb then mkBox (b0 sb) (b1 sb) (b2 mb) (b3 sb) else sb in
  let sb := if b3 sb <? b3 mb then mkBox (b0 sb) (b1 sb) (b2 sb) (b3 mb) else sb in
  sb.

(** [Morph.add_morph]: [morph] becomes the last child of [self] (its parent
    and world are then those of its place in the tree) and [self.bounds]
    grows. *)
Definition add_morph (self morph : Morph) : Morph :=
  let '(Node d cs) := self in
  Node (set_bounds (grow_bounds (bounds d) (bounds (data morph))) d) (cs ++ [morph]).

(** [World.add_morph]. *)
Definition World_add_morph (self : World) (morph_ : Morph) : World :=
  let '(Node d cs) := morph self in
  set_morph
    (Node (set_bounds (grow_bounds (bounds d) (bounds (data morph_))) d) (cs ++ [morph_]))
    self.

(** [Morph.get_child_morph_named]: the loop over the children returns the
    first child of that name; on another child it calls itself on the child
    and drops what the call returns. *)
Fixpoint get_child_morph_named (name_ : string) (self : Morph) : option Morph :=
  match self with
  | Node _ cs =>
      (fix loop (l : list Morph) : option Morph :=
         match l with
         | [] => None
         | child :: rest =>
             if String.eqb (name (data child)) name_
             then Some child
             else let _ := get_child_morph_named name_ child in loop rest
         end) cs
  end.

(** The lookup as the specification words it: the first morph of that name
    in the subtree, depth-first, [self] excluded, children in insertion
    order. *)
Fixpoint find_by_name_spec (name_ : string) (self : Morph) : option Morph :=
  match self with
  | Node _ cs =>
      (fix loop (l : list Morph) : option Morph :=
         match l with
         | [] => None
         | child :: rest =>
             if String.eqb (name (data child)) name_
             then Some child
             else match find_by_name_spec name_ child with
                  | Some found => Some found
                  | None => loop rest
                  end
         end) cs
  end.

(** ** Keyword arguments of the constructors *)

(** The keyword arguments of [Morph.__init__], the rendering-only ones
    left out. *)
Record Kargs : Type := mkKargs {
  k_texture : option string;
  k_width : Z;
  k_height : Z;
  k_position : Point;
  k_name : string;
  k_on_left_click_action : option Action;
  k_on_left_click_released_action : option Action;
  k_on_right_click_action : option Action;
  k_on_right_click_released_action : option Action;
  k_on_mouse_in_action : option Action;
  k_on_mouse_out_action : option Action;
  k_texture_path : option string;
  k_scale : Z;
  k_drag_drop : bool;
  k_circle : bool
}.

(** The defaults of the keyword arguments. *)
Definition default_kargs : Kargs :=
  mkKargs None 100 100 (0, 0) "noname" None None None None None None None 1 false false.

(** [Morph.texture_path], the class attribute. *)
Definition class_texture_path : string := "media/graphics/".

(** The [textures] dictionary: lookup and assignment of a key. *)
Fixpoint dict_get (key : string) (l : list (string * Texture)) : option Texture :=
  match l with
  | [] => None
  | (k, v) :: rest => if String.eqb k key then Some v else dict_get key rest
  end.

Fixpoint dict_set (key : string) (v : Texture) (l : list (string * Texture))
  : list (string * Texture) :=
  match l with
  | [] => [(key, v)]
  | (k, v') :: rest =>
      if String.eqb k key then (k, v) :: rest else (k, v') :: dict_set key v rest
  end.

(** ** Handlers and dispatch *)

(** The methods of a morph that handle an event, which are also the names
    of the methods called on bound actions. *)
Inductive Method : Type :=
| m_on_left_click
| m_on_left_click_released
| m_on_right_click
| m_on_right_click_released
| m_on_mouse_in
| m_on_mouse_out.

(** One run of a handler: the morph it ran on, the handler, and the method
    it called on which bound action, if it called one. *)
Record HandlerRun : Type := mkRun {
  who : nat;
  handler : Method;
  called : option (Action * Method)
}.

(** What a handler returns: what the method of the bound action returned,
    or [self.world.event]. *)
Inductive Returned : Type :=
| FromAction (a : Action) (m : Method)
| FromWorld (e : option Event).

(** The outcome of an operation on [self] under a world: its result, [self]
    and the world as it leaves them, and the handler runs in order. *)
Record Outcome (S R : Type) : Type := mkOutcome {
  result : Exc R;
  self_after : S;
  world_after : World;
  runs : list HandlerRun
}.

Definition no_world : exn :=
  AttributeError "'NoneType' object has no attribute".

Definition is_click_handler (m : Method) : bool :=
  match m with
  | m_on_left_click | m_on_left_click_released
  | m_on_right_click | m_on_right_click_released => true
  | m_on_mouse_in | m_on_mouse_out => false
  end.

Definition on_left_click (w : World) (parent : Parent) (self : MorphData)
  : Outcome MorphData Returned :=
  let run := mkRun (oid self) m_on_left_click in
  match on_left_click_action self with
  | Some a =>
      mkOutcome (Ok (FromAction a m_on_left_click)) self w
        [run (Some (a, m_on_left_click))]
  | None =>
      if negb (drag_drop self) && handles_drag_drop self
      then
        let self1 := set_drag_drop true self in
        match world w parent with
        | None => mkOutcome (Raise no_world) self1 w [run None]
        | Some wo =>
            mkOutcome (Ok (FromWorld (event wo)))
              (set_drag_position (mouse_position wo) self1) w [run None]
        end
      else
        match world w parent with
        | None => mkOutcome (Raise no_world) self w [run None]
        | Some wo => mkOutcome (Ok (FromWorld (event wo))) self w [run None]
        end
  end.

Definition on_left_click_released (w : World) (parent : Parent) (self : MorphData)
  : Outcome MorphData Returned :=
  let run := mkRun (oid self) m_on_left_click_released in
  match on_left_click_released_action self with
  | Some a =>
      mkOutcome (Ok (FromAction a m_on_left_click_released)) self w
        [run (Some (a, m_on_left_click_released))]
  | None =>
      let self1 :=
        if drag_drop self && handles_drag_drop self
        then set_drag_drop false self else self in
      match world w parent with
      | None => mkOutcome (Raise no_world) self1 w [run None]
      | Some wo => mkOutcome (Ok (FromWorld (event wo))) self1 w [run None]
      end
  end.

Definition on_right_click (w : World) (parent : Parent) (self : MorphData)
  : Outcome MorphData Returned :=
  let run := mkRun (oid self) m_on_right_click in
  match on_right_click_action self with
  | Some a =>
      mkOutcome (Ok (FromAction a m_on_right_click)) self w
        [run (Some (a, m_on_right_click))]
  | None =>
      match world w parent with
      | None => mkOutcome (Raise no_world) self w [run None]
      | Some wo => mkOutcome (Ok (FromWorld (event wo))) self w [run None]
      end
  end.

Definition on_right_click_released (w : World) (parent : Parent) (self : MorphData)
  : Outcome MorphData Returned :=
  let run := mkRun (oid self) m_on_right_click_released in
  match on_right_click_released_action self with
  | Some a =>
      mkOutcome (Ok (FromAction a m_on_right_click_released)) self w
        [run (Some (a, m_on_right_click_released))]
  | None =>
      match world w parent with
      | None => mkOutcome (Raise no_world) self w [run None]
      | Some wo => mkOutcome (Ok (FromWorld (event wo))) self w [run None]
      end
  end.

(** [Morph.on_mouse_in]. *)
Definition on_mouse_in (w : World) (parent : Parent) (self : MorphData)
  : Outcome MorphData Returned :=
  let run := mkRun (oid self) m_on_mouse_in in
  match on_mouse_in_action self with
  | Some a =>
      mkOutcome (Ok (FromAction a m_on_mouse_in)) self w
        [run (Some (a, m_on_mouse_in))]
  | None =>
      match world w parent with
      | None => mkOutcome (Raise no_world) self w [run None]
      | Some wo => mkOutcome (Ok (FromWorld (event wo))) self w [run None]
      end
  end.

(** [Morph.on_mouse_out] calls [on_mouse_in] on the bound mouse-out
    action. *)
Definition on_mouse_out (w : World) (parent : Parent) (self : MorphData)
  : Outcome MorphData Returned :=
  let run := mkRun (oid self) m_on_mouse_out in
  match on_mouse_out_action self with
  | Some a =>
      mkOutcome (Ok (FromAction a m_on_mouse_in)) self w
        [run (Some (a, m_on_mouse_in))]
  | None =>
      match world w parent with
      | None => mkOutcome (Raise no_world) self w [run None]
      | Some wo => mkOutcome (Ok (FromWorld (event wo))) self w [run None]
      end
  end.

(** One of the four [if] statements of [on_mouse_click]: when the earlier
    statements did not raise and the condition holds, the handler runs and
    what it returns is dropped. *)
Definition then_if (c : bool)
    (h : World -> Parent -> MorphData -> Outcome MorphData Returned)
    (parent : Parent) (o : Outcome MorphData unit) : Outcome MorphData unit :=
  match result o with
  | Raise _ => o
  | Ok _ =>
      if c
      then
        let o' := h (world_after o) parent (self_after o) in
        mkOutcome (_ <- result o' ;; Ok tt) (self_after o') (world_after o')
          (runs o ++ runs o')
      else o
  end.

Definition is_LEFTMOUSE (t : EventType) : bool :=
  match t with LEFTMOUSE => true | _ => false end.
Definition is_RIGHTMOUSE (t : EventType) : bool :=
  match t with RIGHTMOUSE => true | _ => false end.
Definition is_PRESS (v : EventValue) : bool :=
  match v with PRESS => true | _ => false end.
Definition is_RELEASE (v : EventValue) : bool :=
  match v with RELEASE => true | _ => false end.

(** [bpy.context.area.regions[4]] of the host, [None] when reading it
    raises: the size of the viewport, [100] by [100] in that case. *)
Definition viewport_size (bpy_region : option Region) : Z * Z :=
  match bpy_region with
  | Some r => (region_width r, region_height r)
  | None => (100, 100)
  end.

(** The loop [for morph in self.children: morph.on_event(event, context)],
    for the [on_event] of a child given as [dispatch]: it stops at the
    first child whose dispatch raises, and each child is left as its
    dispatch leaves it. *)
Fixpoint dispatch_loop (dispatch : World -> Morph -> Outcome Morph unit)
    (w : World) (l : list Morph) : Outcome (list Morph) unit :=
  match l with
  | [] => mkOutcome (Ok tt) [] w []
  | morph_ :: rest =>
      let o := dispatch w morph_ in
      match result o with
      | Raise e => mkOutcome (Raise e) (self_after o :: rest) (world_after o) (runs o)
      | Ok _ =>
          let o' := dispatch_loop dispatch (world_after o) rest in
          mkOutcome (result o') (self_after o :: self_after o')
            (world_after o') (runs o ++ runs o')
      end
  end.

Section Host.

(** [morpheas_tools.collisionDetect], whose module is not part of the
    sources at hand: its eight arguments in the order of the call. *)
Variable collisionDetect : Z -> Z -> Z -> Z -> Z -> Z -> Z -> Z -> bool.

(** The circle test of [mouse_over_morph], which needs the floating-point
    [morpheas_tools.pointsDistance]: for the absolute position
    [(position_x, position_y)], the scaled width [w] and the pointer
    [(ex, ey)], whether the distance from the pointer to
    [(position_x + w/2, position_y + w/2)] is at most [w/2]. *)
Variable circle_contains : Z -> Z -> Z -> Z -> Z -> bool.

(** [bpy.data.images.load] of the host: the size of the image at a path,
    [None] when loading raises. *)
Variable images_load : string -> option (Z * Z).

(** [mouse_over_morph]. *)
Definition mouse_over_morph (w : World) (parent : Parent) (self : MorphData)
  : Exc bool :=
  if circle self
  then
    match world w parent with
    | None => Raise no_world
    | Some wo =>
        let ex := fst (mouse_position_absolute wo) in
        let ey := snd (mouse_position_absolute wo) in
        let position_x := fst (get_absolute_position w parent self) in
        let position_y := snd (get_absolute_position w parent self) in
        Ok (circle_contains position_x position_y (_width self) ex ey)
    end
  else
    let apx1 := fst (get_absolute_position w parent self) in
    let apy1 := snd (get_absolute_position w parent self) in
    wd <- width self ;;
    let apx2 := fst (get_absolute_position w parent self) + wd in
    ht <- height self ;;
    let apy2 := snd (get_absolute_position w parent self) + ht in
    match world w parent with
    | None => Raise no_world
    | Some wo =>
        let ex := fst (mouse_position_absolute wo) in
        let ey := snd (mouse_position_absolute wo) in
        Ok ((ex >? apx1) && (ex <? apx2) && (ey >? apy1) && (ey <? apy2))
    end.

(** [on_mouse_click]. *)
Definition on_mouse_click (w : World) (parent : Parent) (self : MorphData)
    (ev : Event) : Outcome MorphData unit :=
  match mouse_over_morph w parent self with
  | Raise e => mkOutcome (Raise e) self w []
  | Ok false => mkOutcome (Ok tt) self w []
  | Ok true =>
      if handles_mouse_down self
      then
        match world w parent with
        | None => mkOutcome (Raise no_world) self w []
        | Some _ =>
            let o0 := mkOutcome (Ok tt) self (set_consumed_event true w) [] in
            let o1 := then_if (is_LEFTMOUSE (type ev) && is_PRESS (value ev))
                        on_left_click parent o0 in
            let o2 := then_if (is_LEFTMOUSE (type ev) && is_RELEASE (value ev))
                        on_left_click_released parent o1 in
            let o3 := then_if (is_RIGHTMOUSE (type ev) && is_PRESS (value ev))
                        on_right_click parent o2 in
            then_if (is_RIGHTMOUSE (type ev) && is_RELEASE (value ev))
              on_right_click_released parent o3
        end
      else mkOutcome (Ok tt) self w []
  end.

(** The loop of [on_mouse_over] over [self.world.children]. *)
Fixpoint collision_loop (w : World) (self : MorphData) (positionX positionY : Z)
    (l : list Morph) (cancel_drag : bool) : Exc bool :=
  match l with
  | [] => Ok cancel_drag
  | bigMorph :: rest =>
      let big := data bigMorph in
      hit <-
        (if negb (String.eqb (name big) (name self)) && negb (is_hidden big)
         then
           let bps := position_scaled w ParentWorld big in
           sw <- width_scaled self ;;
           sh <- height_scaled self ;;
           bw <- width_scaled big ;;
           bh <- height_scaled big ;;
           Ok (collisionDetect positionX positionY (fst bps) (snd bps) sw sh bw bh)
         else Ok false) ;;
      collision_loop w self positionX positionY rest
        (if hit then true else cancel_drag)
  end.

(** The candidate position of [on_mouse_over]. *)
Definition drag_candidate (wo : World) (bpy_region : option Region)
    (self : MorphData) : Point :=
  let offset :=
    (fst (mouse_position wo) - fst (drag_position self),
     snd (mouse_position wo) - snd (drag_position self)) in
  let viewport_width := fst (viewport_size bpy_region) in
  let viewport_height := snd (viewport_size bpy_region) in
  (Z.max (Z.min (viewport_width - _width self) (fst (position self) + fst offset)) 0,
   Z.max (Z.min (viewport_height - _height self) (snd (position self) + snd offset)) 0).

(** The first statement of [on_mouse_over], the [if self.drag_drop]. *)
Definition drag_step (w : World) (parent : Parent) (bpy_region : option Region)
    (self : MorphData) : Exc unit * MorphData :=
  if drag_drop self
  then
    match world w parent with
    | None => (Raise no_world, self)
    | Some wo =>
        let positionX := fst (drag_candidate wo bpy_region self) in
        let positionY := snd (drag_candidate wo bpy_region self) in
        match collision_loop wo self positionX positionY (children (morph wo)) false with
        | Raise e => (Raise e, self)
        | Ok true => (Ok tt, self)
        | Ok false =>
            (Ok tt,
             set_drag_position (mouse_position wo)
               (set_position w parent (positionX, positionY) self))
        end
    end
  else (Ok tt, self).

(** [on_mouse_over].  The hover handlers it ends with are those of
    [Morph]; those of [ButtonMorph] assign [color], which is not part of
    [MorphData], and leave every attribute of [MorphData] as it is. *)
Definition on_mouse_over (w : World) (parent : Parent) (bpy_region : option Region)
    (self : MorphData) (ev : Event) : Outcome MorphData Returned :=
  match drag_step w parent bpy_region self with
  | (Raise e, self1) => mkOutcome (Raise e) self1 w []
  | (Ok _, self1) =>
      match mouse_over_morph w parent self1 with
      | Raise e => mkOutcome (Raise e) self1 w []
      | Ok true => on_mouse_in w parent self1
      | Ok false => on_mouse_out w parent self1
      end
  end.

(** [Morph.on_event]: the children first, in order, then the morph
    itself. *)
Fixpoint on_event (w : World) (parent : Parent) (bpy_region : option Region)
    (self : Morph) (ev : Event) (context : Context) : Outcome Morph unit :=
  match self with
  | Node d cs =>
      let children_done :=
        dispatch_loop
          (fun w' morph_ => on_event w' (ParentMorph d parent) bpy_region morph_ ev context)
          w cs in
      let cs1 := self_after children_done in
      let w1 := world_after children_done in
      match result children_done with
      | Raise e => mkOutcome (Raise e) (Node d cs1) w1 (runs children_done)
      | Ok _ =>
          if handles_events d && negb (is_hidden d)
          then
            match world w1 parent with
            | None => mkOutcome (Raise no_world) (Node d cs1) w1 (runs children_done)
            | Some wo =>
                if negb (consumed_event wo)
                then
                  match type ev with
                  | LEFTMOUSE | RIGHTMOUSE =>
                      let o := on_mouse_click w1 parent d ev in
                      mkOutcome (result o) (Node (self_after o) cs1) (world_after o)
                        (runs children_done ++ runs o)
                  | MOUSEMOVE =>
                      let o := on_mouse_over w1 parent bpy_region d ev in
                      mkOutcome (_ <- result o ;; Ok tt) (Node (self_after o) cs1)
                        (world_after o) (runs children_done ++ runs o)
                  | OTHER_TYPE =>
                      mkOutcome (Ok tt) (Node d cs1) w1 (runs children_done)
                  end
                else mkOutcome (Ok tt) (Node d cs1) w1 (runs children_done)
            end
          else mkOutcome (Ok tt) (Node d cs1) w1 (runs children_done)
      end
  end.

(** The loop of [World.on_event] over [self.children].  The children of
    the world are [done ++ todo]; a child that has been dispatched to is
    put back in its place, so that the world every morph sees holds the
    attributes of the world's children as they are at that point. *)
Fixpoint World_dispatch (w : World) (bpy_region : option Region)
    (done todo : list Morph) (ev : Event) (context : Context)
  : Outcome unit unit :=
  match todo with
  | [] => mkOutcome (Ok tt) tt w []
  | morph_ :: rest =>
      let o := on_event w ParentWorld bpy_region morph_ ev context in
      let w1 :=
        set_morph (Node (data (morph (world_after o))) (done ++ self_after o :: rest))
          (world_after o) in
      match result o with
      | Raise e => mkOutcome (Raise e) tt w1 (runs o)
      | Ok _ =>
          let o' := World_dispatch w1 bpy_region (done ++ [self_after o]) rest ev context in
          mkOutcome (result o') tt (world_after o') (runs o ++ runs o')
      end
  end.

(** The assignments of [World.on_event] before its loop, for the region
    [r] of the context. *)
Definition World_frame (self : World) (r : Region) (ev : Event) : World :=
  let bmx := region_x r in
  let bmy := region_y r in
  let self1 := set_window_position (bmx, bmy) self in
  let self2 := set_window_width (region_width r) self1 in
  let self3 := set_window_height (region_height r) self2 in
  let self4 :=
    set_mouse_position_absolute
      (mouse_region_x ev + fst (window_position self3),
       mouse_region_y ev + snd (window_position self3)) self3 in
  let self5 := set_event (Some ev) self4 in
  set_consumed_event false self5.

(** [World.on_event]. *)
Definition World_on_event (self : World) (bpy_region : option Region)
    (ev : Event) (context : Context) : Outcome unit unit :=
  match region context with
  | None => mkOutcome (Ok tt) tt self []
  | Some r =>
      let self6 := World_frame self r ev in
      World_dispatch self6 bpy_region [] (children (morph self6)) ev context
  end.

(** ** Construction *)

(** [activate_texture]. *)
Definition activate_texture (name_ : string) (self : MorphData)
  : Exc unit * MorphData :=
  let self1 := set_active_texture (Some name_) self in
  match dict_get name_ (textures self1) with
  | None => (Raise (KeyError name_), self1)
  | Some t => (Ok tt, set_scale (tex_scale t) self1)
  end.

(** [load_texture]. *)
Definition load_texture (name_ : string) (scale_ : Z) (self : MorphData)
  : Exc Texture * MorphData :=
  let full_path_ := (texture_path self ++ name_)%string in
  match images_load full_path_ with
  | None => (Raise (RuntimeError "the image cannot be loaded"), self)
  | Some size =>
      let t := mkTexture size full_path_ false scale_ 0 in
      let self1 := set_textures (dict_set name_ t (textures self)) self in
      match activate_texture name_ self1 with
      | (Raise e, self2) => (Raise e, self2)
      | (Ok _, self2) =>
          match dict_get name_ (textures self2) with
          | None => (Raise (KeyError name_), self2)
          | Some t' => (Ok t', self2)
          end
      end
  end.

(** [Morph.__init__] for a new object of identity [new_oid].  [bounds]
    is computed through the properties [position], [width] and [height]
    of the object under construction. *)
Definition Morph_init (new_oid : nat) (k : Kargs) : Exc MorphData :=
  let texture_path_ :=
    match k_texture_path k with
    | None => class_texture_path
    | Some p => p
    end in
  let self0 :=
    mkMorphData new_oid (k_width k) (k_height k) (k_position k)
      (k_width k * k_scale k) (k_height k * k_scale k)
      (fst (k_position k), snd (k_position k))
      false false false (k_drag_drop k)
      false (mkBox 0 0 0 0) (k_name k) [] (k_scale k) (k_circle k) texture_path_
      false (0, 0) (k_texture k)
      (k_on_left_click_action k) (k_on_left_click_released_action k)
      (k_on_right_click_action k) (k_on_right_click_released_action k)
      (k_on_mouse_in_action k) (k_on_mouse_out_action k) in
  wd <- width self0 ;;
  ht <- height self0 ;;
  let self :=
    set_bounds
      (mkBox (fst (position self0)) (snd (position self0))
         (fst (position self0) + wd) (snd (position self0) + ht)) self0 in
  match k_texture k with
  | None => Ok self
  | Some t =>
      match load_texture t (scale self) self with
      | (Raise e, _) => Raise e
      | (Ok _, self1) => Ok self1
      end
  end.

(** [World.__init__]. *)
Definition World_init (new_oid : nat) (singular auto_hide_ : bool) (kargs : Kargs)
  : Exc World :=
  self <- Morph_init new_oid kargs ;;
  let consumed_event_ := false in
  let modal_operator_ := 0 in
  let mouse_position_ := (0, 0) in
  let mouse_position_absolute_ := (0, 0) in
  let mouse_cursor_inside_ := false in
  let window_position_ := (0, 0) in
  let draw_area_ := mkBox 0 0 0 0 in
  let draw_area_position_ := (0, 0) in
  let auto_hide_field := true in
  Ok (mkWorld (Node (set__height 2000 (set__width 2000 self)) [])
        consumed_event_ modal_operator_ mouse_position_ mouse_position_absolute_
        mouse_cursor_inside_ window_position_ 300 300 None
        draw_area_ draw_area_position_ 300 300 auto_hide_field).

End Host.

(** ** Further operations of [Morph] and [World] *)

(** The [texture] property. *)
Definition texture (self : MorphData) : option string := active_texture self.

(** The [texture] setter: a name already in [textures] is activated, another
    one is loaded, with the default [scale] of [load_texture]. *)
Definition set_texture (images_load : string -> option (Z * Z)) (name_ : string)
    (self : MorphData) : Exc unit * MorphData :=
  match dict_get name_ (textures self) with
  | Some _ => activate_texture name_ self
  | None =>
      match load_texture images_load name_ 1 self with
      | (Raise e, self1) => (Raise e, self1)
      | (Ok _, self1) => (Ok tt, self1)
      end
  end.

(** The loop of [get_child_morph_named_index], counting from [index]. *)
Fixpoint index_loop (name_ : string) (l : list Morph) (index : nat) : option nat :=
  match l with
  | [] => None
  | child :: rest =>
      if String.eqb (name (data child)) name_
      then Some index
      else index_loop name_ rest (index + 1)
  end.

(** [Morph.get_child_morph_named_index]. *)
Definition get_child_morph_named_index (name_ : string) (self : Morph) : option nat :=
  index_loop name_ (children self) 0.

(** [x], [y], [x2] and [y2]: the corners of the morph. *)
Definition x (self : MorphData) : Z := fst (position self).
Definition y (self : MorphData) : Z := snd (position self).
Definition x2 (self : MorphData) : Exc Z := wd <- width self ;; Ok (x self + wd).
Definition y2 (self : MorphData) : Exc Z := ht <- height self ;; Ok (y self + ht).

(** The [world_position] property: the positions up the chain of parents
    added up, the morph at the end of the chain counting for [[0, 0]]. *)
Fixpoint world_position (parent : Parent) (self : MorphData) : Point :=
  match parent with
  | NoParent => (0, 0)
  | ParentWorld => (0 + fst (position self), 0 + snd (position self))
  | ParentMorph d p =>
      (fst (world_position p d) + fst (position self),
       snd (world_position p d) + snd (position self))
  end.

(** The [absolute_position] property. *)
Definition absolute_position (w : World) (parent : Parent) (self : MorphData) : Exc Point :=
  match world w parent with
  | None => Raise no_world
  | Some wo =>
      Ok (fst (world_position parent self) + b0 (draw_area wo),
          snd (world_position parent self) + b1 (draw_area wo))
  end.

(** [World.disable_all_drag_drop(morph)]: every child of [morph] leaves the
    drag state, and so do the children of each child, recursively. *)
Fixpoint disable_all_drag_drop (morph_ : Morph) : Morph :=
  match morph_ with
  | Node d cs =>
      Node d
        (map (fun child =>
                Node (set_drag_drop false (data child))
                  (children (disable_all_drag_drop child))) cs)
  end.

(** ** Notions the properties are stated with *)

(** The morphs below [m], at every depth: each child followed by its own
    descendants, children in insertion order. *)
Fixpoint descendants (m : Morph) : list Morph :=
  match m with
  | Node _ cs => flat_map (fun c => c :: descendants c) cs
  end.

(** The hidden flag of morph [m] is [b]. *)
Definition hidden_is (b : bool) (m : Morph) : Prop := is_hidden (data m) = b.

(** The child the loop of the setter leaves in place of [c]. *)
Definition child_after (b : bool) (c : Morph) : Morph :=
  if negb (Bool.eqb (is_hidden (data c)) b) then set_is_hidden b c else c.

(** Box [outer] covers box [inner]. *)
Definition box_contains (outer inner : Box) : Prop :=
  b0 outer <= b0 inner /\ b1 outer <= b1 inner /\
  b2 inner <= b2 outer /\ b3 inner <= b3 outer.

(** The point [(px, py)] lies strictly inside the box from [(x, y)] to
    [(x + w, y + h)]. *)
Definition strictly_inside (px py x y w h : Z) : Prop :=
  x < px /\ px < x + w /\ y < py /\ py < y + h.

(** The object that [Morph(width=w, height=h, position=pos, name=n,
    scale=s)] builds, with identity [i]. *)
Definition new_morph (i : nat) (n : string) (pos : Point) (w h s : Z) : MorphData :=
  mkMorphData i w h pos (w * s) (h * s) pos false false false false false
    (mkBox (fst pos) (snd pos) (fst pos + w) (snd pos + h)) n [] s false
    class_texture_path false (0, 0) None None None None None None None.

(** A world as [World()] builds it, with the given children attached. *)
Definition new_world (i : nat) (cs : list Morph) : World :=
  fold_left World_add_morph cs
    (mkWorld (Node (set__height 2000 (set__width 2000 (new_morph i "noname" (0, 0) 100 100 1))) [])
       false 0 (0, 0) (0, 0) false (0, 0) 300 300 None (mkBox 0 0 0 0) (0, 0) 300 300 true).

(** Modelled from the spec: [morpheas_tools.collisionDetect] is missing from
    the sources; the specification calls it an axis-aligned rectangle
    collision test.  The rectangle at [(x1, y1)] of size [w1] by [h1] and
    the one at [(x2, y2)] of size [w2] by [h2] overlap. *)
Definition aabb_collision (x1 y1 x2 y2 w1 h1 w2 h2 : Z) : bool :=
  (x1 <? x2 + w2) && (x2 <? x1 + w1) && (y1 <? y2 + h2) && (y2 <? y1 + h1).

(** Modelled from the spec: [morpheas_tools.pointsDistance] is missing from
    the sources; the circle test holds iff the distance from the pointer to
    the centre is at most the radius, half the scaled width.  Compared
    here on the doubled coordinates, squared, which is exact. *)
Definition exact_circle_contains (position_x position_y w ex ey : Z) : bool :=
  let dx := 2 * ex - (2 * position_x + w) in
  let dy := 2 * ey - (2 * position_y + w) in
  dx * dx + dy * dy <=? w * w.

(** A host that loads no image. *)
Definition no_images (path : string) : option (Z * Z) := None.

(** A morph named [a] with a child named [b], under a root morph. *)
Definition nested_b : Morph := Node (new_morph 3 "b" (0, 0) 10 10 1) [].
Definition nested_a : Morph := add_morph (Node (new_morph 2 "a" (0, 0) 10 10 1) []) nested_b.
Definition nested_root : Morph := add_morph (Node (new_morph 1 "root" (0, 0) 100 100 1) []) nested_a.

(** A visible morph whose visible child has a hidden child: the state after
    [g.is_hidden = True] on the grandchild of an all-visible tree. *)
Definition hidden_grandchild : Morph :=
  add_morph (Node (new_morph 1 "w" (0, 0) 100 100 1) [])
    (add_morph (Node (new_morph 2 "c" (0, 0) 50 50 1) [])
       (set_is_hidden true (Node (new_morph 3 "g" (0, 0) 10 10 1) []))).

(** A rectangle of unscaled size 10 by 10 and scale 2 at the origin of a
    world, and that world with the pointer at [(15, 5)]. *)
Definition scaled_square : MorphData := new_morph 2 "square" (0, 0) 10 10 2.
Definition world_pointer_15_5 : World :=
  set_mouse_position_absolute (15, 5) (new_world 1 [Node scaled_square []]).

(** A morph with a bound mouse-out action, the object [7]. *)
Definition with_mouse_out_action : MorphData :=
  let '(mkMorphData i rw rh rp w h p hd he ho hg hid b n tx s c tp dd dp at_ a1 a2 a3 a4 a5 a6) :=
    new_morph 2 "hover" (50, 50) 10 10 1 in
  mkMorphData i rw rh rp w h p hd true true hg hid b n tx s c tp dd dp at_ a1 a2 a3 a4 a5 (Some 7%nat).

(** The assignments [handles_mouse_over = handles_events =
    handles_mouse_down = True], as [ButtonMorph.__init__] makes them. *)
Definition handling (d : MorphData) : MorphData :=
  let '(mkMorphData i rw rh rp w h p hd he ho hg hid b n tx s c tp dd dp at_ a1 a2 a3 a4 a5 a6) := d in
  mkMorphData i rw rh rp w h p true true true hg hid b n tx s c tp dd dp at_ a1 a2 a3 a4 a5 a6.

(** The assignment [handles_drag_drop = True], as the constructor makes it
    for [drag_drop=True]. *)
Definition draggable (d : MorphData) : MorphData :=
  let '(mkMorphData i rw rh rp w h p hd he ho hg hid b n tx s c tp dd dp at_ a1 a2 a3 a4 a5 a6) := d in
  mkMorphData i rw rh rp w h p hd he ho true hid b n tx s c tp dd dp at_ a1 a2 a3 a4 a5 a6.

(** The drag scene of the specification.  [drag_widget] is the widget A:
    [Morph(drag_drop=True)] of size 20 by 20 at [(0, 0)], set to handle
    events; [drag_self] is A in drag state with anchor [(5, 5)], as a left
    press with the pointer at [(5, 5)] leaves it; [drag_other] is the
    sibling B of size 20 by 20 at [(25, 0)].  In [drag_start] A and B are
    the children of a world whose pointer is at [(5, 5)]; in [drag_scene]
    A is in drag state and the [mouse_position] is [mouse]. *)
Definition drag_widget (n : string) : MorphData :=
  draggable (handling (new_morph 2 n (0, 0) 20 20 1)).
Definition drag_self (n : string) : MorphData :=
  set_drag_position (5, 5) (set_drag_drop true (drag_widget n)).
Definition drag_other (n : string) : MorphData := new_morph 3 n (25, 0) 20 20 1.
Definition drag_start (n_self n_other : string) : World :=
  set_mouse_position (5, 5)
    (set_mouse_position_absolute (5, 5)
       (new_world 1 [Node (drag_widget n_self) []; Node (drag_other n_other) []])).
Definition drag_scene (n_self n_other : string) (mouse : Point) : World :=
  set_mouse_position mouse
    (new_world 1 [Node (drag_self n_self) []; Node (drag_other n_other) []]).

(** The assignment of [mouse_position] in [World.draw]: the absolute
    pointer position relative to the origin of the draw area. *)
Definition draw_mouse_position (w : World) : World :=
  set_mouse_position
    (fst (mouse_position_absolute w) - b0 (draw_area w),
     snd (mouse_position_absolute w) - b1 (draw_area w)) w.

(** Modelled from the spec: the condition under which the specification
    rejects the move of the dragged [self] to the candidate position
    [cand].  The child [big] of the root is a sibling that is not [self]
    (another object), is not hidden, and [collisionDetect] holds of the
    candidate position, the scaled position of [big] and the scaled sizes
    of [self] and [big]. *)
Definition sibling_in_the_way
    (collisionDetect : Z -> Z -> Z -> Z -> Z -> Z -> Z -> Z -> bool)
    (w : World) (self : MorphData) (cand : Point) (big : Morph) : Prop :=
  oid (data big) <> oid self /\
  is_hidden (data big) = false /\
  collisionDetect (fst cand) (snd cand)
    (fst (position_scaled w ParentWorld (data big)))
    (snd (position_scaled w ParentWorld (data big)))
    (_width self) (_height self) (_width (data big)) (_height (data big)) = true.

(** Child [big] of the world stops the drag of [self] to the candidate
    position [cand]: its name is not the name of [self], it is not hidden,
    and [collisionDetect] holds of the candidate position, the scaled
    position of [big] and the scaled sizes of [self] and [big]. *)
Definition blocks_drag (collisionDetect : Z -> Z -> Z -> Z -> Z -> Z -> Z -> Z -> bool)
    (w : World) (self : MorphData) (cand : Point) (big : Morph) : Prop :=
  name (data big) <> name self /\
  is_hidden (data big) = false /\
  collisionDetect (fst cand) (snd cand)
    (fst (position_scaled w ParentWorld (data big)))
    (snd (position_scaled w ParentWorld (data big)))
    (_width self) (_height self) (_width (data big)) (_height (data big)) = true.

(** The scaled sizes of a morph are not negative. *)
Definition sizes_ok (d : MorphData) : Prop := 0 <= _width d /\ 0 <= _height d.

(** The morphs of the tree [m] in the order in which [on_event] comes to
    their own handling: the descendants of a morph before the morph, the
    children in insertion order; each morph with its chain of parents. *)
Fixpoint postorder (parent : Parent) (m : Morph) : list (Parent * MorphData) :=
  match m with
  | Node d cs => flat_map (postorder (ParentMorph d parent)) cs ++ [(parent, d)]
  end.

(** A pointer-button event. *)
Definition is_button (ev : Event) : Prop := type ev = LEFTMOUSE \/ type ev = RIGHTMOUSE.

(** The morph [d] under [parent] takes a pointer-button event: it handles
    events, is not hidden, the pointer is over it and it handles mouse
    down. *)
Definition takes_click (circle_contains : Z -> Z -> Z -> Z -> Z -> bool) (w : World)
    (pd : Parent * MorphData) : bool :=
  handles_events (snd pd) && negb (is_hidden (snd pd)) &&
  match mouse_over_morph circle_contains w (fst pd) (snd pd) with
  | Ok true => handles_mouse_down (snd pd)
  | _ => false
  end.

(** The hit-test of the morph [d] under [parent] returns. *)
Definition hit_test_returns (circle_contains : Z -> Z -> Z -> Z -> Z -> bool) (w : World)
    (pd : Parent * MorphData) : Prop :=
  exists b, mouse_over_morph circle_contains w (fst pd) (snd pd) = Ok b.

(** A panel of size 100 by 100 at [(0, 0)] with a child of size 10 by 10 at
    [(5, 5)], both handling clicks, under a world. *)
Definition click_leaf : MorphData := handling (new_morph 3 "leaf" (5, 5) 10 10 1).
Definition click_panel : Morph :=
  add_morph (Node (handling (new_morph 2 "panel" (0, 0) 100 100 1)) []) (Node click_leaf []).
Definition click_world : World := new_world 1 [click_panel].

(** The click handlers: each runs once, on [self], and leaves the world. *)
Definition click_handler_like
    (h : World -> Parent -> MorphData -> Outcome MorphData Returned) : Prop :=
  forall w parent s,
    world_after (h w parent s) = w /\
    (exists r, runs (h w parent s) = [r] /\ who r = oid s /\ is_click_handler (handler r) = true) /\
    (world w parent = Some w -> exists v, result (h w parent s) = Ok v).

(** The outcome [o] of a dispatch ran at most one handler, and none if it
    leaves the event unconsumed. *)
Definition one_run {X : Type} (o : Outcome X unit) : Prop :=
  (List.length (runs o) <= 1)%nat /\
  (consumed_event (world_after o) = false -> runs o = []).

(** The outcome [o] of dispatching a pointer-button event [ev] from the
    world [w], to morphs that come to their own handling in the order
    [order]: the dispatch returns; when no morph of [order] takes the click
    the outcome is [idle]; otherwise the handler runs are those of
    [on_mouse_click] on the first morph of [order] that takes the click,
    and the event is consumed. *)
Definition first_taker {X : Type} (circle_contains : Z -> Z -> Z -> Z -> Z -> bool)
    (w : World) (ev : Event)
    (order : list (Parent * MorphData)) (o idle : Outcome X unit) : Prop :=
  result o = Ok tt /\
  match find (takes_click circle_contains w) order with
  | None => o = idle
  | Some pd =>
      runs o = runs (on_mouse_click circle_contains w (fst pd) (snd pd) ev) /\
      consumed_event (world_after o) = true
  end.

(** The morph [d] with its position and drag state blanked: two morphs
    with the same image differ at most in [real_position], [_position],
    [drag_drop] and [drag_position]. *)
Definition still (d : MorphData) : MorphData :=
  set_drag_position (0, 0)
    (set_drag_drop false (set__position (0, 0) (set_real_position (0, 0) d))).

(** [f] applied to every morph of a tree. *)
Fixpoint map_tree (f : MorphData -> MorphData) (m : Morph) : Morph :=
  match m with
  | Node d cs => Node (f d) (map (map_tree f) cs)
  end.

(** The identities of the morphs of a tree, in their places. *)
Unset Elimination Schemes.
Inductive Shape : Type :=
| ShapeNode (i : nat) (cs : list Shape).
Set Elimination Schemes.

Fixpoint shape (m : Morph) : Shape :=
  match m with
  | Node d cs => ShapeNode (oid d) (map shape cs)
  end.

(** The world [w] with its children and its consumed flag blanked. *)
Definition world_frame_of (w : World) : World :=
  set_consumed_event false (set_morph (Node (data (morph w)) []) w).

(** Every morph of the tree [m], [m] included, holds the hidden flag [b]. *)
Definition uniform (b : bool) (m : Morph) : Prop :=
  hidden_is b m /\ Forall (hidden_is b) (descendants m).

(** The sizes the hit-test and the drag step read are not negative. *)
Definition hover_safe (d : MorphData) : Prop :=
  0 <= real_width d /\ 0 <= _width d /\ 0 <= _height d.

(** The morph [d] receives pointer-move events: it handles events and is
    not hidden. *)
Definition hovers (d : MorphData) : bool := handles_events d && negb (is_hidden d).

(** A run of one of the two hover handlers. *)
Definition is_hover_run (r : HandlerRun) : Prop :=
  handler r = m_on_mouse_in \/ handler r = m_on_mouse_out.

(** A handler leaves the world alone and moves nothing but the drag state
    of [self]. *)
Definition quiet_handler
    (h : World -> Parent -> MorphData -> Outcome MorphData Returned) : Prop :=
  forall w parent s,
    world_after (h w parent s) = w /\ still (self_after (h w parent s)) = still s.

(** The world an operation leaves is the one it found, but for a consumed
    flag it may have set. *)
Definition world_kept (w w' : World) : Prop :=
  w' = w \/ w' = set_consumed_event true w.

(** The outcome [o] of dispatching a pointer move from the world [w] to
    the morphs [order]: it returns, leaves the world as it was, and ran one
    hover handler on each morph of [order] that handles events and is not
    hidden, in that order. *)
Definition hover_each {X : Type} (w : World) (order : list MorphData) (o : Outcome X unit)
  : Prop :=
  result o = Ok tt /\
  world_after o = w /\
  map who (runs o) = map oid (filter hovers order) /\
  Forall is_hover_run (runs o).

(** The morph [d] with its drag state blanked. *)
Definition without_drag_state (d : MorphData) : MorphData :=
  set_drag_position (0, 0) (set_drag_drop false d).

(** The morph [d] with its position and drag anchor blanked. *)
Definition without_position (d : MorphData) : MorphData :=
  set_drag_position (0, 0) (set__position (0, 0) (set_real_position (0, 0) d)).

(** The assignment of [draw_area_position], as [World.draw] makes it. *)
Definition set_draw_area_position (v : Point) (w : World) : World :=
  let '(mkWorld m ce mo mp mpa mci wp ww wh ev da dap daw dah ah) := w in
  mkWorld m ce mo mp mpa mci wp ww wh ev da v daw dah ah.

(** Every morph of the chain of parents has its cached [_position] equal to
    its [real_position]. *)
Fixpoint chain_unscaled (parent : Parent) : Prop :=
  match parent with
  | ParentMorph d p => _position d = real_position d /\ chain_unscaled p
  | _ => True
  end.

(** A host in which every image loads, with size 64 by 64. *)
Definition all_images (path : string) : option (Z * Z) := Some (64, 64).

(** A draggable button of size 20 by 20 at [(0, 0)] under a world whose
    pointer is at [(7, 7)]. *)
Definition drag_button : MorphData := draggable (handling (new_morph 2 "button" (0, 0) 20 20 1)).
Definition drag_button_world : World :=
  set_mouse_position_absolute (7, 7)
    (set_mouse_position (7, 7) (new_world 1 [Node drag_button []])).

(** * Properties *)

Unset Implicit Arguments.

Ltac kept := split; cbn [runs world_after]; first [assumption | congruence].


(** ** The objects of the examples are those the constructors build *)

Lemma new_morph_init (images_load : string -> option (Z * Z)) (i : nat) (n : string)
    (pos : Point) (w h s : Z) :
  0 <= w -> 0 <= h * s ->
  Morph_init images_load i
    (mkKargs None w h pos n None None None None None None None s false false)
  = Ok (new_morph i n pos w h s).
Proof.
  intros Hw Hh. unfold Morph_init, width, height. cbn.
  destruct (Z.ltb_spec w 0) as [?|_]; [lia|].
  destruct (Z.ltb_spec (h * s) 0) as [?|_]; [lia|]. cbn.
  destruct pos. reflexivity.
Qed.

Lemma new_world_init (images_load : string -> option (Z * Z)) (i : nat)
    (singular auto_hide_ : bool) :
  World_init images_load i singular auto_hide_ default_kargs = Ok (new_world i []).
Proof. reflexivity. Qed.

(** ** Lookup by name *)

(** What [get_child_morph_named] computes: the first child of that name,
    children only. *)
Lemma get_child_morph_named_children (n : string) (m : Morph) :
  get_child_morph_named n m
  = find (fun child => String.eqb (name (data child)) n) (children m).
Proof.
  destruct m as [d cs]; simpl.
  induction cs as [|c cs IH]; simpl; [reflexivity|].
  destruct (String.eqb (name (data c)) n); [reflexivity|exact IH].
Qed.

(** C1 (the code departs from it): a morph named [b] nested two levels
    below the root is the first match of the exhaustive depth-first search,
    and [get_child_morph_named] returns [None] for it. *)
Theorem get_child_morph_named_misses_nested :
  In nested_b (descendants nested_root) /\
  name (data nested_b) = "b" /\
  find_by_name_spec "b" nested_root = Some nested_b /\
  get_child_morph_named "b" nested_root = None.
Proof.
  repeat split; try reflexivity.
  simpl. right. left. reflexivity.
Qed.

(** ** The hidden flag *)

Lemma descendants_Node (d : MorphData) (cs : list Morph) (m : Morph) :
  In m (descendants (Node d cs)) <->
  exists c, In c cs /\ (m = c \/ In m (descendants c)).
Proof.
  simpl. rewrite in_flat_map. split.
  - intros (c & Hc & Hm). exists c. split; [exact Hc|].
    destruct Hm as [Hm|Hm]; [left; symmetry; exact Hm|right; exact Hm].
  - intros (c & Hc & Hm). exists c. split; [exact Hc|].
    destruct Hm as [Hm|Hm]; [left; symmetry; exact Hm|right; exact Hm].
Qed.

(** A descendant of a descendant is a descendant. *)
Lemma descendants_trans (m : Morph) :
  forall d e, In d (descendants m) -> In e (descendants d) -> In e (descendants m).
Proof.
  induction m as [dm cs IH] using Morph_ind.
  intros d e Hd He.
  apply descendants_Node in Hd. destruct Hd as (c & Hc & Hd).
  apply descendants_Node. exists c. split; [exact Hc|]. right.
  destruct Hd as [->|Hd]; [exact He|].
  rewrite Forall_forall in IH. exact (IH c Hc d e Hd He).
Qed.

Lemma set_is_hidden_data (b : bool) (m : Morph) :
  is_hidden (data (set_is_hidden b m)) = b.
Proof. destruct m as [d cs]; destruct d; reflexivity. Qed.

Lemma set_is_hidden_Node (b : bool) (d : MorphData) (cs : list Morph) :
  set_is_hidden b (Node d cs) = Node (set__is_hidden b d) (map (child_after b) cs).
Proof. reflexivity. Qed.

Lemma child_after_data (b : bool) (c : Morph) :
  is_hidden (data (child_after b c)) = b.
Proof.
  unfold child_after.
  destruct (Bool.eqb (is_hidden (data c)) b) eqn:E; simpl.
  - apply Bool.eqb_prop in E. exact E.
  - apply set_is_hidden_data.
Qed.

(** The descent stops at a child that already holds the value: all
    descendants hold [b] after the assignment exactly when every descendant
    that held [b] before had nothing but [b] below it. *)
Lemma set_is_hidden_all_iff (b : bool) (m : Morph) :
  Forall (hidden_is b) (descendants (set_is_hidden b m)) <->
  (forall d, In d (descendants m) -> hidden_is b d ->
             Forall (hidden_is b) (descendants d)).
Proof.
  induction m as [dm cs IH] using Morph_ind.
  rewrite set_is_hidden_Node, Forall_forall.
  rewrite Forall_forall in IH.
  split.
  - intros H d Hd Hb.
    apply descendants_Node in Hd. destruct Hd as (c & Hc & Hd).
    assert (Hall : forall e, In e (descendants (child_after b c)) -> hidden_is b e).
    { intros e He. apply H. apply descendants_Node.
      exists (child_after b c). split; [apply in_map; exact Hc|right; exact He]. }
    unfold child_after in Hall.
    destruct (Bool.eqb (is_hidden (data c)) b) eqn:E; simpl in Hall.
    + apply Forall_forall. intros e He. apply Hall.
      destruct Hd as [->|Hd]; [exact He|].
      exact (descendants_trans c d e Hd He).
    + destruct Hd as [->|Hd].
      * unfold hidden_is in Hb. rewrite Hb, Bool.eqb_reflx in E. discriminate.
      * apply (proj1 (IH c Hc)); [apply Forall_forall; exact Hall|exact Hd|exact Hb].
  - intros H e He.
    apply descendants_Node in He. destruct He as (c' & Hc' & He).
    apply in_map_iff in Hc'. destruct Hc' as (c & <- & Hc).
    destruct He as [->|He]; [apply child_after_data|].
    unfold child_after in He.
    destruct (Bool.eqb (is_hidden (data c)) b) eqn:E; simpl in He.
    + apply Bool.eqb_prop in E.
      assert (Hc1 : In c (descendants (Node dm cs))).
      { apply descendants_Node. exists c. split; [exact Hc|left; reflexivity]. }
      pose proof (H c Hc1 E) as Hall. rewrite Forall_forall in Hall.
      exact (Hall e He).
    + assert (Hall : Forall (hidden_is b) (descendants (set_is_hidden b c))).
      { apply (proj2 (IH c Hc)). intros d Hd Hb. apply H; [|exact Hb].
        apply descendants_Node. exists c. split; [exact Hc|right; exact Hd]. }
      rewrite Forall_forall in Hall. exact (Hall e He).
Qed.

(** C4, as the claim states it, fails: assigning [is_hidden = False] on a
    visible morph whose visible child has a hidden child leaves that
    grandchild hidden. *)
Lemma set_is_hidden_skips_equal_child :
  ~ (forall (w : Morph) (b : bool),
       Forall (hidden_is b) (descendants (set_is_hidden b w))).
Proof.
  intros H. specialize (H hidden_grandchild false).
  rewrite Forall_forall in H.
  assert (Hin : In (set_is_hidden true (Node (new_morph 3 "g" (0, 0) 10 10 1) []))
                  (descendants (set_is_hidden false hidden_grandchild))).
  { simpl. right. left. reflexivity. }
  specialize (H _ Hin). discriminate H.
Qed.

(** C4, amended: after assigning [is_hidden = b] on a morph, the morph and
    each of its children hold [b]; every descendant at every depth holds
    [b] if and only if, before the assignment, every descendant that
    already held [b] had only descendants holding [b] (the setter does not
    descend into a child whose flag already equals [b]). *)
Theorem set_is_hidden_cascade (w : Morph) (b : bool) :
  hidden_is b (set_is_hidden b w) /\
  Forall (hidden_is b) (children (set_is_hidden b w)) /\
  (Forall (hidden_is b) (descendants (set_is_hidden b w)) <->
   (forall d, In d (descendants w) -> hidden_is b d ->
              Forall (hidden_is b) (descendants d))).
Proof.
  split; [apply set_is_hidden_data|]. split; [|apply set_is_hidden_all_iff].
  destruct w as [d cs]. rewrite set_is_hidden_Node. simpl.
  apply Forall_forall. intros c Hc.
  apply in_map_iff in Hc. destruct Hc as (c0 & <- & _).
  apply child_after_data.
Qed.

(** When every child of the morph is uniform (it and all of its descendants
    hold one value), the assignment reaches the whole subtree. *)
Corollary set_is_hidden_uniform_children (w : Morph) (b : bool) :
  (forall d, In d (descendants w) ->
             Forall (hidden_is (is_hidden (data d))) (descendants d)) ->
  Forall (hidden_is b) (descendants (set_is_hidden b w)).
Proof.
  intros H. apply set_is_hidden_all_iff. intros d Hd Hb.
  unfold hidden_is in Hb. rewrite <- Hb. exact (H d Hd).
Qed.

(** ** Bounds under attachment *)

Lemma grow_bounds_min_max (sb mb : Box) :
  grow_bounds sb mb
  = mkBox (Z.min (b0 sb) (b0 mb)) (Z.min (b1 sb) (b1 mb))
          (Z.max (b2 sb) (b2 mb)) (Z.max (b3 sb) (b3 mb)).
Proof.
  destruct sb as [s0 s1 s2 s3], mb as [m0 m1 m2 m3].
  unfold grow_bounds; cbn [b0 b1 b2 b3].
  rewrite (Z.gtb_ltb s0 m0).
  destruct (Z.ltb_spec m0 s0); cbn [b0 b1 b2 b3];
    rewrite (Z.gtb_ltb s1 m1);
    destruct (Z.ltb_spec m1 s1); cbn [b0 b1 b2 b3];
    destruct (Z.ltb_spec s2 m2); cbn [b0 b1 b2 b3];
    destruct (Z.ltb_spec s3 m3); cbn [b0 b1 b2 b3];
    f_equal; lia.
Qed.

Lemma bounds_set_bounds (b : Box) (d : MorphData) : bounds (set_bounds b d) = b.
Proof. destruct d; reflexivity. Qed.

Lemma add_morph_bounds (p c : Morph) :
  bounds (data (add_morph p c)) = grow_bounds (bounds (data p)) (bounds (data c)).
Proof. destruct p as [d cs]; simpl. apply bounds_set_bounds. Qed.

Lemma World_add_morph_bounds (p : World) (c : Morph) :
  bounds (data (morph (World_add_morph p c)))
  = grow_bounds (bounds (data (morph p))) (bounds (data c)).
Proof.
  destruct p as [m ce mo mp mpa mci wp ww wh ev da dap daw dah ah].
  destruct m as [d cs]; simpl. apply bounds_set_bounds.
Qed.

Lemma min_max_contains (sb mb : Box) :
  let after := mkBox (Z.min (b0 sb) (b0 mb)) (Z.min (b1 sb) (b1 mb))
                     (Z.max (b2 sb) (b2 mb)) (Z.max (b3 sb) (b3 mb)) in
  box_contains after mb /\ box_contains after sb.
Proof. unfold box_contains; simpl; lia. Qed.

(** C8: after [add_morph(p, c)], for a morph [p] and for a world [p], each
    min coordinate of [p.bounds] is the minimum and each max coordinate the
    maximum of the coordinates of [p.bounds] before and of [c.bounds]; the
    box after covers both boxes, and [c] is the last child. *)
Theorem add_morph_bounds_cover :
  (forall p c : Morph,
     let after := bounds (data (add_morph p c)) in
     after = mkBox (Z.min (b0 (bounds (data p))) (b0 (bounds (data c))))
                   (Z.min (b1 (bounds (data p))) (b1 (bounds (data c))))
                   (Z.max (b2 (bounds (data p))) (b2 (bounds (data c))))
                   (Z.max (b3 (bounds (data p))) (b3 (bounds (data c)))) /\
     box_contains after (bounds (data c)) /\
     box_contains after (bounds (data p)) /\
     children (add_morph p c) = children p ++ [c]) /\
  (forall (p : World) (c : Morph),
     let after := bounds (data (morph (World_add_morph p c))) in
     after = mkBox (Z.min (b0 (bounds (data (morph p)))) (b0 (bounds (data c))))
                   (Z.min (b1 (bounds (data (morph p)))) (b1 (bounds (data c))))
                   (Z.max (b2 (bounds (data (morph p)))) (b2 (bounds (data c))))
                   (Z.max (b3 (bounds (data (morph p)))) (b3 (bounds (data c)))) /\
     box_contains after (bounds (data c)) /\
     box_contains after (bounds (data (morph p))) /\
     children (morph (World_add_morph p c)) = children (morph p) ++ [c]).
Proof.
  split.
  - intros p c after. subst after.
    rewrite add_morph_bounds, grow_bounds_min_max.
    split; [reflexivity|].
    destruct (min_max_contains (bounds (data p)) (bounds (data c))) as [H1 H2].
    split; [exact H1|]. split; [exact H2|].
    destruct p as [d cs]; reflexivity.
  - intros p c after. subst after.
    rewrite World_add_morph_bounds, grow_bounds_min_max.
    split; [reflexivity|].
    destruct (min_max_contains (bounds (data (morph p))) (bounds (data c))) as [H1 H2].
    split; [exact H1|]. split; [exact H2|].
    destruct p as [m ce mo mp mpa mci wp ww wh ev da dap daw dah ah].
    destruct m as [d cs]; reflexivity.
Qed.

(** ** The width setter *)

Lemma real_width_set (v x : Z) (d : MorphData) :
  real_width (set__width x (set_real_width v d)) = v.
Proof. destruct d; reflexivity. Qed.

Lemma _width_set (v x : Z) (d : MorphData) :
  _width (set__width x (set_real_width v d)) = x.
Proof. destruct d; reflexivity. Qed.

(** C6: the [width] setter called with [v < 0] raises [ValueError] and
    leaves the morph as it was, unscaled and scaled width included; called
    with [v >= 0] it returns, the stored width is [v] (and the [width]
    property reads [v]), and the scaled width is [v] times the absolute
    scale. *)
Theorem set_width_checked (w : World) (parent : Parent) (self : MorphData) (v : Z) :
  (v < 0 ->
   exists msg,
     set_width w parent v self = (Raise (ValueError msg), self) /\
     real_width (snd (set_width w parent v self)) = real_width self /\
     _width (snd (set_width w parent v self)) = _width self) /\
  (0 <= v ->
   fst (set_width w parent v self) = Ok tt /\
   real_width (snd (set_width w parent v self)) = v /\
   width (snd (set_width w parent v self)) = Ok v /\
   _width (snd (set_width w parent v self)) = v * get_absolute_scale w parent self).
Proof.
  unfold set_width. split; intros Hv.
  - apply Z.ltb_lt in Hv. rewrite Hv.
    eexists. split; [reflexivity|]. split; reflexivity.
  - destruct (Z.ltb_spec v 0) as [Hlt|_]; [lia|]. simpl.
    split; [reflexivity|].
    split; [apply real_width_set|].
    split.
    + unfold width. rewrite real_width_set.
      destruct (Z.ltb_spec v 0) as [Hlt|_]; [lia|reflexivity].
    + apply _width_set.
Qed.

(** ** The world constructor *)

(** C9: [World.__init__] does not read its [auto_hide] argument: it behaves
    the same for [True] and [False], and every world it builds has
    [auto_hide] equal to [True]. *)
Theorem World_init_auto_hide (images_load : string -> option (Z * Z))
    (new_oid : nat) (singular auto_hide_ : bool) (kargs : Kargs) :
  World_init images_load new_oid singular auto_hide_ kargs
  = World_init images_load new_oid singular (negb auto_hide_) kargs /\
  forall w : World,
    World_init images_load new_oid singular auto_hide_ kargs = Ok w ->
    auto_hide w = true.
Proof.
  split; [reflexivity|].
  intros w H. unfold World_init in H.
  destruct (Morph_init images_load new_oid kargs) as [self|e]; simpl in H.
  - injection H as <-. reflexivity.
  - discriminate H.
Qed.

(** The constructor returns a world for the default arguments, whatever
    [auto_hide] is given. *)
Lemma World_init_default (images_load : string -> option (Z * Z))
    (new_oid : nat) (singular auto_hide_ : bool) :
  exists w, World_init images_load new_oid singular auto_hide_ default_kargs = Ok w.
Proof. eexists. reflexivity. Qed.

(** ** The world's event entry point *)

(** C10: [World.on_event] called with a context whose [region] is [None]
    returns at once: no handler runs and the world is left as it was, so
    [consumed_event], [event], both pointer positions and the window
    geometry keep their values. *)
Theorem World_on_event_no_region
    (collisionDetect : Z -> Z -> Z -> Z -> Z -> Z -> Z -> Z -> bool)
    (circle_contains : Z -> Z -> Z -> Z -> Z -> bool)
    (self : World) (bpy_region : option Region) (ev : Event) (context : Context) :
  region context = None ->
  let out := World_on_event collisionDetect circle_contains self bpy_region ev context in
  result out = Ok tt /\
  runs out = [] /\
  world_after out = self /\
  consumed_event (world_after out) = consumed_event self /\
  event (world_after out) = event self /\
  mouse_position (world_after out) = mouse_position self /\
  mouse_position_absolute (world_after out) = mouse_position_absolute self /\
  window_position (world_after out) = window_position self /\
  window_width (world_after out) = window_width self /\
  window_height (world_after out) = window_height self /\
  morph (world_after out) = morph self.
Proof.
  intros H out. subst out. unfold World_on_event. rewrite H. simpl.
  repeat split.
Qed.

(** ** Mouse out *)

(** What [on_mouse_out] calls on a bound action. *)
Lemma on_mouse_out_bound (w : World) (parent : Parent) (self : MorphData) (a : Action) :
  on_mouse_out_action self = Some a ->
  runs (on_mouse_out w parent self)
  = [mkRun (oid self) m_on_mouse_out (Some (a, m_on_mouse_in))].
Proof. intros H. unfold on_mouse_out. rewrite H. reflexivity. Qed.

(** C7 (the code departs from it): a pointer move with the pointer away
    from a morph with a bound mouse-out action runs [on_mouse_out], which
    calls the method [on_mouse_in] of that action, not [on_mouse_out]. *)
Theorem on_mouse_out_calls_on_mouse_in :
  let w := new_world 1 [Node with_mouse_out_action []] in
  let ev := mkEvent MOUSEMOVE OTHER_VALUE 0 0 in
  mouse_over_morph exact_circle_contains w ParentWorld with_mouse_out_action = Ok false /\
  runs (on_mouse_over aabb_collision exact_circle_contains w ParentWorld None
          with_mouse_out_action ev)
  = [mkRun 2 m_on_mouse_out (Some (7%nat, m_on_mouse_in))] /\
  runs (World_on_event aabb_collision exact_circle_contains w None ev
          (mkContext (Some (mkRegion 0 0 300 300))))
  = [mkRun 2 m_on_mouse_out (Some (7%nat, m_on_mouse_in))].
Proof. repeat split. Qed.

(** ** The rectangle hit-test *)

(** What [mouse_over_morph] computes for a rectangle under a world: the
    pointer lies strictly inside the box from the absolute position to the
    absolute position plus the unscaled [width] and [height]. *)
Lemma mouse_over_morph_rectangle (circle_contains : Z -> Z -> Z -> Z -> Z -> bool)
    (w : World) (parent : Parent) (self : MorphData) :
  circle self = false ->
  world w parent = Some w ->
  0 <= real_width self ->
  0 <= _height self ->
  exists b,
    mouse_over_morph circle_contains w parent self = Ok b /\
    (b = true <->
     strictly_inside (fst (mouse_position_absolute w)) (snd (mouse_position_absolute w))
       (fst (get_absolute_position w parent self))
       (snd (get_absolute_position w parent self))
       (real_width self) (real_height self)).
Proof.
  intros Hc Hw Hrw Hh. unfold mouse_over_morph, width, height.
  rewrite Hc, Hw.
  destruct (Z.ltb_spec (real_width self) 0) as [?|_]; [lia|].
  destruct (Z.ltb_spec (_height self) 0) as [?|_]; [lia|]. simpl.
  eexists. split; [reflexivity|].
  unfold strictly_inside.
  rewrite !Bool.andb_true_iff, !Z.gtb_ltb, !Z.ltb_lt. tauto.
Qed.

(** C3 (the code departs from it): for a rectangle of unscaled size 10 by
    10 and scale 2 at absolute position [(0, 0)], whose scaled size is 20
    by 20, the pointer at [(15, 5)] lies strictly inside the scaled box and
    [mouse_over_morph] is [False]: the test adds the unscaled [width] and
    [height]. *)
Theorem mouse_over_morph_uses_unscaled_size :
  circle scaled_square = false /\
  get_absolute_position world_pointer_15_5 ParentWorld scaled_square = (0, 0) /\
  mouse_position_absolute world_pointer_15_5 = (15, 5) /\
  width_scaled scaled_square = Ok 20 /\
  height_scaled scaled_square = Ok 20 /\
  strictly_inside 15 5 0 0 20 20 /\
  mouse_over_morph exact_circle_contains world_pointer_15_5 ParentWorld scaled_square
  = Ok false.
Proof.
  repeat split; unfold strictly_inside; lia.
Qed.

(** ** Dragging *)

Lemma self_after_on_mouse_in (w : World) (parent : Parent) (self : MorphData) :
  self_after (on_mouse_in w parent self) = self.
Proof.
  unfold on_mouse_in.
  destruct (on_mouse_in_action self); [reflexivity|].
  destruct (world w parent); reflexivity.
Qed.

Lemma self_after_on_mouse_out (w : World) (parent : Parent) (self : MorphData) :
  self_after (on_mouse_out w parent self) = self.
Proof.
  unfold on_mouse_out.
  destruct (on_mouse_out_action self); [reflexivity|].
  destruct (world w parent); reflexivity.
Qed.

(** [on_mouse_over] leaves [self] as its first statement leaves it. *)
Lemma self_after_on_mouse_over
    (collisionDetect : Z -> Z -> Z -> Z -> Z -> Z -> Z -> Z -> bool)
    (circle_contains : Z -> Z -> Z -> Z -> Z -> bool)
    (w : World) (parent : Parent) (bpy_region : option Region)
    (self : MorphData) (ev : Event) :
  self_after (on_mouse_over collisionDetect circle_contains w parent bpy_region self ev)
  = snd (drag_step collisionDetect w parent bpy_region self).
Proof.
  unfold on_mouse_over.
  destruct (drag_step collisionDetect w parent bpy_region self) as [[u|e] self1];
    [|reflexivity].
  destruct (mouse_over_morph circle_contains w parent self1) as [[|]|e]; simpl.
  - apply self_after_on_mouse_in.
  - apply self_after_on_mouse_out.
  - reflexivity.
Qed.

(** The loop over the children of the world: with no negative scaled size
    it returns, and it cancels the drag exactly when a child stops it. *)
Lemma collision_loop_Exists
    (collisionDetect : Z -> Z -> Z -> Z -> Z -> Z -> Z -> Z -> bool)
    (w : World) (self : MorphData) (cand : Point) (l : list Morph) :
  sizes_ok self ->
  Forall (fun c => sizes_ok (data c)) l ->
  forall cancel_drag : bool,
  exists b,
    collision_loop collisionDetect w self (fst cand) (snd cand) l cancel_drag = Ok b /\
    (b = true <->
     cancel_drag = true \/ Exists (blocks_drag collisionDetect w self cand) l).
Proof.
  intros [Hsw Hsh] Hl.
  induction Hl as [|c l [Hcw Hch] Hl IH]; intros cancel_drag.
  - exists cancel_drag. split; [reflexivity|].
    split; [intros H; left; exact H|].
    intros [H|H]; [exact H|inversion H].
  - cbn [collision_loop].
    unfold width_scaled, height_scaled.
    destruct (Z.ltb_spec (_width self) 0) as [?|_]; [lia|].
    destruct (Z.ltb_spec (_height self) 0) as [?|_]; [lia|].
    destruct (Z.ltb_spec (_width (data c)) 0) as [?|_]; [lia|].
    destruct (Z.ltb_spec (_height (data c)) 0) as [?|_]; [lia|].
    destruct (String.eqb (name (data c)) (name self)) eqn:En; cbn [negb andb bind].
    + destruct (IH cancel_drag) as (b & Hb & Hiff).
      exists b. split; [exact Hb|].
      rewrite Hiff. apply String.eqb_eq in En.
      split; (intros [H|H]; [left; exact H|right]).
      * apply Exists_cons_tl. exact H.
      * inversion H as [? ? Hc|? ? Ht]; subst; [|exact Ht].
        destruct Hc as (Hn & _). contradiction.
    + apply String.eqb_neq in En.
      destruct (is_hidden (data c)) eqn:Eh; cbn [negb andb bind].
      * destruct (IH cancel_drag) as (b & Hb & Hiff).
        exists b. split; [exact Hb|].
        rewrite Hiff.
        split; (intros [H|H]; [left; exact H|right]).
        -- apply Exists_cons_tl. exact H.
        -- inversion H as [? ? Hc|? ? Ht]; subst; [|exact Ht].
           destruct Hc as (_ & Hh & _). congruence.
      * destruct (collisionDetect (fst cand) (snd cand)
                    (fst (position_scaled w ParentWorld (data c)))
                    (snd (position_scaled w ParentWorld (data c)))
                    (_width self) (_height self)
                    (_width (data c)) (_height (data c))) eqn:Ec.
        -- destruct (IH true) as (b & Hb & Hiff).
           exists b. split; [exact Hb|].
           rewrite Hiff.
           split; [intros _; right|intros _; left; reflexivity].
           apply Exists_cons_hd. repeat split; assumption.
        -- destruct (IH cancel_drag) as (b & Hb & Hiff).
           exists b. split; [exact Hb|].
           rewrite Hiff.
           split; (intros [H|H]; [left; exact H|right]).
           ++ apply Exists_cons_tl. exact H.
           ++ inversion H as [? ? Hc|? ? Ht]; subst; [|exact Ht].
              destruct Hc as (_ & _ & Hc). congruence.
Qed.

(** Children of the world that bear the name of [self] are passed over,
    whatever [collisionDetect] says of them. *)
Lemma collision_loop_namesakes
    (collisionDetect : Z -> Z -> Z -> Z -> Z -> Z -> Z -> Z -> bool)
    (w : World) (self : MorphData) (positionX positionY : Z) (l : list Morph)
    (cancel_drag : bool) :
  Forall (fun c => name (data c) = name self) l ->
  collision_loop collisionDetect w self positionX positionY l cancel_drag = Ok cancel_drag.
Proof.
  induction 1 as [|c l Hc Hl IH]; cbn [collision_loop]; [reflexivity|].
  rewrite Hc, String.eqb_refl. cbn [negb andb bind]. exact IH.
Qed.

(** C5 (the code departs from it): a sibling that bears the name of the
    dragged widget does not stop its drag.  In the drag scene with
    A and B both under the default name ["noname"], a left press at
    [(5, 5)] puts the drag-enabled A in drag state with anchor [(5, 5)].
    The pointer then moves to [(27, 5)]: a first pointer-move event leaves
    A where it is, [World.draw] records the pointer in [mouse_position],
    and at the next pointer-move event the candidate position is
    [(22, 0)].  B is a sibling of A under the same root, is not A, is not
    hidden, and collides with the candidate rectangle, so that the claim
    leaves the position and the anchor of A as they are.  The event puts
    A at [(22, 0)] and its anchor at [(27, 5)]: [on_mouse_over] tells
    [self] from its siblings by [bigMorph.name != self.name], and never
    asks [collisionDetect] about B. *)
Theorem drag_moves_onto_namesake
    (collisionDetect : Z -> Z -> Z -> Z -> Z -> Z -> Z -> Z -> bool)
    (circle_contains : Z -> Z -> Z -> Z -> Z -> bool) :
  collisionDetect 22 0 25 0 20 20 20 20 = true ->
  let context := mkContext (Some (mkRegion 0 0 300 300)) in
  let press :=
    World_on_event collisionDetect circle_contains (drag_start "noname" "noname") None
      (mkEvent LEFTMOUSE PRESS 5 5) context in
  let first_move :=
    World_on_event collisionDetect circle_contains (world_after press) None
      (mkEvent MOUSEMOVE OTHER_VALUE 27 5) context in
  let w := draw_mouse_position (world_after first_move) in
  let move :=
    World_on_event collisionDetect circle_contains w None
      (mkEvent MOUSEMOVE OTHER_VALUE 27 5) context in
  let self := drag_self "noname" in
  handles_drag_drop (drag_widget "noname") = true /\
  result press = Ok tt /\
  children (morph (world_after press)) = [Node self []; Node (drag_other "noname") []] /\
  result first_move = Ok tt /\
  children (morph w) = [Node self []; Node (drag_other "noname") []] /\
  mouse_position w = (27, 5) /\
  drag_drop self = true /\
  position self = (0, 0) /\
  drag_position self = (5, 5) /\
  drag_candidate w None self = (22, 0) /\
  Exists (sibling_in_the_way collisionDetect w self (22, 0)) (children (morph w)) /\
  result move = Ok tt /\
  map (fun c => (position (data c), drag_position (data c), drag_drop (data c)))
    (children (morph (world_after move)))
  = [((22, 0), (27, 5), true); ((25, 0), (0, 0), false)].
Proof.
  intros Hc context press first_move w move self.
  assert (Hw : children (morph w) = [Node self []; Node (drag_other "noname") []])
    by reflexivity.
  split; [reflexivity|]. split; [reflexivity|]. split; [reflexivity|].
  split; [reflexivity|]. split; [exact Hw|]. split; [reflexivity|].
  split; [reflexivity|]. split; [reflexivity|]. split; [reflexivity|].
  split; [reflexivity|].
  split.
  - rewrite Hw. apply Exists_cons_tl. apply Exists_cons_hd.
    split; [simpl; discriminate|]. split; [reflexivity|]. exact Hc.
  - split; reflexivity.
Qed.

Lemma world_any (w w0 : World) (parent : Parent) :
  world w parent = Some w0 -> forall w', world w' parent = Some w'.
Proof.
  induction parent as [| |d p IH]; simpl; intros H w'.
  - discriminate H.
  - reflexivity.
  - exact (IH H w').
Qed.

Lemma consumed_event_set (b : bool) (w : World) :
  consumed_event (set_consumed_event b w) = b.
Proof. destruct w; reflexivity. Qed.

Lemma consumed_event_set_morph (m : Morph) (w : World) :
  consumed_event (set_morph m w) = consumed_event w.
Proof. destruct w; reflexivity. Qed.

(** ** Dispatch of pointer-button events *)

Section Dispatch.
Variable collisionDetect : Z -> Z -> Z -> Z -> Z -> Z -> Z -> Z -> bool.
Variable circle_contains : Z -> Z -> Z -> Z -> Z -> bool.

(** The loop does nothing when every dispatch does nothing. *)
Lemma dispatch_loop_idle (dispatch : World -> Morph -> Outcome Morph unit)
    (w : World) (l : list Morph) :
  Forall (fun c => dispatch w c = mkOutcome (Ok tt) c w []) l ->
  dispatch_loop dispatch w l = mkOutcome (Ok tt) l w [].
Proof.
  induction 1 as [|c l Hc Hl IH]; simpl; [reflexivity|].
  rewrite Hc. simpl. rewrite IH. reflexivity.
Qed.

Lemma on_event_consumed (w : World) (parent : Parent) (bpy_region : option Region)
    (self : Morph) (ev : Event) (context : Context) :
  world w parent = Some w ->
  consumed_event w = true ->
  on_event collisionDetect circle_contains w parent bpy_region self ev context
  = mkOutcome (Ok tt) self w [].
Proof.
  revert parent.
  induction self as [d cs IH] using Morph_ind; intros parent Hw Hc.
  cbn [on_event].
  rewrite dispatch_loop_idle.
  - cbn [result self_after world_after runs].
    rewrite Hw, Hc. simpl.
    destruct (handles_events d && negb (is_hidden d)); reflexivity.
  - apply Forall_forall. intros c Hin.
    rewrite Forall_forall in IH. apply (IH c Hin); [exact Hw|exact Hc].
Qed.



Lemma on_left_click_like : click_handler_like on_left_click.
Proof.
  intros w parent s. unfold on_left_click.
  destruct (on_left_click_action s); simpl.
  - repeat split; eauto.
  - destruct (negb (drag_drop s) && handles_drag_drop s);
      destruct (world w parent) eqn:E; simpl;
      (split; [reflexivity|]); (split; [eexists; repeat split|]);
      intros H; try discriminate H; eauto.
    all: destruct s; reflexivity.
Qed.

Lemma on_left_click_released_like : click_handler_like on_left_click_released.
Proof.
  intros w parent s. unfold on_left_click_released.
  destruct (on_left_click_released_action s); simpl.
  - repeat split; eauto.
  - destruct (world w parent) eqn:E; simpl;
      (split; [reflexivity|]); (split; [eexists; repeat split|]);
      intros H; try discriminate H; eauto.
Qed.

Lemma on_right_click_like : click_handler_like on_right_click.
Proof.
  intros w parent s. unfold on_right_click.
  destruct (on_right_click_action s); simpl.
  - repeat split; eauto.
  - destruct (world w parent) eqn:E; simpl;
      (split; [reflexivity|]); (split; [eexists; repeat split|]);
      intros H; try discriminate H; eauto.
Qed.

Lemma on_right_click_released_like : click_handler_like on_right_click_released.
Proof.
  intros w parent s. unfold on_right_click_released.
  destruct (on_right_click_released_action s); simpl.
  - repeat split; eauto.
  - destruct (world w parent) eqn:E; simpl;
      (split; [reflexivity|]); (split; [eexists; repeat split|]);
      intros H; try discriminate H; eauto.
Qed.


Lemma then_if_false (h : World -> Parent -> MorphData -> Outcome MorphData Returned)
    (parent : Parent) (o : Outcome MorphData unit) :
  then_if false h parent o = o.
Proof. unfold then_if. destruct (result o); reflexivity. Qed.

(** When the pointer is over a morph that handles mouse down, the event is
    marked consumed and at most one of the four handlers runs. *)
Lemma on_mouse_click_taken (w w0 : World) (parent : Parent) (d : MorphData) (ev : Event) :
  mouse_over_morph circle_contains w parent d = Ok true ->
  handles_mouse_down d = true ->
  world w parent = Some w0 ->
  let o0 := mkOutcome (Ok tt) d (set_consumed_event true w) [] in
  on_mouse_click circle_contains w parent d ev = o0 \/
  exists h, click_handler_like h /\
            on_mouse_click circle_contains w parent d ev = then_if true h parent o0.
Proof.
  intros Hover Hdown Hw o0. unfold on_mouse_click. rewrite Hover, Hdown, Hw.
  destruct (type ev), (value ev);
    cbn [is_LEFTMOUSE is_RIGHTMOUSE is_PRESS is_RELEASE andb];
    rewrite ?then_if_false;
    first [ left; reflexivity
          | right; eexists; split; [|reflexivity];
            first [ exact on_left_click_like | exact on_left_click_released_like
                  | exact on_right_click_like | exact on_right_click_released_like ] ].
Qed.

(** [on_mouse_click] runs at most one handler, a click handler of [self],
    and only with the event marked consumed. *)
Lemma on_mouse_click_runs (w : World) (parent : Parent) (d : MorphData) (ev : Event) :
  let o := on_mouse_click circle_contains w parent d ev in
  (List.length (runs o) <= 1)%nat /\
  (runs o <> [] -> consumed_event (world_after o) = true) /\
  Forall (fun r => who r = oid d /\ is_click_handler (handler r) = true) (runs o).
Proof.
  intros o. subst o.
  destruct (mouse_over_morph circle_contains w parent d) as [[|]|e] eqn:Hover;
    [destruct (handles_mouse_down d) eqn:Hdown;
     [destruct (world w parent) as [w0|] eqn:Hw|]|..].
  - destruct (on_mouse_click_taken w _ parent d ev Hover Hdown Hw) as [->|(h & Hh & ->)].
    + simpl. repeat split; [lia|intros H; contradiction|constructor].
    + unfold then_if. cbn [result self_after world_after runs app].
      destruct (Hh (set_consumed_event true w) parent d) as (Hwa & (r & Hr & Hwho & Hck) & _).
      rewrite Hwa, Hr. cbn [List.length].
      repeat split; [lia|intros _; apply consumed_event_set|].
      constructor; [split; assumption|constructor].
  - unfold on_mouse_click. rewrite Hover, Hdown, Hw. simpl.
    repeat split; [lia|intros H; contradiction|constructor].
  - unfold on_mouse_click. rewrite Hover, Hdown. simpl.
    repeat split; [lia|intros H; contradiction|constructor].
  - unfold on_mouse_click. rewrite Hover. simpl.
    repeat split; [lia|intros H; contradiction|constructor].
  - unfold on_mouse_click. rewrite Hover. simpl.
    repeat split; [lia|intros H; contradiction|constructor].
Qed.

(** Under a world, a taken click returns and leaves the event consumed. *)
Lemma on_mouse_click_taken_result (w : World) (parent : Parent) (d : MorphData) (ev : Event) :
  mouse_over_morph circle_contains w parent d = Ok true ->
  handles_mouse_down d = true ->
  world w parent = Some w ->
  let o := on_mouse_click circle_contains w parent d ev in
  result o = Ok tt /\ consumed_event (world_after o) = true.
Proof.
  intros Hover Hdown Hw o. subst o.
  destruct (on_mouse_click_taken w _ parent d ev Hover Hdown Hw) as [->|(h & Hh & ->)].
  - simpl. split; [reflexivity|apply consumed_event_set].
  - unfold then_if. cbn [result self_after world_after runs app].
    destruct (Hh (set_consumed_event true w) parent d) as (Hwa & _ & Hres).
    destruct (Hres (world_any w w parent Hw _)) as (v & Hv).
    rewrite Hwa, Hv. simpl. split; [reflexivity|apply consumed_event_set].
Qed.

(** A click that is not taken changes nothing. *)
Lemma on_mouse_click_not_taken (w : World) (parent : Parent) (d : MorphData) (ev : Event) :
  hit_test_returns circle_contains w (parent, d) ->
  match mouse_over_morph circle_contains w parent d with
  | Ok true => handles_mouse_down d
  | _ => false
  end = false ->
  on_mouse_click circle_contains w parent d ev = mkOutcome (Ok tt) d w [].
Proof.
  intros (b & Hb) H. simpl in Hb. unfold on_mouse_click. rewrite Hb in *.
  destruct b; [rewrite H|]; reflexivity.
Qed.




Lemma dispatch_loop_one_run (dispatch : World -> Morph -> Outcome Morph unit)
    (l : list Morph) :
  (forall w c, In c l -> consumed_event w = true ->
               dispatch w c = mkOutcome (Ok tt) c w []) ->
  (forall w c, In c l -> one_run (dispatch w c)) ->
  forall w, one_run (dispatch_loop dispatch w l).
Proof.
  induction l as [|c l IH]; intros Hidle Hone w.
  - split; simpl; [lia|reflexivity].
  - cbn [dispatch_loop].
    destruct (Hone w c (or_introl eq_refl)) as [Hlen Hnil].
    destruct (result (dispatch w c)) as [u|e]; [|split; assumption].
    destruct (consumed_event (world_after (dispatch w c))) eqn:Hc.
    + rewrite dispatch_loop_idle.
      * split; cbn [runs world_after]; [rewrite app_nil_r; exact Hlen|].
        intros H. rewrite H in Hc. discriminate Hc.
      * apply Forall_forall. intros c' Hin.
        apply Hidle; [right; exact Hin|exact Hc].
    + assert (IH' : one_run (dispatch_loop dispatch (world_after (dispatch w c)) l)).
      { apply IH.
        - intros w' c' Hin. apply Hidle. right. exact Hin.
        - intros w' c' Hin. apply Hone. right. exact Hin. }
      destruct IH' as [Hlen' Hnil'].
      split; cbn [runs world_after]; rewrite (Hnil eq_refl); simpl; assumption.
Qed.

Lemma on_event_one_run (w : World) (parent : Parent) (bpy_region : option Region)
    (self : Morph) (ev : Event) (context : Context) :
  is_button ev ->
  world w parent = Some w ->
  one_run (on_event collisionDetect circle_contains w parent bpy_region self ev context).
Proof.
  intros Hev. revert w parent.
  induction self as [d cs IH] using Morph_ind; intros w parent Hw.
  rewrite Forall_forall in IH.
  cbn [on_event].
  set (loop := dispatch_loop _ w cs).
  assert (Hloop : one_run loop).
  { apply dispatch_loop_one_run.
    - intros w' c Hin Hc. apply on_event_consumed; [|exact Hc].
      simpl. exact (world_any w w parent Hw w').
    - intros w' c Hin. apply (IH c Hin). simpl. exact (world_any w w parent Hw w'). }
  destruct Hloop as [Hlen Hnil].
  destruct (result loop) as [u|e]; [|kept].
  destruct (handles_events d && negb (is_hidden d)); [|kept].
  rewrite (world_any w w parent Hw (world_after loop)).
  destruct (consumed_event (world_after loop)) eqn:Hc; cbn [negb];
    [kept|].
  destruct (on_mouse_click_runs (world_after loop) parent d ev) as (Hl1 & Hcons & _).
  assert (Hclick : one_run
            (mkOutcome (result (on_mouse_click circle_contains (world_after loop) parent d ev))
               (Node (self_after (on_mouse_click circle_contains (world_after loop) parent d ev))
                  (self_after loop))
               (world_after (on_mouse_click circle_contains (world_after loop) parent d ev))
               (runs loop ++ runs (on_mouse_click circle_contains (world_after loop) parent d ev)))).
  { rewrite (Hnil eq_refl). split; cbn [runs world_after app]; [exact Hl1|].
    intros Hf.
    destruct (runs (on_mouse_click circle_contains (world_after loop) parent d ev));
      [reflexivity|].
    rewrite Hcons in Hf; [discriminate Hf|discriminate]. }
  destruct Hev as [Hev|Hev]; rewrite Hev; exact Hclick.
Qed.

Lemma World_dispatch_consumed (bpy_region : option Region) (ev : Event) (context : Context)
    (todo : list Morph) :
  forall (done : list Morph) (w : World),
    consumed_event w = true ->
    let o := World_dispatch collisionDetect circle_contains w bpy_region done todo ev context in
    result o = Ok tt /\ runs o = [] /\ consumed_event (world_after o) = true.
Proof.
  induction todo as [|c todo IH]; intros done w Hc; cbn [World_dispatch].
  - repeat split. exact Hc.
  - rewrite on_event_consumed by (reflexivity || exact Hc).
    cbn [result self_after world_after runs app].
    apply IH. rewrite consumed_event_set_morph. exact Hc.
Qed.

Lemma World_dispatch_one_run (bpy_region : option Region) (ev : Event) (context : Context)
    (todo : list Morph) :
  is_button ev ->
  forall (done : list Morph) (w : World),
    one_run (World_dispatch collisionDetect circle_contains w bpy_region done todo ev context).
Proof.
  intros Hev.
  induction todo as [|c todo IH]; intros done w; cbn [World_dispatch].
  - split; simpl; [lia|reflexivity].
  - destruct (on_event_one_run w ParentWorld bpy_region c ev context Hev eq_refl)
      as [Hlen Hnil].
    set (o := on_event collisionDetect circle_contains w ParentWorld bpy_region c ev context) in *.
    set (w1 := set_morph _ (world_after o)).
    assert (Hw1 : consumed_event w1 = consumed_event (world_after o))
      by apply consumed_event_set_morph.
    destruct (result o) as [u|e].
    + destruct (consumed_event w1) eqn:Hc.
      * destruct (World_dispatch_consumed bpy_region ev context todo (done ++ [self_after o]) w1 Hc)
          as (_ & Hr & Hcc).
        split; cbn [runs world_after]; [rewrite Hr, app_nil_r; exact Hlen|].
        intros H. rewrite H in Hcc. discriminate Hcc.
      * destruct (IH (done ++ [self_after o]) w1) as [Hlen' Hnil'].
        split; cbn [runs world_after]; rewrite (Hnil (eq_sym Hw1)); simpl; assumption.
    + split; cbn [runs world_after]; [exact Hlen|].
      intros H. apply Hnil. rewrite <- Hw1. exact H.
Qed.


Lemma find_app_first (A : Type) (p : A -> bool) (l1 l2 : list A) :
  find p (l1 ++ l2)
  = match find p l1 with Some x => Some x | None => find p l2 end.
Proof.
  induction l1 as [|a l1 IH]; simpl; [reflexivity|].
  destruct (p a); [reflexivity|exact IH].
Qed.


(** In [postorder] a morph comes after all of its descendants: the first
    morph of a subtree that satisfies [p] is the root of the subtree only
    when no descendant satisfies [p]. *)
Lemma postorder_descendants_first (p : Parent * MorphData -> bool) (parent : Parent)
    (d : MorphData) (cs : list Morph) :
  find p (postorder parent (Node d cs))
  = match find p (flat_map (postorder (ParentMorph d parent)) cs) with
    | Some pd => Some pd
    | None => if p (parent, d) then Some (parent, d) else None
    end.
Proof. cbn [postorder]. rewrite find_app_first. reflexivity. Qed.

Lemma dispatch_loop_first_taker (dispatch : World -> Morph -> Outcome Morph unit)
    (parent : Parent) (ev : Event) (w : World) (l : list Morph) :
  (forall w' c, In c l -> consumed_event w' = true ->
                dispatch w' c = mkOutcome (Ok tt) c w' []) ->
  (forall c, In c l ->
             Forall (hit_test_returns circle_contains w) (postorder parent c) ->
             first_taker circle_contains w ev (postorder parent c) (dispatch w c)
               (mkOutcome (Ok tt) c w [])) ->
  Forall (hit_test_returns circle_contains w) (flat_map (postorder parent) l) ->
  first_taker circle_contains w ev (flat_map (postorder parent) l) (dispatch_loop dispatch w l)
    (mkOutcome (Ok tt) l w []).
Proof.
  induction l as [|c l IH]; intros Hidle Hfirst Hret.
  - split; reflexivity.
  - cbn [flat_map] in Hret |- *. apply Forall_app in Hret. destruct Hret as [Hc Hl].
    destruct (Hfirst c (or_introl eq_refl) Hc) as [Hres Hfind].
    unfold first_taker. rewrite find_app_first. cbn [dispatch_loop]. rewrite Hres.
    destruct (find (takes_click circle_contains w) (postorder parent c)) as [pd|].
    + destruct Hfind as [Hruns Hcons].
      rewrite dispatch_loop_idle.
      * cbn [result runs world_after]. rewrite app_nil_r. repeat split; assumption.
      * apply Forall_forall. intros c' Hin. apply Hidle; [right; exact Hin|exact Hcons].
    + rewrite Hfind. cbn [result runs world_after self_after app].
      assert (IH' : first_taker circle_contains w ev (flat_map (postorder parent) l)
                      (dispatch_loop dispatch w l) (mkOutcome (Ok tt) l w [])).
      { apply IH; [| |exact Hl].
        - intros w' c' Hin. apply Hidle. right. exact Hin.
        - intros c' Hin. apply Hfirst. right. exact Hin. }
      destruct IH' as [Hres' Hfind']. split; [exact Hres'|].
      destruct (find (takes_click circle_contains w) (flat_map (postorder parent) l)).
      * exact Hfind'.
      * rewrite Hfind'. reflexivity.
Qed.

Lemma on_event_first_taker (bpy_region : option Region) (ev : Event) (context : Context)
    (self : Morph) :
  is_button ev ->
  forall (w : World) (parent : Parent),
    world w parent = Some w ->
    consumed_event w = false ->
    Forall (hit_test_returns circle_contains w) (postorder parent self) ->
    first_taker circle_contains w ev (postorder parent self)
      (on_event collisionDetect circle_contains w parent bpy_region self ev context)
      (mkOutcome (Ok tt) self w []).
Proof.
  intros Hev.
  induction self as [d cs IH] using Morph_ind; intros w parent Hw Hc Hret.
  rewrite Forall_forall in IH.
  cbn [postorder] in Hret |- *. apply Forall_app in Hret. destruct Hret as [Hcs Hd].
  apply Forall_inv in Hd.
  cbn [on_event].
  set (loop := dispatch_loop _ w cs).
  assert (Hloop : first_taker circle_contains w ev (flat_map (postorder (ParentMorph d parent)) cs) loop
                    (mkOutcome (Ok tt) cs w [])).
  { apply dispatch_loop_first_taker; [| |exact Hcs].
    - intros w' c Hin Hc'. apply on_event_consumed; [|exact Hc'].
      simpl. exact (world_any w w parent Hw w').
    - intros c Hin Hc'. apply (IH c Hin); [exact Hw|exact Hc|exact Hc']. }
  destruct Hloop as [Hres Hfind].
  unfold first_taker. rewrite find_app_first. rewrite Hres.
  destruct (find (takes_click circle_contains w) (flat_map (postorder (ParentMorph d parent)) cs))
    as [pd|].
  - destruct Hfind as [Hruns Hcons].
    rewrite (world_any w w parent Hw (world_after loop)), Hcons. cbn [negb].
    destruct (handles_events d && negb (is_hidden d));
      cbn [result runs world_after]; repeat split; assumption.
  - rewrite Hfind. cbn [result runs world_after self_after app find].
    unfold takes_click. cbn [fst snd].
    rewrite Hw, Hc. cbn [negb].
    destruct (handles_events d && negb (is_hidden d)) eqn:Hh; cbn [andb].
    + assert (Hty : match type ev with
                    | LEFTMOUSE | RIGHTMOUSE => True
                    | _ => False
                    end) by (destruct Hev as [-> | ->]; exact I).
      destruct (match mouse_over_morph circle_contains w parent d with
                | Ok true => handles_mouse_down d
                | _ => false
                end) eqn:Htakes.
      * assert (Hover : mouse_over_morph circle_contains w parent d = Ok true
                        /\ handles_mouse_down d = true).
        { destruct (mouse_over_morph circle_contains w parent d) as [[|]|];
            try discriminate Htakes. split; [reflexivity|exact Htakes]. }
        destruct Hover as [Hover Hdown].
        destruct (on_mouse_click_taken_result w parent d ev Hover Hdown Hw) as [Hr Hcn].
        destruct (type ev); try contradiction;
          cbn [result runs world_after]; repeat split; assumption.
      * rewrite (on_mouse_click_not_taken w parent d ev Hd Htakes).
        destruct (type ev); try contradiction; split; reflexivity.
    + split; reflexivity.
Qed.

Lemma set_morph_same (w : World) (l : list Morph) :
  children (morph w) = l ->
  set_morph (Node (data (morph w)) l) w = w.
Proof.
  intros <-. destruct w as [m ce mo mp mpa mci wp ww wh ev da dap daw dah ah].
  destruct m; reflexivity.
Qed.

Lemma World_dispatch_first_taker (bpy_region : option Region) (ev : Event)
    (context : Context) (w : World) (todo : list Morph) :
  is_button ev ->
  consumed_event w = false ->
  forall done : list Morph,
    children (morph w) = done ++ todo ->
    Forall (hit_test_returns circle_contains w) (flat_map (postorder ParentWorld) todo) ->
    first_taker circle_contains w ev (flat_map (postorder ParentWorld) todo)
      (World_dispatch collisionDetect circle_contains w bpy_region done todo ev context)
      (mkOutcome (Ok tt) tt w []).
Proof.
  intros Hev Hc.
  induction todo as [|c todo IH]; intros done Hch Hret.
  - split; reflexivity.
  - cbn [flat_map] in Hret |- *. apply Forall_app in Hret. destruct Hret as [Hrc Hrl].
    destruct (on_event_first_taker bpy_region ev context c Hev w ParentWorld eq_refl Hc Hrc)
      as [Hres Hfind].
    unfold first_taker. rewrite find_app_first. cbn [World_dispatch]. rewrite Hres.
    destruct (find (takes_click circle_contains w) (postorder ParentWorld c)) as [pd|].
    + destruct Hfind as [Hruns Hcons].
      match goal with
      | |- context [World_dispatch _ _ ?w1 _ ?dn _ _ _] =>
          destruct (World_dispatch_consumed bpy_region ev context todo dn w1) as (Hr & Hn & Hk)
      end.
      { rewrite consumed_event_set_morph. exact Hcons. }
      cbn [result runs world_after]. rewrite Hr, Hn, app_nil_r.
      repeat split; assumption.
    + rewrite Hfind. cbn [result runs world_after self_after app].
      rewrite (set_morph_same w (done ++ c :: todo) Hch).
      assert (Hch' : children (morph w) = (done ++ [c]) ++ todo).
      { rewrite <- app_assoc. exact Hch. }
      destruct (IH (done ++ [c]) Hch' Hrl) as [Hres' Hfind'].
      split; [exact Hres'|].
      destruct (find (takes_click circle_contains w) (flat_map (postorder ParentWorld) todo)).
      * exact Hfind'.
      * rewrite Hfind'. reflexivity.
Qed.

(** C2: dispatch of a pointer-button event.
    - Once the event is consumed, [on_event] of any morph under the world
      runs no handler and changes nothing.
    - One [World.on_event] runs at most one handler, on one morph, and only
      with the event consumed.
    - When every hit-test returns, the morph whose handler runs is the
      first one that takes the click (it handles events, is not hidden, is
      under the pointer and handles mouse down) in [postorder], where the
      descendants of a morph come before the morph: the deepest taker
      wins, and the handlers of its ancestors do not run. *)
Theorem click_dispatch_first_consumer :
  (forall (w : World) (parent : Parent) (bpy_region : option Region)
          (self : Morph) (ev : Event) (context : Context),
      world w parent = Some w ->
      consumed_event w = true ->
      on_event collisionDetect circle_contains w parent bpy_region self ev context
      = mkOutcome (Ok tt) self w []) /\
  (forall (self : World) (bpy_region : option Region) (ev : Event) (context : Context),
      is_button ev ->
      let out := World_on_event collisionDetect circle_contains self bpy_region ev context in
      (List.length (runs out) <= 1)%nat /\
      (runs out <> [] -> consumed_event (world_after out) = true)) /\
  (forall (self : World) (bpy_region : option Region) (ev : Event) (context : Context)
          (r : Region),
      is_button ev ->
      region context = Some r ->
      let w := World_frame self r ev in
      let order := flat_map (postorder ParentWorld) (children (morph w)) in
      let out := World_on_event collisionDetect circle_contains self bpy_region ev context in
      Forall (hit_test_returns circle_contains w) order ->
      result out = Ok tt /\
      match find (takes_click circle_contains w) order with
      | None => runs out = [] /\ consumed_event (world_after out) = false
      | Some pd =>
          runs out = runs (on_mouse_click circle_contains w (fst pd) (snd pd) ev) /\
          Forall (fun run => who run = oid (snd pd) /\ is_click_handler (handler run) = true)
            (runs out) /\
          consumed_event (world_after out) = true
      end).
Proof.
  split; [|split].
  - intros w parent bpy_region self ev context Hw Hc.
    exact (on_event_consumed w parent bpy_region self ev context Hw Hc).
  - intros self bpy_region ev context Hev out. subst out.
    unfold World_on_event.
    destruct (region context) as [r|].
    + destruct (World_dispatch_one_run bpy_region ev context
                  (children (morph (World_frame self r ev))) Hev []
                  (World_frame self r ev)) as [Hlen Hnil].
      split; [exact Hlen|].
      intros Hne.
      match goal with
      | |- consumed_event ?wa = true => destruct (consumed_event wa) eqn:Hc
      end; [reflexivity|].
      exfalso. apply Hne. apply Hnil. reflexivity.
    + simpl. split; [lia|]. intros H. contradiction.
  - intros self bpy_region ev context r Hev Hr w order out Hret. subst out.
    unfold World_on_event. rewrite Hr. fold w.
    assert (Hc : consumed_event w = false).
    { subst w. unfold World_frame. apply consumed_event_set. }
    destruct (World_dispatch_first_taker bpy_region ev context w (children (morph w))
                Hev Hc [] eq_refl Hret) as [Hres Hfind].
    split; [exact Hres|].
    fold order in Hfind.
    destruct (find (takes_click circle_contains w) order) as [pd|].
    + destruct Hfind as [Hruns Hcons].
      split; [exact Hruns|]. split; [|exact Hcons].
      rewrite Hruns.
      exact (proj2 (proj2 (on_mouse_click_runs w (fst pd) (snd pd) ev))).
    + rewrite Hfind. split; [reflexivity|exact Hc].
Qed.

End Dispatch.

(** * Witnesses *)

Lemma set_width_checked_witness :
  (exists msg,
     set_width (new_world 1 []) NoParent (-5) (new_morph 2 "m" (0, 0) 40 30 2)
     = (Raise (ValueError msg), new_morph 2 "m" (0, 0) 40 30 2)) /\
  real_width (snd (set_width (new_world 1 []) NoParent 7 (new_morph 2 "m" (0, 0) 40 30 2))) = 7 /\
  _width (snd (set_width (new_world 1 []) NoParent 7 (new_morph 2 "m" (0, 0) 40 30 2))) = 14.
Proof.
  pose proof (set_width_checked (new_world 1 []) NoParent (new_morph 2 "m" (0, 0) 40 30 2) (-5))
    as [Hneg _].
  pose proof (set_width_checked (new_world 1 []) NoParent (new_morph 2 "m" (0, 0) 40 30 2) 7)
    as [_ Hpos].
  split.
  - destruct (Hneg ltac:(lia)) as (msg & H & _). exists msg. exact H.
  - destruct (Hpos ltac:(lia)) as (_ & H1 & _ & H2). split; [exact H1|exact H2].
Defined.

Lemma World_init_auto_hide_witness :
  exists w, World_init no_images 1 true false default_kargs = Ok w /\ auto_hide w = true.
Proof.
  eexists. split; [reflexivity|].
  apply (proj2 (World_init_auto_hide no_images 1 true false default_kargs)).
  reflexivity.
Defined.

Lemma World_on_event_no_region_witness :
  world_after
    (World_on_event aabb_collision exact_circle_contains
       (set_consumed_event true (new_world 1 [nested_root])) None
       (mkEvent LEFTMOUSE PRESS 3 4) (mkContext None))
  = set_consumed_event true (new_world 1 [nested_root]).
Proof.
  apply (World_on_event_no_region aabb_collision exact_circle_contains
           (set_consumed_event true (new_world 1 [nested_root])) None
           (mkEvent LEFTMOUSE PRESS 3 4) (mkContext None)).
  reflexivity.
Defined.

Lemma drag_moves_onto_namesake_witness :
  map (fun c => (position (data c), drag_position (data c), drag_drop (data c)))
    (children (morph (world_after
       (World_on_event aabb_collision exact_circle_contains
          (draw_mouse_position
             (world_after
                (World_on_event aabb_collision exact_circle_contains
                   (world_after
                      (World_on_event aabb_collision exact_circle_contains
                         (drag_start "noname" "noname") None (mkEvent LEFTMOUSE PRESS 5 5)
                         (mkContext (Some (mkRegion 0 0 300 300)))))
                   None (mkEvent MOUSEMOVE OTHER_VALUE 27 5)
                   (mkContext (Some (mkRegion 0 0 300 300))))))
          None (mkEvent MOUSEMOVE OTHER_VALUE 27 5)
          (mkContext (Some (mkRegion 0 0 300 300)))))))
  = [((22, 0), (27, 5), true); ((25, 0), (0, 0), false)].
Proof.
  destruct (drag_moves_onto_namesake aabb_collision exact_circle_contains eq_refl)
    as (_ & _ & _ & _ & _ & _ & _ & _ & _ & _ & _ & _ & H).
  exact H.
Defined.

Lemma click_dispatch_first_consumer_witness :
  runs
    (World_on_event aabb_collision exact_circle_contains click_world None
       (mkEvent LEFTMOUSE PRESS 7 7) (mkContext (Some (mkRegion 0 0 300 300))))
  = [mkRun 3 m_on_left_click None].
Proof.
  pose proof (proj2 (proj2 (click_dispatch_first_consumer aabb_collision exact_circle_contains))
                click_world None (mkEvent LEFTMOUSE PRESS 7 7)
                (mkContext (Some (mkRegion 0 0 300 300))) (mkRegion 0 0 300 300)
                (or_introl eq_refl) eq_refl) as H.
  cbv zeta in H.
  assert (Hret : Forall
            (hit_test_returns exact_circle_contains
               (World_frame click_world (mkRegion 0 0 300 300) (mkEvent LEFTMOUSE PRESS 7 7)))
            (flat_map (postorder ParentWorld)
               (children (morph (World_frame click_world (mkRegion 0 0 300 300)
                                   (mkEvent LEFTMOUSE PRESS 7 7)))))).
  { repeat constructor; eexists; reflexivity. }
  destruct (H Hret) as (_ & Hfind).
  exact (proj1 Hfind).
Defined.

(** * Further properties *)

(** ** Lookup among the children *)

(** X1: [get_child_morph_named] returns the first immediate child of that
    name: the children before it bear other names; it returns [None]
    exactly when no immediate child bears the name, whatever the
    descendants further down are called. *)
Theorem get_child_morph_named_first_child (n : string) (m : Morph) :
  match get_child_morph_named n m with
  | Some c =>
      exists before after,
        children m = before ++ c :: after /\
        name (data c) = n /\
        Forall (fun c' => name (data c') <> n) before
  | None => Forall (fun c' => name (data c') <> n) (children m)
  end.
Proof.
  rewrite get_child_morph_named_children.
  induction (children m) as [|c l IH]; simpl; [constructor|].
  destruct (String.eqb_spec (name (data c)) n) as [E|E].
  - exists [], l. repeat split; [exact E|constructor].
  - destruct (find (fun child => String.eqb (name (data child)) n) l) as [c'|].
    + destruct IH as (before & after & Hl & Hn & Hb).
      exists (c :: before), after. rewrite Hl.
      repeat split; [exact Hn|constructor; assumption].
    + constructor; assumption.
Qed.

Lemma index_loop_find (n : string) (l : list Morph) (k : nat) :
  match index_loop n l k with
  | Some i =>
      (k <= i)%nat /\ (i - k < List.length l)%nat /\
      nth_error l (i - k) = find (fun child => String.eqb (name (data child)) n) l
  | None => find (fun child => String.eqb (name (data child)) n) l = None
  end.
Proof.
  revert k. induction l as [|c l IH]; intros k; simpl; [reflexivity|].
  destruct (String.eqb (name (data c)) n).
  - rewrite Nat.sub_diag. simpl. repeat split; lia.
  - specialize (IH (k + 1)%nat).
    destruct (index_loop n l (k + 1)) as [i|]; [|exact IH].
    destruct IH as (Hk & Hlen & Hnth).
    replace (i - k)%nat with (S (i - (k + 1))) by lia.
    simpl. repeat split; [lia|lia|exact Hnth].
Qed.

(** X2: [get_child_morph_named_index] and [get_child_morph_named] agree:
    the index returned lies within [children] and the child at that index
    is the morph the lookup by name returns; the one returns [None] exactly
    when the other does. *)
Theorem get_child_morph_named_index_agrees (n : string) (m : Morph) :
  match get_child_morph_named_index n m with
  | Some i =>
      (i < List.length (children m))%nat /\
      get_child_morph_named n m <> None /\
      nth_error (children m) i = get_child_morph_named n m
  | None => get_child_morph_named n m = None
  end.
Proof.
  rewrite get_child_morph_named_children. unfold get_child_morph_named_index.
  pose proof (index_loop_find n (children m) 0) as H.
  destruct (index_loop n (children m) 0) as [i|]; [|exact H].
  rewrite Nat.sub_0_r in H. destruct H as (_ & Hlen & Hnth).
  repeat split; [exact Hlen| |exact Hnth].
  rewrite <- Hnth. apply nth_error_Some. exact Hlen.
Qed.

(** ** Geometry setters *)

Lemma get_absolute_scale_fields (w : World) (parent : Parent) (d d' : MorphData) :
  scale d = scale d' ->
  get_absolute_scale w parent d = get_absolute_scale w parent d'.
Proof. intros H. destruct parent; simpl; rewrite H; reflexivity. Qed.

(** X3: the [height] setter called with [v < 0] raises [ValueError] and
    leaves the morph as it was; called with [v >= 0] it stores [v] and [v]
    times the absolute scale and leaves the width and [bounds] as they
    were.  What the two readers then do depends on the product of [v] and
    the absolute scale: when it is not negative (as for [v = 0] under any
    scale) [height] returns [v] and [height_scaled] the product; when it
    is negative ([v > 0] under a negative absolute scale) both raise
    [ValueError]. *)
Theorem set_height_checked (w : World) (parent : Parent) (self : MorphData) (v : Z) :
  (v < 0 ->
   set_height w parent v self
   = (Raise (ValueError "new value for width must be a positive number"), self)) /\
  (0 <= v ->
   let self' := snd (set_height w parent v self) in
   fst (set_height w parent v self) = Ok tt /\
   real_height self' = v /\
   _height self' = v * get_absolute_scale w parent self /\
   real_width self' = real_width self /\
   bounds self' = bounds self /\
   (0 <= v * get_absolute_scale w parent self ->
    height self' = Ok v /\ height_scaled self' = Ok (v * get_absolute_scale w parent self)) /\
   (v * get_absolute_scale w parent self < 0 ->
    height self' = Raise (ValueError "height must not be a negative value ") /\
    height_scaled self' = Raise (ValueError "height must not be a negative value "))).
Proof.
  unfold set_height. split; intros Hv.
  - apply Z.ltb_lt in Hv. rewrite Hv. reflexivity.
  - destruct (Z.ltb_spec v 0) as [?|_]; [lia|]. cbn [fst snd].
    set (a := get_absolute_scale w parent self).
    assert (Hh : _height (set__height (v * a) (set_real_height v self)) = v * a)
      by (destruct self; reflexivity).
    assert (Hr : real_height (set__height (v * a) (set_real_height v self)) = v)
      by (destruct self; reflexivity).
    split; [reflexivity|]. split; [exact Hr|]. split; [exact Hh|].
    split; [destruct self; reflexivity|]. split; [destruct self; reflexivity|].
    unfold height, height_scaled. rewrite Hh, Hr.
    split; intros H.
    + destruct (Z.ltb_spec (v * a) 0) as [?|_]; [lia|]. split; reflexivity.
    + destruct (Z.ltb_spec (v * a) 0) as [_|?]; [|lia]. split; reflexivity.
Qed.

(** X4: the [position] setter stores the value, and the cached [_position]
    it leaves is the scaled position, [position_scaled]; it changes no
    other attribute ([bounds] included), and assigning the same value
    again changes nothing. *)
Theorem set_position_coherent (w : World) (parent : Parent) (self : MorphData) (v : Point) :
  let self' := set_position w parent v self in
  position self' = v /\
  _position self' = position_scaled w parent self' /\
  _position self'
  = (fst v * get_absolute_scale w parent self, snd v * get_absolute_scale w parent self) /\
  bounds self' = bounds self /\
  set__position (0, 0) (set_real_position (0, 0) self')
  = set__position (0, 0) (set_real_position (0, 0) self) /\
  set_position w parent v self' = self'.
Proof.
  intros self'. subst self'. unfold set_position, position_scaled, position.
  assert (Hs : forall p, get_absolute_scale w parent (set_real_position p self)
                         = get_absolute_scale w parent self).
  { intros p. apply get_absolute_scale_fields. destruct self; reflexivity. }
  assert (Hs' : forall p q, get_absolute_scale w parent
                              (set__position q (set_real_position p self))
                            = get_absolute_scale w parent self).
  { intros p q. apply get_absolute_scale_fields. destruct self; reflexivity. }
  rewrite Hs.
  assert (Hs'' : forall p q r, get_absolute_scale w parent
                   (set_real_position r (set__position q (set_real_position p self)))
                 = get_absolute_scale w parent self).
  { intros p q r. apply get_absolute_scale_fields. destruct self; reflexivity. }
  rewrite Hs', Hs''.
  destruct self; simpl. repeat split.
Qed.

(** ** The hit-test *)

(** X5: the outcomes of [mouse_over_morph] on a rectangle.  It raises
    [ValueError] when the unscaled width is negative, or else when the
    scaled height is; otherwise it raises [AttributeError] when the morph
    has no world; otherwise it returns whether the pointer lies strictly
    inside the box from the absolute position to the absolute position
    plus the unscaled [width] and [height]. *)
Theorem mouse_over_morph_cases (circle_contains : Z -> Z -> Z -> Z -> Z -> bool)
    (w : World) (parent : Parent) (self : MorphData) :
  circle self = false ->
  (real_width self < 0 ->
   mouse_over_morph circle_contains w parent self
   = Raise (ValueError "width must not be a negative value")) /\
  (0 <= real_width self -> _height self < 0 ->
   mouse_over_morph circle_contains w parent self
   = Raise (ValueError "height must not be a negative value ")) /\
  (0 <= real_width self -> 0 <= _height self -> world w parent = None ->
   mouse_over_morph circle_contains w parent self = Raise no_world) /\
  (0 <= real_width self -> 0 <= _height self -> world w parent = Some w ->
   exists b,
     mouse_over_morph circle_contains w parent self = Ok b /\
     (b = true <->
      strictly_inside (fst (mouse_position_absolute w)) (snd (mouse_position_absolute w))
        (fst (get_absolute_position w parent self))
        (snd (get_absolute_position w parent self))
        (real_width self) (real_height self))).
Proof.
  intros Hc.
  split; [|split; [|split]]; [| | |intros H1 H2 Hw;
    exact (mouse_over_morph_rectangle circle_contains w parent self Hc Hw H1 H2)];
    unfold mouse_over_morph, width, height; rewrite Hc.
  - intros H. apply Z.ltb_lt in H. rewrite H. reflexivity.
  - intros H1 H2.
    destruct (Z.ltb_spec (real_width self) 0) as [?|_]; [lia|].
    apply Z.ltb_lt in H2. rewrite H2. reflexivity.
  - intros H1 H2 Hw.
    destruct (Z.ltb_spec (real_width self) 0) as [?|_]; [lia|].
    destruct (Z.ltb_spec (_height self) 0) as [?|_]; [lia|].
    simpl. rewrite Hw. reflexivity.
Qed.

(** ** Attaching several children *)

Lemma box_contains_refl (b : Box) : box_contains b b.
Proof. unfold box_contains; lia. Qed.

Lemma box_contains_trans (a b c : Box) :
  box_contains a b -> box_contains b c -> box_contains a c.
Proof. unfold box_contains; lia. Qed.

Lemma add_morph_contains (p c : Morph) :
  box_contains (bounds (data (add_morph p c))) (bounds (data p)) /\
  box_contains (bounds (data (add_morph p c))) (bounds (data c)).
Proof.
  rewrite add_morph_bounds, grow_bounds_min_max.
  destruct (min_max_contains (bounds (data p)) (bounds (data c))) as [H1 H2].
  split; assumption.
Qed.

(** X6: attaching the morphs of a list one after the other appends them to
    [children] in that order, changes no attribute of the parent but
    [bounds], and leaves [bounds] covering the box it was and the box of
    every morph attached. *)
Theorem add_morph_all (cs : list Morph) (p : Morph) :
  let after := fold_left add_morph cs p in
  children after = children p ++ cs /\
  set_bounds (mkBox 0 0 0 0) (data after) = set_bounds (mkBox 0 0 0 0) (data p) /\
  box_contains (bounds (data after)) (bounds (data p)) /\
  Forall (fun c => box_contains (bounds (data after)) (bounds (data c))) cs.
Proof.
  revert p. induction cs as [|c cs IH]; intros p; cbn [fold_left].
  - rewrite app_nil_r.
    split; [reflexivity|]. split; [reflexivity|].
    split; [apply box_contains_refl|constructor].
  - destruct (IH (add_morph p c)) as (Hch & Hd & Hb & Hall).
    destruct (add_morph_contains p c) as [Hp Hc].
    split; [|split; [|split]].
    + rewrite Hch. destruct p as [d l]. simpl. rewrite <- app_assoc. reflexivity.
    + rewrite Hd. destruct p as [d l]. destruct d. reflexivity.
    + exact (box_contains_trans _ _ _ Hb Hp).
    + constructor; [exact (box_contains_trans _ _ _ Hb Hc)|exact Hall].
Qed.

(** ** Leaving the drag state *)

Lemma disable_all_drag_drop_Node (d : MorphData) (cs : list Morph) :
  disable_all_drag_drop (Node d cs)
  = Node d (map (fun child => Node (set_drag_drop false (data child))
                                (children (disable_all_drag_drop child))) cs).
Proof. reflexivity. Qed.

Lemma drag_drop_set (b : bool) (d : MorphData) : drag_drop (set_drag_drop b d) = b.
Proof. destruct d; reflexivity. Qed.

Lemma set_drag_drop_twice (b b' : bool) (d : MorphData) :
  set_drag_drop b (set_drag_drop b' d) = set_drag_drop b d.
Proof. destruct d; reflexivity. Qed.

(** X7: after [disable_all_drag_drop(morph)] no morph below [morph] is in
    drag state; [morph] itself keeps its attributes, drag state included;
    and nothing but [drag_drop] changes in the tree. *)
Theorem disable_all_drag_drop_clears (m : Morph) :
  Forall (fun c => drag_drop (data c) = false) (descendants (disable_all_drag_drop m)) /\
  data (disable_all_drag_drop m) = data m /\
  map_tree (set_drag_drop false) (disable_all_drag_drop m)
  = map_tree (set_drag_drop false) m.
Proof.
  induction m as [d cs IH] using Morph_ind.
  rewrite disable_all_drag_drop_Node.
  split; [|split; [reflexivity|]].
  - apply Forall_forall. intros e He.
    apply descendants_Node in He. destruct He as (c' & Hc' & He).
    apply in_map_iff in Hc'. destruct Hc' as (c & <- & Hc).
    rewrite Forall_forall in IH. destruct (IH c Hc) as (Hall & _ & _).
    destruct He as [->|He]; [apply drag_drop_set|].
    rewrite Forall_forall in Hall. apply Hall.
    destruct (disable_all_drag_drop c) as [dc ccs]. exact He.
  - cbn [map_tree]. f_equal. rewrite map_map.
    apply map_ext_in. intros c Hc.
    rewrite Forall_forall in IH. destruct (IH c Hc) as (_ & Hd & Hm).
    destruct c as [dc ccs]. rewrite disable_all_drag_drop_Node in *.
    cbn [map_tree data children] in *. rewrite set_drag_drop_twice.
    injection Hm as Hm. rewrite Hm. reflexivity.
Qed.

(** ** Hiding and showing *)

Lemma child_after_fixed (b : bool) (c : Morph) :
  hidden_is b c -> child_after b c = c.
Proof.
  unfold hidden_is, child_after. intros H. rewrite H, Bool.eqb_reflx. reflexivity.
Qed.

Lemma set__is_hidden_twice (b b' : bool) (d : MorphData) :
  set__is_hidden b (set__is_hidden b' d) = set__is_hidden b d.
Proof. destruct d; reflexivity. Qed.

(** X8: assigning [is_hidden] the same value twice is the same as assigning
    it once. *)
Theorem set_is_hidden_idempotent (b : bool) (m : Morph) :
  set_is_hidden b (set_is_hidden b m) = set_is_hidden b m.
Proof.
  destruct m as [d cs]. rewrite !set_is_hidden_Node.
  rewrite set__is_hidden_twice. f_equal.
  rewrite map_map. apply map_ext. intros c.
  apply child_after_fixed. apply child_after_data.
Qed.

Lemma map_tree_fixed (f : MorphData -> MorphData) (m : Morph) :
  (forall e, e = m \/ In e (descendants m) -> f (data e) = data e) ->
  map_tree f m = m.
Proof.
  induction m as [d cs IH] using Morph_ind. intros H. cbn [map_tree]. f_equal.
  - exact (H (Node d cs) (or_introl eq_refl)).
  - rewrite <- (map_id cs) at 2. apply map_ext_in. intros c Hc.
    rewrite Forall_forall in IH. apply (IH c Hc).
    intros e He. apply H. right. apply descendants_Node.
    exists c. split; [exact Hc|].
    destruct He as [->|He]; [left; reflexivity|right; exact He].
Qed.

Lemma set__is_hidden_same (b : bool) (d : MorphData) :
  is_hidden d = b -> set__is_hidden b d = d.
Proof. destruct d; simpl. intros ->. reflexivity. Qed.

Lemma set_is_hidden_on_uniform (b0 b : bool) (m : Morph) :
  uniform b0 m -> set_is_hidden b m = map_tree (set__is_hidden b) m.
Proof.
  induction m as [d cs IH] using Morph_ind. intros [Hd Hall].
  rewrite set_is_hidden_Node. cbn [map_tree]. f_equal.
  apply map_ext_in. intros c Hc.
  rewrite Forall_forall in IH, Hall.
  assert (Hu : uniform b0 c).
  { split.
    - apply Hall. apply descendants_Node. exists c. split; [exact Hc|left; reflexivity].
    - apply Forall_forall. intros e He. apply Hall.
      apply descendants_Node. exists c. split; [exact Hc|right; exact He]. }
  unfold child_after.
  destruct (Bool.eqb (is_hidden (data c)) b) eqn:E; cbn [negb].
  - apply Bool.eqb_prop in E.
    assert (Hb : b0 = b) by (destruct Hu as [Hu _]; unfold hidden_is in Hu; congruence).
    subst b0. symmetry. apply map_tree_fixed.
    intros e He. apply set__is_hidden_same.
    destruct Hu as [Hm Hd']. destruct He as [->|He]; [exact Hm|].
    rewrite Forall_forall in Hd'. exact (Hd' e He).
  - exact (IH c Hc Hu).
Qed.

Lemma map_tree_descendants (f : MorphData -> MorphData) (m : Morph) :
  descendants (map_tree f m) = map (map_tree f) (descendants m).
Proof.
  induction m as [d cs IH] using Morph_ind. cbn [map_tree descendants].
  induction cs as [|c cs IHcs]; [reflexivity|].
  cbn [map flat_map]. rewrite map_app. cbn [map].
  inversion IH as [|? ? Hc Hcs]; subst.
  rewrite Hc, (IHcs Hcs). reflexivity.
Qed.

Lemma map_tree_compose (f g : MorphData -> MorphData) (m : Morph) :
  map_tree f (map_tree g m) = map_tree (fun d => f (g d)) m.
Proof.
  induction m as [d cs IH] using Morph_ind. cbn [map_tree]. f_equal.
  rewrite map_map. apply map_ext_in. intros c Hc.
  rewrite Forall_forall in IH. exact (IH c Hc).
Qed.

(** X9: on a tree whose morphs all hold one hidden flag, the assignment
    reaches every morph: the tree is uniform again, with the value
    assigned, and nothing but the flags has changed; assigning the
    former value afterwards restores the tree. *)
Theorem set_is_hidden_uniform (b0 b : bool) (m : Morph) :
  uniform b0 m ->
  uniform b (set_is_hidden b m) /\
  set_is_hidden b m = map_tree (set__is_hidden b) m /\
  set_is_hidden b0 (set_is_hidden b m) = m.
Proof.
  intros Hu.
  assert (Hub : uniform b (set_is_hidden b m)).
  { rewrite (set_is_hidden_on_uniform b0 b m Hu). split.
    - destruct m as [d cs]. destruct d. reflexivity.
    - rewrite map_tree_descendants. apply Forall_forall. intros e He.
      apply in_map_iff in He. destruct He as (e0 & <- & _).
      destruct e0 as [d cs]. destruct d. reflexivity. }
  split; [exact Hub|]. split; [exact (set_is_hidden_on_uniform b0 b m Hu)|].
  rewrite (set_is_hidden_on_uniform b b0 _ Hub).
  rewrite (set_is_hidden_on_uniform b0 b m Hu).
  rewrite map_tree_compose. apply map_tree_fixed.
  intros e He. rewrite set__is_hidden_twice. apply set__is_hidden_same.
  destruct Hu as [Hm Hall]. destruct He as [->|He]; [exact Hm|].
  rewrite Forall_forall in Hall. exact (Hall e He).
Qed.

(** ** The constructor *)

(** X10: [Morph.__init__] raises [ValueError] when [width] is negative, or
    else when [height] times [scale] is (the check reads the scaled
    height), before any texture is loaded.  Otherwise, with no texture, it
    returns a morph at the given position, with [bounds] from the position
    to the position plus the unscaled size, visible, handling no event,
    and out of drag state even when [drag_drop] is given. *)
Theorem Morph_init_checks (images_load : string -> option (Z * Z)) (i : nat) (k : Kargs) :
  (k_width k < 0 ->
   Morph_init images_load i k = Raise (ValueError "width must not be a negative value")) /\
  (0 <= k_width k -> k_height k * k_scale k < 0 ->
   Morph_init images_load i k = Raise (ValueError "height must not be a negative value ")) /\
  (0 <= k_width k -> 0 <= k_height k * k_scale k -> k_texture k = None ->
   exists d,
     Morph_init images_load i k = Ok d /\
     position d = k_position k /\
     _position d = k_position k /\
     bounds d = mkBox (fst (k_position k)) (snd (k_position k))
                  (fst (k_position k) + k_width k) (snd (k_position k) + k_height k) /\
     _width d = k_width k * k_scale k /\
     _height d = k_height k * k_scale k /\
     is_hidden d = false /\
     handles_events d = false /\
     handles_mouse_down d = false /\
     handles_drag_drop d = k_drag_drop k /\
     drag_drop d = false /\
     textures d = []).
Proof.
  unfold Morph_init, width, height. cbn [real_width _height real_height position real_position].
  split; [|split].
  - intros H. apply Z.ltb_lt in H. rewrite H. reflexivity.
  - intros H1 H2. destruct (Z.ltb_spec (k_width k) 0) as [?|_]; [lia|].
    apply Z.ltb_lt in H2. rewrite H2. reflexivity.
  - intros H1 H2 Ht.
    destruct (Z.ltb_spec (k_width k) 0) as [?|_]; [lia|].
    destruct (Z.ltb_spec (k_height k * k_scale k) 0) as [?|_]; [lia|].
    cbn [bind]. rewrite Ht. eexists. split; [reflexivity|].
    cbn. destruct (k_position k). repeat split.
Qed.

(** ** Textures *)

Lemma dict_get_set_same (key : string) (v : Texture) (l : list (string * Texture)) :
  dict_get key (dict_set key v l) = Some v.
Proof.
  induction l as [|[k v'] l IH]; simpl.
  - rewrite String.eqb_refl. reflexivity.
  - destruct (String.eqb k key) eqn:E; simpl; rewrite E; [reflexivity|exact IH].
Qed.

Lemma dict_get_set_other (key key' : string) (v : Texture) (l : list (string * Texture)) :
  key' <> key ->
  dict_get key' (dict_set key v l) = dict_get key' l.
Proof.
  intros Hne. induction l as [|[k v'] l IH]; simpl.
  - destruct (String.eqb_spec key key') as [E|_]; [congruence|reflexivity].
  - destruct (String.eqb_spec k key) as [E|E]; simpl.
    + subst k. destruct (String.eqb_spec key key') as [E'|_]; [congruence|reflexivity].
    + destruct (String.eqb k key'); [reflexivity|exact IH].
Qed.

Lemma load_texture_loaded (images_load : string -> option (Z * Z)) (n : string)
    (sc : Z) (self : MorphData) (size : Z * Z) :
  images_load (texture_path self ++ n)%string = Some size ->
  let t := mkTexture size (texture_path self ++ n)%string false sc 0 in
  load_texture images_load n sc self
  = (Ok t,
     set_scale sc (set_active_texture (Some n)
                     (set_textures (dict_set n t (textures self)) self))).
Proof.
  intros Hload t. unfold load_texture, activate_texture. rewrite Hload. fold t.
  assert (Hg : dict_get n (textures (set_active_texture (Some n)
                  (set_textures (dict_set n t (textures self)) self))) = Some t).
  { destruct self; simpl. apply dict_get_set_same. }
  rewrite Hg. cbn [tex_scale t].
  assert (Hg' : dict_get n (textures (set_scale sc (set_active_texture (Some n)
                   (set_textures (dict_set n t (textures self)) self)))) = Some t).
  { destruct self; simpl. apply dict_get_set_same. }
  rewrite Hg'. reflexivity.
Qed.

Lemma set_texture_loaded (images_load : string -> option (Z * Z)) (n : string)
    (self : MorphData) (t : Texture) :
  dict_get n (textures self) = Some t ->
  set_texture images_load n self
  = (Ok tt, set_scale (tex_scale t) (set_active_texture (Some n) self)).
Proof.
  intros Hget. unfold set_texture, activate_texture. rewrite Hget.
  assert (Hg : dict_get n (textures (set_active_texture (Some n) self)) = Some t)
    by (destruct self; exact Hget).
  rewrite Hg. reflexivity.
Qed.

(** X11: [load_texture] either fails to load the image and leaves the
    morph as it was, or stores the entry under the name, where a lookup
    finds it, makes it the active texture and sets the scale of the morph
    to the scale given; the entries under other names are kept. *)
Theorem load_texture_stores (images_load : string -> option (Z * Z)) (n : string)
    (sc : Z) (self : MorphData) :
  match images_load (texture_path self ++ n)%string with
  | None => exists msg, load_texture images_load n sc self = (Raise (RuntimeError msg), self)
  | Some size =>
      let t := mkTexture size (texture_path self ++ n)%string false sc 0 in
      let self' := snd (load_texture images_load n sc self) in
      fst (load_texture images_load n sc self) = Ok t /\
      dict_get n (textures self') = Some t /\
      texture self' = Some n /\
      scale self' = sc /\
      texture_path self' = texture_path self /\
      (forall n', n' <> n -> dict_get n' (textures self') = dict_get n' (textures self))
  end.
Proof.
  destruct (images_load (texture_path self ++ n)%string) as [size|] eqn:Hload.
  - intros t self'. subst self'.
    rewrite (load_texture_loaded images_load n sc self size Hload). fold t.
    cbn [fst snd]. unfold texture.
    split; [reflexivity|].
    split; [destruct self; simpl; apply dict_get_set_same|].
    split; [destruct self; reflexivity|]. split; [destruct self; reflexivity|].
    split; [destruct self; reflexivity|].
    intros n' Hne. destruct self; simpl. apply dict_get_set_other. exact Hne.
  - unfold load_texture. rewrite Hload. eexists. reflexivity.
Qed.

(** X12: the [texture] setter.  Assigning a name that is loaded activates
    it without loading anything: the textures are kept and the scale of the
    morph becomes the scale stored with the texture.  Assigning another
    name loads it with scale 1, so the scale of the morph becomes 1; when
    the image cannot be loaded the morph is left as it was.  The setter
    never raises [KeyError]. *)
Theorem set_texture_cases (images_load : string -> option (Z * Z)) (n : string)
    (self : MorphData) :
  match dict_get n (textures self) with
  | Some t =>
      fst (set_texture images_load n self) = Ok tt /\
      texture (snd (set_texture images_load n self)) = Some n /\
      scale (snd (set_texture images_load n self)) = tex_scale t /\
      textures (snd (set_texture images_load n self)) = textures self
  | None =>
      match images_load (texture_path self ++ n)%string with
      | Some size =>
          fst (set_texture images_load n self) = Ok tt /\
          texture (snd (set_texture images_load n self)) = Some n /\
          scale (snd (set_texture images_load n self)) = 1 /\
          dict_get n (textures (snd (set_texture images_load n self)))
          = Some (mkTexture size (texture_path self ++ n)%string false 1 0)
      | None =>
          exists msg, set_texture images_load n self = (Raise (RuntimeError msg), self)
      end
  end.
Proof.
  destruct (dict_get n (textures self)) as [t|] eqn:Hget.
  - rewrite (set_texture_loaded images_load n self t Hget). cbn [fst snd].
    unfold texture. destruct self; repeat split.
  - unfold set_texture. rewrite Hget.
    destruct (images_load (texture_path self ++ n)%string) as [size|] eqn:Hload.
    + rewrite (load_texture_loaded images_load n 1 self size Hload). cbn [fst snd].
      unfold texture.
      split; [reflexivity|]. split; [destruct self; reflexivity|].
      split; [destruct self; reflexivity|].
      destruct self; simpl. apply dict_get_set_same.
    + unfold load_texture. rewrite Hload. eexists. reflexivity.
Qed.

(** X13: switching between loaded textures switches the scale of the
    morph with them: after loading [a] with scale [sa] and then [b] with
    scale [sb], assigning [texture = a] needs no image, makes [a] active
    and gives the morph the scale [sa] again. *)
Theorem texture_switch_restores_scale (images_load : string -> option (Z * Z))
    (a b : string) (sa sb : Z) (size_a size_b : Z * Z) (self : MorphData) :
  a <> b ->
  images_load (texture_path self ++ a)%string = Some size_a ->
  images_load (texture_path self ++ b)%string = Some size_b ->
  let self1 := snd (load_texture images_load a sa self) in
  let self2 := snd (load_texture images_load b sb self1) in
  forall images_load' : string -> option (Z * Z),
    scale self2 = sb /\
    texture self2 = Some b /\
    fst (set_texture images_load' a self2) = Ok tt /\
    texture (snd (set_texture images_load' a self2)) = Some a /\
    scale (snd (set_texture images_load' a self2)) = sa.
Proof.
  intros Hne Ha Hb self1 self2 images_load'.
  assert (H1 : self1 = set_scale sa (set_active_texture (Some a)
                 (set_textures (dict_set a (mkTexture size_a (texture_path self ++ a) false sa 0)
                                  (textures self)) self))).
  { unfold self1. rewrite (load_texture_loaded images_load a sa self size_a Ha). reflexivity. }
  assert (Hp1 : texture_path self1 = texture_path self)
    by (rewrite H1; destruct self; reflexivity).
  assert (Hd1 : dict_get a (textures self1)
                = Some (mkTexture size_a (texture_path self ++ a) false sa 0)).
  { rewrite H1. destruct self; simpl. apply dict_get_set_same. }
  assert (Hb1 : images_load (texture_path self1 ++ b)%string = Some size_b)
    by (rewrite Hp1; exact Hb).
  assert (H2 : self2 = set_scale sb (set_active_texture (Some b)
                 (set_textures (dict_set b (mkTexture size_b (texture_path self1 ++ b) false sb 0)
                                  (textures self1)) self1))).
  { unfold self2. rewrite (load_texture_loaded images_load b sb self1 size_b Hb1). reflexivity. }
  assert (Hd2 : dict_get a (textures self2)
                = Some (mkTexture size_a (texture_path self ++ a) false sa 0)).
  { rewrite H2, <- Hd1. destruct self1; simpl. apply dict_get_set_other. exact Hne. }
  rewrite (set_texture_loaded images_load' a self2 _ Hd2). cbn [fst snd tex_scale].
  unfold texture.
  split; [rewrite H2; destruct self1; reflexivity|].
  split; [rewrite H2; destruct self1; reflexivity|].
  split; [reflexivity|].
  split; destruct self2; reflexivity.
Qed.

(** ** What a dispatch leaves alone *)

Lemma still_set_drag_drop (b : bool) (d : MorphData) : still (set_drag_drop b d) = still d.
Proof. destruct d; reflexivity. Qed.

Lemma still_set_drag_position (p : Point) (d : MorphData) :
  still (set_drag_position p d) = still d.
Proof. destruct d; reflexivity. Qed.

Lemma still_set_position (w : World) (parent : Parent) (p : Point) (d : MorphData) :
  still (set_position w parent p d) = still d.
Proof. unfold set_position. destruct d; reflexivity. Qed.

Lemma on_left_click_quiet : quiet_handler on_left_click.
Proof.
  intros w parent s. unfold on_left_click.
  destruct (on_left_click_action s); [split; reflexivity|].
  destruct (negb (drag_drop s) && handles_drag_drop s);
    destruct (world w parent); cbn [world_after self_after];
    rewrite ?still_set_drag_position, ?still_set_drag_drop; split; reflexivity.
Qed.

Lemma on_left_click_released_quiet : quiet_handler on_left_click_released.
Proof.
  intros w parent s. unfold on_left_click_released.
  destruct (on_left_click_released_action s); [split; reflexivity|].
  destruct (drag_drop s && handles_drag_drop s);
    destruct (world w parent); cbn [world_after self_after];
    rewrite ?still_set_drag_drop; split; reflexivity.
Qed.

Lemma on_right_click_quiet : quiet_handler on_right_click.
Proof.
  intros w parent s. unfold on_right_click.
  destruct (on_right_click_action s); [split; reflexivity|].
  destruct (world w parent); split; reflexivity.
Qed.

Lemma on_right_click_released_quiet : quiet_handler on_right_click_released.
Proof.
  intros w parent s. unfold on_right_click_released.
  destruct (on_right_click_released_action s); [split; reflexivity|].
  destruct (world w parent); split; reflexivity.
Qed.

Lemma on_mouse_in_quiet : quiet_handler on_mouse_in.
Proof.
  intros w parent s. unfold on_mouse_in.
  destruct (on_mouse_in_action s); [split; reflexivity|].
  destruct (world w parent); split; reflexivity.
Qed.

Lemma on_mouse_out_quiet : quiet_handler on_mouse_out.
Proof.
  intros w parent s. unfold on_mouse_out.
  destruct (on_mouse_out_action s); [split; reflexivity|].
  destruct (world w parent); split; reflexivity.
Qed.

Lemma set_consumed_event_twice (b b' : bool) (w : World) :
  set_consumed_event b (set_consumed_event b' w) = set_consumed_event b w.
Proof. destruct w; reflexivity. Qed.

Lemma world_kept_trans (w w' w'' : World) :
  world_kept w w' -> world_kept w' w'' -> world_kept w w''.
Proof.
  intros [->| ->] [->| ->]; unfold world_kept; rewrite ?set_consumed_event_twice; auto.
Qed.

Lemma then_if_quiet (c : bool)
    (h : World -> Parent -> MorphData -> Outcome MorphData Returned)
    (parent : Parent) (o : Outcome MorphData unit) :
  quiet_handler h ->
  world_after (then_if c h parent o) = world_after o /\
  still (self_after (then_if c h parent o)) = still (self_after o).
Proof.
  intros Hq. unfold then_if.
  destruct (result o); [|split; reflexivity].
  destruct c; [|split; reflexivity].
  cbn [world_after self_after]. exact (Hq (world_after o) parent (self_after o)).
Qed.

Section Kept.
Variable collisionDetect : Z -> Z -> Z -> Z -> Z -> Z -> Z -> Z -> bool.
Variable circle_contains : Z -> Z -> Z -> Z -> Z -> bool.

Lemma on_mouse_click_kept (w : World) (parent : Parent) (d : MorphData) (ev : Event) :
  let o := on_mouse_click circle_contains w parent d ev in
  world_kept w (world_after o) /\ still (self_after o) = still d.
Proof.
  intros o. subst o. unfold on_mouse_click.
  destruct (mouse_over_morph circle_contains w parent d) as [[|]|e];
    try (split; [left; reflexivity|reflexivity]).
  destruct (handles_mouse_down d); [|split; [left; reflexivity|reflexivity]].
  destruct (world w parent); [|split; [left; reflexivity|reflexivity]].
  repeat match goal with
  | |- context [then_if ?c ?h parent ?o] =>
      let H := fresh "H" in
      assert (H : quiet_handler h)
        by first [ exact on_left_click_quiet | exact on_left_click_released_quiet
                 | exact on_right_click_quiet | exact on_right_click_released_quiet ];
      destruct (then_if_quiet c h parent o H) as [-> ->]; clear H
  end.
  cbn [world_after self_after]. split; [right; reflexivity|reflexivity].
Qed.

Lemma drag_step_still (w : World) (parent : Parent) (bpy_region : option Region)
    (self : MorphData) :
  still (snd (drag_step collisionDetect w parent bpy_region self)) = still self.
Proof.
  unfold drag_step.
  destruct (drag_drop self); [|reflexivity].
  destruct (world w parent) as [wo|]; [|reflexivity].
  destruct (collision_loop _ _ _ _ _ _ _) as [[|]|e]; cbn [snd]; try reflexivity.
  rewrite still_set_drag_position, still_set_position. reflexivity.
Qed.

Lemma on_mouse_over_kept (w : World) (parent : Parent) (bpy_region : option Region)
    (d : MorphData) (ev : Event) :
  let o := on_mouse_over collisionDetect circle_contains w parent bpy_region d ev in
  world_after o = w /\ still (self_after o) = still d.
Proof.
  intros o. subst o.
  split.
  - unfold on_mouse_over.
    destruct (drag_step collisionDetect w parent bpy_region d) as [[u|e] self1];
      [|reflexivity].
    destruct (mouse_over_morph circle_contains w parent self1) as [[|]|e];
      [apply on_mouse_in_quiet|apply on_mouse_out_quiet|reflexivity].
  - rewrite self_after_on_mouse_over. apply drag_step_still.
Qed.

(** The loop keeps what every dispatch keeps. *)
Lemma dispatch_loop_kept (dispatch : World -> Morph -> Outcome Morph unit)
    (l : list Morph) :
  (forall w c, In c l ->
     world_kept w (world_after (dispatch w c)) /\
     map_tree still (self_after (dispatch w c)) = map_tree still c) ->
  forall w,
    world_kept w (world_after (dispatch_loop dispatch w l)) /\
    map (map_tree still) (self_after (dispatch_loop dispatch w l))
    = map (map_tree still) l.
Proof.
  induction l as [|c l IH]; intros H w; cbn [dispatch_loop].
  - split; [left; reflexivity|reflexivity].
  - destruct (H w c (or_introl eq_refl)) as [Hw Hs].
    destruct (result (dispatch w c)); cbn [world_after self_after map].
    + destruct (IH (fun w' c' Hin => H w' c' (or_intror Hin)) (world_after (dispatch w c)))
        as [Hw' Hs'].
      split; [exact (world_kept_trans _ _ _ Hw Hw')|].
      rewrite Hs, Hs'. reflexivity.
    + split; [exact Hw|]. rewrite Hs. reflexivity.
Qed.

Lemma on_event_kept (bpy_region : option Region) (ev : Event) (context : Context)
    (self : Morph) :
  forall (w : World) (parent : Parent),
    let o := on_event collisionDetect circle_contains w parent bpy_region self ev context in
    world_kept w (world_after o) /\ map_tree still (self_after o) = map_tree still self.
Proof.
  induction self as [d cs IH] using Morph_ind. intros w parent o. subst o.
  rewrite Forall_forall in IH.
  cbn [on_event].
  set (loop := dispatch_loop _ w cs).
  assert (Hloop : world_kept w (world_after loop) /\
                  map (map_tree still) (self_after loop) = map (map_tree still) cs).
  { apply dispatch_loop_kept. intros w' c Hin. exact (IH c Hin w' (ParentMorph d parent)). }
  destruct Hloop as [Hw Hs].
  assert (Hidle : forall r : Exc unit,
            world_kept w (world_after (mkOutcome r (Node d (self_after loop)) (world_after loop)
                                         (runs loop))) /\
            map_tree still (self_after (mkOutcome r (Node d (self_after loop))
                                          (world_after loop) (runs loop)))
            = map_tree still (Node d cs)).
  { intros r. cbn [world_after self_after map_tree]. rewrite Hs. split; [exact Hw|reflexivity]. }
  destruct (result loop); [|apply Hidle].
  destruct (handles_events d && negb (is_hidden d)); [|apply Hidle].
  destruct (world (world_after loop) parent) as [wo|]; [|apply Hidle].
  destruct (negb (consumed_event wo)); [|apply Hidle].
  destruct (type ev); try apply Hidle.
  - destruct (on_mouse_click_kept (world_after loop) parent d ev) as [Hk Hd].
    cbn [world_after self_after map_tree]. rewrite Hs, Hd.
    split; [exact (world_kept_trans _ _ _ Hw Hk)|reflexivity].
  - destruct (on_mouse_click_kept (world_after loop) parent d ev) as [Hk Hd].
    cbn [world_after self_after map_tree]. rewrite Hs, Hd.
    split; [exact (world_kept_trans _ _ _ Hw Hk)|reflexivity].
  - destruct (on_mouse_over_kept (world_after loop) parent bpy_region d ev) as [Hk Hd].
    cbn [world_after self_after map_tree]. rewrite Hs, Hd, Hk.
    split; [exact Hw|reflexivity].
Qed.

Lemma world_frame_of_set_morph (m : Morph) (w : World) :
  data m = data (morph w) ->
  world_frame_of (set_morph m w) = world_frame_of w.
Proof.
  intros H. destruct w as [m0 ce mo mp mpa mci wp ww wh ev da dap daw dah ah].
  unfold world_frame_of. simpl in *. rewrite H. reflexivity.
Qed.

Lemma world_frame_of_kept (w w' : World) :
  world_kept w w' -> world_frame_of w' = world_frame_of w /\ morph w' = morph w.
Proof.
  intros [->| ->]; [split; reflexivity|].
  destruct w; split; reflexivity.
Qed.

Lemma children_set_morph (d : MorphData) (l : list Morph) (w : World) :
  children (morph (set_morph (Node d l) w)) = l.
Proof. destruct w; reflexivity. Qed.

Lemma World_dispatch_kept (bpy_region : option Region) (ev : Event) (context : Context)
    (todo : list Morph) :
  forall (done : list Morph) (w : World),
    children (morph w) = done ++ todo ->
    let o := World_dispatch collisionDetect circle_contains w bpy_region done todo ev context in
    world_frame_of (world_after o) = world_frame_of w /\
    map (map_tree still) (children (morph (world_after o)))
    = map (map_tree still) (done ++ todo).
Proof.
  induction todo as [|c todo IH]; intros done w Hch o; subst o; cbn [World_dispatch].
  - cbn [world_after]. rewrite Hch. split; reflexivity.
  - destruct (on_event_kept bpy_region ev context c w ParentWorld) as [Hk Hs].
    set (o := on_event collisionDetect circle_contains w ParentWorld bpy_region c ev context) in *.
    destruct (world_frame_of_kept w (world_after o) Hk) as [Hf Hm].
    set (w1 := set_morph (Node (data (morph (world_after o))) (done ++ self_after o :: todo))
                 (world_after o)).
    assert (Hf1 : world_frame_of w1 = world_frame_of w).
    { unfold w1. rewrite world_frame_of_set_morph; [exact Hf|reflexivity]. }
    assert (Hc1 : children (morph w1) = (done ++ [self_after o]) ++ todo).
    { unfold w1. rewrite children_set_morph, <- app_assoc. reflexivity. }
    assert (Hmap : map (map_tree still) ((done ++ [self_after o]) ++ todo)
                   = map (map_tree still) (done ++ c :: todo)).
    { rewrite <- app_assoc. rewrite !map_app. cbn [map app]. rewrite Hs. reflexivity. }
    destruct (result o).
    + destruct (IH (done ++ [self_after o]) w1 Hc1) as [Hf' Hs'].
      cbn [world_after]. split; [rewrite Hf'; exact Hf1|].
      rewrite Hs'. exact Hmap.
    + cbn [world_after]. split; [exact Hf1|]. rewrite Hc1. exact Hmap.
Qed.

Lemma on_event_other_type (w : World) (parent : Parent) (bpy_region : option Region)
    (self : Morph) (ev : Event) (context : Context) :
  type ev = OTHER_TYPE ->
  world w parent = Some w ->
  on_event collisionDetect circle_contains w parent bpy_region self ev context
  = mkOutcome (Ok tt) self w [].
Proof.
  intros Hev. revert parent.
  induction self as [d cs IH] using Morph_ind; intros parent Hw.
  cbn [on_event].
  rewrite dispatch_loop_idle.
  - cbn [result self_after world_after runs]. rewrite Hw, Hev.
    destruct (handles_events d && negb (is_hidden d)); [|reflexivity].
    destruct (negb (consumed_event w)); reflexivity.
  - apply Forall_forall. intros c Hin.
    rewrite Forall_forall in IH. apply (IH c Hin). exact Hw.
Qed.

Lemma World_dispatch_other_type (bpy_region : option Region) (ev : Event)
    (context : Context) (w : World) (todo : list Morph) :
  type ev = OTHER_TYPE ->
  forall done : list Morph,
    children (morph w) = done ++ todo ->
    World_dispatch collisionDetect circle_contains w bpy_region done todo ev context
    = mkOutcome (Ok tt) tt w [].
Proof.
  intros Hev. induction todo as [|c todo IH]; intros done Hch; cbn [World_dispatch].
  - reflexivity.
  - rewrite (on_event_other_type w ParentWorld bpy_region c ev context Hev eq_refl).
    cbn [result self_after world_after runs app].
    rewrite (set_morph_same w (done ++ c :: todo) Hch).
    rewrite IH; [reflexivity|]. rewrite <- app_assoc. exact Hch.
Qed.

Lemma oid_still (d d' : MorphData) : still d = still d' -> oid d = oid d'.
Proof.
  intros H. destruct d, d'. unfold still in H. simpl in *.
  injection H as H. subst. reflexivity.
Qed.

Lemma shape_still (m : Morph) :
  forall m', map_tree still m = map_tree still m' -> shape m = shape m'.
Proof.
  induction m as [d cs IH] using Morph_ind. intros [d' cs'] H.
  cbn [map_tree] in H. injection H as Hd Hcs. cbn [shape].
  rewrite (oid_still d d' Hd). f_equal.
  revert cs' Hcs. induction IH as [|c cs Hc _ IHcs]; intros [|c' cs'] Hcs;
    cbn [map] in *; try discriminate Hcs; [reflexivity|].
  injection Hcs as Hc' Hcs'.
  rewrite (Hc c' Hc'), (IHcs cs' Hcs'). reflexivity.
Qed.

Lemma shapes_still (l l' : list Morph) :
  map (map_tree still) l = map (map_tree still) l' -> map shape l = map shape l'.
Proof.
  revert l'. induction l as [|c l IH]; intros [|c' l'] H; cbn [map] in *;
    try discriminate H; [reflexivity|].
  injection H as Hc Hl. rewrite (shape_still c c' Hc), (IH l' Hl). reflexivity.
Qed.

(** X14: what [World.on_event], called with a region, does to the world.
    It changes only what it assigns before its loop, the consumed flag and
    the morphs below it: the window position and size become those of the
    region, the absolute pointer position the event position plus the
    region origin, and the event the one given; [modal_operator], the
    viewport-relative [mouse_position], [mouse_cursor_inside], the draw
    area, [auto_hide] and the attributes the world has as a morph are
    kept.  The dispatch adds, removes and reorders no morph, at any depth:
    the identities of the morphs below the world are in their places. *)
Theorem World_on_event_keeps (self : World) (bpy_region : option Region) (ev : Event)
    (context : Context) (r : Region) :
  region context = Some r ->
  let out := World_on_event collisionDetect circle_contains self bpy_region ev context in
  world_frame_of (world_after out) = world_frame_of (World_frame self r ev) /\
  window_position (world_after out) = (region_x r, region_y r) /\
  window_width (world_after out) = region_width r /\
  window_height (world_after out) = region_height r /\
  mouse_position_absolute (world_after out)
  = (mouse_region_x ev + region_x r, mouse_region_y ev + region_y r) /\
  event (world_after out) = Some ev /\
  modal_operator (world_after out) = modal_operator self /\
  mouse_position (world_after out) = mouse_position self /\
  mouse_cursor_inside (world_after out) = mouse_cursor_inside self /\
  draw_area (world_after out) = draw_area self /\
  draw_area_position (world_after out) = draw_area_position self /\
  draw_area_width (world_after out) = draw_area_width self /\
  draw_area_height (world_after out) = draw_area_height self /\
  auto_hide (world_after out) = auto_hide self /\
  data (morph (world_after out)) = data (morph self) /\
  map shape (children (morph (world_after out))) = map shape (children (morph self)).
Proof.
  intros Hr out. subst out. unfold World_on_event. rewrite Hr.
  destruct (World_dispatch_kept bpy_region ev context
              (children (morph (World_frame self r ev))) [] (World_frame self r ev) eq_refl)
    as [Hf Hs].
  apply shapes_still in Hs.
  set (wa := world_after _) in *.
  split; [exact Hf|].
  assert (Hfields : forall w1 w2 : World, world_frame_of w1 = world_frame_of w2 ->
            window_position w1 = window_position w2 /\
            window_width w1 = window_width w2 /\
            window_height w1 = window_height w2 /\
            mouse_position_absolute w1 = mouse_position_absolute w2 /\
            event w1 = event w2 /\
            modal_operator w1 = modal_operator w2 /\
            mouse_position w1 = mouse_position w2 /\
            mouse_cursor_inside w1 = mouse_cursor_inside w2 /\
            draw_area w1 = draw_area w2 /\
            draw_area_position w1 = draw_area_position w2 /\
            draw_area_width w1 = draw_area_width w2 /\
            draw_area_height w1 = draw_area_height w2 /\
            auto_hide w1 = auto_hide w2 /\
            data (morph w1) = data (morph w2)).
  { intros w1 w2 H. destruct w1, w2. unfold world_frame_of in H. simpl in *.
    injection H as H. subst. repeat split. congruence. }
  destruct (Hfields _ _ Hf)
    as (H1 & H2 & H3 & H4 & H5 & H6 & H7 & H8 & H9 & H10 & H11 & H12 & H13 & H14).
  rewrite H1, H2, H3, H4, H5, H6, H7, H8, H9, H10, H11, H12, H13, H14, Hs.
  destruct self as [m ce mo mp mpa mci wp ww wh e da dap daw dah ah].
  destruct m. repeat split.
Qed.

(** X15: an event whose type is none of [LEFTMOUSE], [RIGHTMOUSE] and
    [MOUSEMOVE] runs no handler and changes no morph: [World.on_event]
    called with a region returns with the world as the assignments before
    its loop leave it. *)
Theorem World_on_event_other_type (self : World) (bpy_region : option Region) (ev : Event)
    (context : Context) (r : Region) :
  type ev = OTHER_TYPE ->
  region context = Some r ->
  World_on_event collisionDetect circle_contains self bpy_region ev context
  = mkOutcome (Ok tt) tt (World_frame self r ev) [].
Proof.
  intros Hev Hr. unfold World_on_event. rewrite Hr.
  apply World_dispatch_other_type; [exact Hev|reflexivity].
Qed.

(** X16: what a click does to the drag state.  For a morph under the
    pointer that handles mouse down and has no action bound to the left
    button: when it handles drag and drop, a left press puts it in drag
    state (with the anchor at the world's [mouse_position] when it was
    not) and a left release takes it out; when it does not, no button
    event changes it. *)
Theorem click_toggles_drag (w : World) (parent : Parent) (d : MorphData) (ev : Event) :
  world w parent = Some w ->
  mouse_over_morph circle_contains w parent d = Ok true ->
  handles_mouse_down d = true ->
  on_left_click_action d = None ->
  on_left_click_released_action d = None ->
  let d' := self_after (on_mouse_click circle_contains w parent d ev) in
  (handles_drag_drop d = true -> type ev = LEFTMOUSE -> value ev = PRESS ->
   drag_drop d' = true /\
   (drag_drop d = false -> d' = set_drag_position (mouse_position w) (set_drag_drop true d)) /\
   (drag_drop d = true -> d' = d)) /\
  (handles_drag_drop d = true -> type ev = LEFTMOUSE -> value ev = RELEASE ->
   drag_drop d' = false /\ set_drag_drop false d' = set_drag_drop false d) /\
  (handles_drag_drop d = false -> d' = d) /\
  (type ev = RIGHTMOUSE -> d' = d).
Proof.
  intros Hw Hover Hdown Ha1 Ha2 d'. subst d'.
  unfold on_mouse_click. rewrite Hover, Hdown, Hw.
  assert (Hw' : world (set_consumed_event true w) parent = Some (set_consumed_event true w))
    by exact (world_any w w parent Hw _).
  assert (Hmp : mouse_position (set_consumed_event true w) = mouse_position w)
    by (destruct w; reflexivity).
  split; [|split; [|split]].
  - intros Hdd -> ->. cbn [is_LEFTMOUSE is_RIGHTMOUSE is_PRESS is_RELEASE andb].
    rewrite !then_if_false. unfold then_if, on_left_click.
    cbn [result self_after world_after]. rewrite Ha1, Hdd, Hw', Hmp.
    destruct (drag_drop d) eqn:Ed; cbn [negb andb self_after].
    + split; [exact Ed|]. split; [discriminate|reflexivity].
    + split; [destruct d; reflexivity|]. split; [reflexivity|discriminate].
  - intros Hdd -> ->. cbn [is_LEFTMOUSE is_RIGHTMOUSE is_PRESS is_RELEASE andb].
    rewrite !then_if_false. unfold then_if, on_left_click_released.
    cbn [result self_after world_after]. rewrite Ha2, Hdd, Hw'.
    destruct (drag_drop d) eqn:Ed; cbn [andb self_after].
    + split; [destruct d; reflexivity|destruct d; reflexivity].
    + split; [exact Ed|reflexivity].
  - intros Hdd.
    destruct (type ev), (value ev);
      cbn [is_LEFTMOUSE is_RIGHTMOUSE is_PRESS is_RELEASE andb];
      rewrite ?then_if_false; try reflexivity;
      unfold then_if, on_left_click, on_left_click_released, on_right_click,
        on_right_click_released;
      cbn [result self_after world_after];
      rewrite ?Ha1, ?Ha2, ?Hdd, ?Hw', ?Bool.andb_false_r; cbn [self_after];
      try reflexivity;
      destruct (on_right_click_action d); try reflexivity;
      destruct (on_right_click_released_action d); reflexivity.
  - intros ->.
    destruct (value ev);
      cbn [is_LEFTMOUSE is_RIGHTMOUSE is_PRESS is_RELEASE andb];
      rewrite ?then_if_false; try reflexivity;
      unfold then_if, on_right_click, on_right_click_released;
      cbn [result self_after world_after]; rewrite ?Hw';
      destruct (on_right_click_action d); try reflexivity;
      destruct (on_right_click_released_action d); reflexivity.
Qed.

(** ** Pointer moves *)

Lemma hover_safe_still (d d' : MorphData) :
  still d = still d' -> hover_safe d -> hover_safe d'.
Proof.
  unfold hover_safe. intros H. destruct d, d'. unfold still in H. simpl in *.
  injection H as H. subst. tauto.
Qed.

Lemma hovers_still (d d' : MorphData) : still d = still d' -> hovers d = hovers d'.
Proof.
  unfold hovers, is_hidden. intros H. destruct d, d'. unfold still in H. simpl in *.
  injection H as H. subst. reflexivity.
Qed.

(** A hover handler under a world returns after one run, on [self]. *)
Lemma hover_handler_runs (w : World) (parent : Parent) (s : MorphData)
    (h : World -> Parent -> MorphData -> Outcome MorphData Returned) :
  h = on_mouse_in \/ h = on_mouse_out ->
  world w parent = Some w ->
  (exists v, result (h w parent s) = Ok v) /\
  exists run, runs (h w parent s) = [run] /\ who run = oid s /\ is_hover_run run.
Proof.
  intros [-> | ->] Hw.
  - unfold on_mouse_in. rewrite Hw.
    destruct (on_mouse_in_action s); cbn [result runs];
      (split; [eexists; reflexivity|]);
      eexists; (split; [reflexivity|]); split; [reflexivity|left; reflexivity| |];
      [reflexivity|left; reflexivity].
  - unfold on_mouse_out. rewrite Hw.
    destruct (on_mouse_out_action s); cbn [result runs];
      (split; [eexists; reflexivity|]);
      eexists; (split; [reflexivity|]); split; [reflexivity|right; reflexivity| |];
      [reflexivity|right; reflexivity].
Qed.

Lemma on_mouse_over_hover (w : World) (parent : Parent) (bpy_region : option Region)
    (d : MorphData) (ev : Event) :
  world w parent = Some w ->
  hover_safe d ->
  Forall (fun c => hover_safe (data c)) (children (morph w)) ->
  let o := on_mouse_over collisionDetect circle_contains w parent bpy_region d ev in
  (exists v, result o = Ok v) /\
  exists run, runs o = [run] /\ who run = oid d /\ is_hover_run run.
Proof.
  intros Hw Hd Hcs o. subst o.
  assert (Hstep : exists self1,
            drag_step collisionDetect w parent bpy_region d = (Ok tt, self1) /\
            still self1 = still d).
  { pose proof (drag_step_still w parent bpy_region d) as Hst.
    unfold drag_step in *. destruct (drag_drop d); [|eexists; split; reflexivity].
    rewrite Hw in *.
    assert (Hs : sizes_ok d) by (destruct Hd as (_ & H1 & H2); split; assumption).
    assert (Hcs' : Forall (fun c => sizes_ok (data c)) (children (morph w))).
    { apply Forall_forall. intros c Hc. rewrite Forall_forall in Hcs.
      destruct (Hcs c Hc) as (_ & H1 & H2). split; assumption. }
    destruct (collision_loop_Exists collisionDetect w d (drag_candidate w bpy_region d)
                (children (morph w)) Hs Hcs' false) as (b & Hb & _).
    rewrite Hb in *. destruct b; eexists; (split; [reflexivity|exact Hst]). }
  destruct Hstep as (self1 & Hstep & Hstill).
  unfold on_mouse_over. rewrite Hstep.
  assert (Hover : exists b, mouse_over_morph circle_contains w parent self1 = Ok b).
  { pose proof (hover_safe_still d self1 (eq_sym Hstill) Hd) as (H1 & _ & H3).
    unfold mouse_over_morph, width, height. rewrite Hw.
    destruct (circle self1); [eexists; reflexivity|].
    destruct (Z.ltb_spec (real_width self1) 0) as [?|_]; [lia|].
    destruct (Z.ltb_spec (_height self1) 0) as [?|_]; [lia|].
    eexists. reflexivity. }
  destruct Hover as (b & Hb). rewrite Hb.
  rewrite <- (oid_still self1 d Hstill).
  destruct b.
  - apply hover_handler_runs; [left; reflexivity|exact Hw].
  - apply hover_handler_runs; [right; reflexivity|exact Hw].
Qed.

Lemma dispatch_loop_hover (dispatch : World -> Morph -> Outcome Morph unit)
    (parent : Parent) (w : World) (l : list Morph) :
  (forall c, In c l ->
             Forall hover_safe (map snd (postorder parent c)) ->
             hover_each w (map snd (postorder parent c)) (dispatch w c)) ->
  Forall hover_safe (map snd (flat_map (postorder parent) l)) ->
  hover_each w (map snd (flat_map (postorder parent) l)) (dispatch_loop dispatch w l).
Proof.
  induction l as [|c l IH]; intros H Hsafe.
  - repeat split. constructor.
  - cbn [flat_map] in *. rewrite map_app in *. apply Forall_app in Hsafe.
    destruct Hsafe as [Hc Hl].
    destruct (H c (or_introl eq_refl) Hc) as (Hr & Hw & Hruns & Hall).
    destruct (IH (fun c' Hin => H c' (or_intror Hin)) Hl) as (Hr' & Hw' & Hruns' & Hall').
    unfold hover_each. cbn [dispatch_loop]. rewrite Hr, Hw.
    cbn [result world_after runs].
    split; [exact Hr'|]. split; [exact Hw'|].
    rewrite map_app, filter_app, map_app, Hruns, Hruns'.
    split; [reflexivity|apply Forall_app; split; assumption].
Qed.

Lemma on_event_hover (bpy_region : option Region) (ev : Event) (context : Context)
    (self : Morph) :
  type ev = MOUSEMOVE ->
  forall (w : World) (parent : Parent),
    world w parent = Some w ->
    consumed_event w = false ->
    Forall (fun c => hover_safe (data c)) (children (morph w)) ->
    Forall hover_safe (map snd (postorder parent self)) ->
    hover_each w (map snd (postorder parent self))
      (on_event collisionDetect circle_contains w parent bpy_region self ev context).
Proof.
  intros Hev.
  induction self as [d cs IH] using Morph_ind; intros w parent Hw Hc Hcs Hsafe.
  rewrite Forall_forall in IH.
  cbn [postorder] in *. rewrite map_app in *. apply Forall_app in Hsafe.
  destruct Hsafe as [Hsub Hd]. cbn [map snd] in Hd. apply Forall_inv in Hd.
  cbn [on_event].
  set (loop := dispatch_loop _ w cs).
  assert (Hloop : hover_each w (map snd (flat_map (postorder (ParentMorph d parent)) cs)) loop).
  { apply dispatch_loop_hover; [|exact Hsub].
    intros c Hin Hsc. apply (IH c Hin); [exact Hw|exact Hc|exact Hcs|exact Hsc]. }
  destruct Hloop as (Hr & Hwl & Hruns & Hall).
  unfold hover_each. rewrite Hr, Hwl, Hw, Hc, Hev. cbn [negb map snd].
  rewrite filter_app, map_app. cbn [filter]. fold (hovers d).
  destruct (hovers d) eqn:Hh.
  - destruct (on_mouse_over_hover w parent bpy_region d ev Hw Hd Hcs)
      as ((v & Hv) & run & Hrun & Hwho & Hhover).
    destruct (on_mouse_over_kept w parent bpy_region d ev) as [Hk _].
    cbn [result world_after runs]. rewrite Hv, Hk, Hrun, map_app, Hruns.
    cbn [bind map]. rewrite Hwho.
    repeat split. apply Forall_app. split; [exact Hall|].
    constructor; [exact Hhover|constructor].
  - cbn [result world_after runs map]. rewrite app_nil_r.
    repeat split; assumption.
Qed.

Lemma World_dispatch_hover (bpy_region : option Region) (ev : Event) (context : Context)
    (todo : list Morph) :
  type ev = MOUSEMOVE ->
  forall (done : list Morph) (w : World),
    consumed_event w = false ->
    children (morph w) = done ++ todo ->
    Forall (fun c => hover_safe (data c)) (children (morph w)) ->
    Forall hover_safe (map snd (flat_map (postorder ParentWorld) todo)) ->
    let o := World_dispatch collisionDetect circle_contains w bpy_region done todo ev context in
    result o = Ok tt /\
    consumed_event (world_after o) = false /\
    map who (runs o) = map oid (filter hovers (map snd (flat_map (postorder ParentWorld) todo))) /\
    Forall is_hover_run (runs o).
Proof.
  intros Hev.
  induction todo as [|c todo IH]; intros done w Hc Hch Hcs Hsafe o; subst o;
    cbn [World_dispatch].
  - repeat split; [exact Hc|constructor].
  - cbn [flat_map] in *. rewrite map_app in *. apply Forall_app in Hsafe.
    destruct Hsafe as [Hsc Hst].
    destruct (on_event_hover bpy_region ev context c Hev w ParentWorld eq_refl Hc Hcs Hsc)
      as (Hr & Hw & Hruns & Hall).
    destruct (on_event_kept bpy_region ev context c w ParentWorld) as [_ Hstill].
    set (o := on_event collisionDetect circle_contains w ParentWorld bpy_region c ev context) in *.
    rewrite Hr, Hw.
    set (w1 := set_morph (Node (data (morph w)) (done ++ self_after o :: todo)) w).
    assert (Hc1 : consumed_event w1 = false)
      by (unfold w1; rewrite consumed_event_set_morph; exact Hc).
    assert (Hch1 : children (morph w1) = (done ++ [self_after o]) ++ todo).
    { unfold w1. rewrite children_set_morph, <- app_assoc. reflexivity. }
    assert (Hcs1 : Forall (fun c' => hover_safe (data c')) (children (morph w1))).
    { rewrite Hch1, <- app_assoc. rewrite Hch in Hcs.
      apply Forall_app in Hcs. destruct Hcs as [Hdone Hrest].
      apply Forall_app. split; [exact Hdone|].
      apply Forall_cons_iff in Hrest. destruct Hrest as [Hhc Htodo].
      constructor; [|exact Htodo].
      apply (hover_safe_still (data c)); [|exact Hhc].
      destruct c as [dc ccs]. destruct (self_after o) as [dc' ccs'].
      cbn [map_tree] in Hstill. injection Hstill as Hd _. symmetry. exact Hd. }
    destruct (IH (done ++ [self_after o]) w1 Hc1 Hch1 Hcs1 Hst) as (Hr' & Hc' & Hruns' & Hall').
    cbn [result world_after runs].
    split; [exact Hr'|]. split; [exact Hc'|].
    rewrite map_app, filter_app, map_app, Hruns, Hruns'.
    split; [reflexivity|apply Forall_app; split; assumption].
Qed.

(** X17: a pointer move reaches every morph.  When no morph under the
    world has a negative unscaled width, scaled width or scaled height,
    [World.on_event] on a [MOUSEMOVE] event returns, leaves the event
    unconsumed, and runs one hover handler ([on_mouse_in] or
    [on_mouse_out]) on each morph that handles events and is not hidden,
    the descendants of a morph before the morph, children in insertion
    order. *)
Theorem World_on_event_mouse_move (self : World) (bpy_region : option Region) (ev : Event)
    (context : Context) (r : Region) :
  type ev = MOUSEMOVE ->
  region context = Some r ->
  let order := map snd (flat_map (postorder ParentWorld) (children (morph self))) in
  Forall hover_safe order ->
  let out := World_on_event collisionDetect circle_contains self bpy_region ev context in
  result out = Ok tt /\
  consumed_event (world_after out) = false /\
  map who (runs out) = map oid (filter hovers order) /\
  Forall is_hover_run (runs out).
Proof.
  intros Hev Hr order Hsafe out. subst out order.
  unfold World_on_event. rewrite Hr.
  assert (Hch : children (morph (World_frame self r ev)) = children (morph self)).
  { destruct self as [m ce mo mp mpa mci wp ww wh e da dap daw dah ah]. reflexivity. }
  rewrite Hch.
  apply World_dispatch_hover.
  - exact Hev.
  - unfold World_frame. apply consumed_event_set.
  - rewrite Hch. reflexivity.
  - rewrite Hch. apply Forall_forall. intros c Hc.
    rewrite Forall_forall in Hsafe. apply Hsafe.
    apply in_map_iff. exists (ParentWorld, data c). split; [reflexivity|].
    apply in_flat_map. exists c. split; [exact Hc|].
    destruct c as [dc ccs]. cbn [postorder data]. apply in_or_app. right. left. reflexivity.
  - exact Hsafe.
Qed.

End Kept.

(** ** What each kind of event leaves alone *)

Section Keeps.
Variable collisionDetect : Z -> Z -> Z -> Z -> Z -> Z -> Z -> Z -> bool.
Variable circle_contains : Z -> Z -> Z -> Z -> Z -> bool.
Variable keep : MorphData -> MorphData.
Variable bpy_region : option Region.
Variable ev : Event.
Variable context : Context.

Hypothesis click_keeps :
  is_button ev ->
  forall w parent d,
    keep (self_after (on_mouse_click circle_contains w parent d ev)) = keep d.

Hypothesis move_keeps :
  type ev = MOUSEMOVE ->
  forall w parent d,
    keep (self_after (on_mouse_over collisionDetect circle_contains w parent bpy_region d ev))
    = keep d.

Lemma dispatch_loop_keeps (dispatch : World -> Morph -> Outcome Morph unit)
    (l : list Morph) :
  (forall w c, In c l -> map_tree keep (self_after (dispatch w c)) = map_tree keep c) ->
  forall w,
    map (map_tree keep) (self_after (dispatch_loop dispatch w l)) = map (map_tree keep) l.
Proof.
  induction l as [|c l IH]; intros H w; cbn [dispatch_loop]; [reflexivity|].
  pose proof (H w c (or_introl eq_refl)) as Hc.
  destruct (result (dispatch w c)); cbn [self_after map]; rewrite Hc; [|reflexivity].
  rewrite (IH (fun w' c' Hin => H w' c' (or_intror Hin))). reflexivity.
Qed.

Lemma on_event_keeps (self : Morph) :
  forall (w : World) (parent : Parent),
    map_tree keep
      (self_after (on_event collisionDetect circle_contains w parent bpy_region self ev context))
    = map_tree keep self.
Proof.
  induction self as [d cs IH] using Morph_ind. intros w parent.
  rewrite Forall_forall in IH.
  cbn [on_event].
  set (loop := dispatch_loop _ w cs).
  assert (Hs : map (map_tree keep) (self_after loop) = map (map_tree keep) cs).
  { apply dispatch_loop_keeps. intros w' c Hin. exact (IH c Hin w' (ParentMorph d parent)). }
  destruct (result loop); [|cbn [self_after map_tree]; rewrite Hs; reflexivity].
  destruct (handles_events d && negb (is_hidden d));
    [|cbn [self_after map_tree]; rewrite Hs; reflexivity].
  destruct (world (world_after loop) parent) as [wo|];
    [|cbn [self_after map_tree]; rewrite Hs; reflexivity].
  destruct (negb (consumed_event wo));
    [|cbn [self_after map_tree]; rewrite Hs; reflexivity].
  destruct (type ev) eqn:Hty; cbn [self_after map_tree]; rewrite Hs.
  - rewrite click_keeps; [reflexivity|left; exact Hty].
  - rewrite click_keeps; [reflexivity|right; exact Hty].
  - rewrite move_keeps; reflexivity.
  - reflexivity.
Qed.

Lemma World_dispatch_keeps (todo : list Morph) :
  forall (done : list Morph) (w : World),
    children (morph w) = done ++ todo ->
    map (map_tree keep)
      (children (morph (world_after
         (World_dispatch collisionDetect circle_contains w bpy_region done todo ev context))))
    = map (map_tree keep) (done ++ todo).
Proof.
  induction todo as [|c todo IH]; intros done w Hch; cbn [World_dispatch].
  - cbn [world_after]. rewrite Hch. reflexivity.
  - pose proof (on_event_keeps c w ParentWorld) as Hs.
    set (o := on_event collisionDetect circle_contains w ParentWorld bpy_region c ev context) in *.
    set (w1 := set_morph _ (world_after o)).
    assert (Hc1 : children (morph w1) = (done ++ [self_after o]) ++ todo).
    { unfold w1. rewrite children_set_morph, <- app_assoc. reflexivity. }
    assert (Hmap : map (map_tree keep) ((done ++ [self_after o]) ++ todo)
                   = map (map_tree keep) (done ++ c :: todo)).
    { rewrite <- app_assoc. rewrite !map_app. cbn [map app]. rewrite Hs. reflexivity. }
    destruct (result o); cbn [world_after].
    + rewrite (IH (done ++ [self_after o]) w1 Hc1). exact Hmap.
    + rewrite Hc1. exact Hmap.
Qed.

End Keeps.

Lemma click_keeps_position (circle_contains : Z -> Z -> Z -> Z -> Z -> bool)
    (w : World) (parent : Parent) (d : MorphData) (ev : Event) :
  without_drag_state (self_after (on_mouse_click circle_contains w parent d ev))
  = without_drag_state d.
Proof.
  assert (Hh : forall h, click_handler_like h ->
            forall w' s, (h = on_left_click \/ h = on_left_click_released \/
                          h = on_right_click \/ h = on_right_click_released) ->
            without_drag_state (self_after (h w' parent s)) = without_drag_state s).
  { intros h _ w' s [-> | [-> | [-> | ->]]].
    - unfold on_left_click. destruct (on_left_click_action s); [reflexivity|].
      destruct (negb (drag_drop s) && handles_drag_drop s);
        destruct (world w' parent); destruct s; reflexivity.
    - unfold on_left_click_released. destruct (on_left_click_released_action s);
        [reflexivity|].
      destruct (drag_drop s && handles_drag_drop s);
        destruct (world w' parent); destruct s; reflexivity.
    - unfold on_right_click. destruct (on_right_click_action s); [reflexivity|].
      destruct (world w' parent); reflexivity.
    - unfold on_right_click_released. destruct (on_right_click_released_action s);
        [reflexivity|].
      destruct (world w' parent); reflexivity. }
  unfold on_mouse_click.
  destruct (mouse_over_morph circle_contains w parent d) as [[|]|e]; try reflexivity.
  destruct (handles_mouse_down d); [|reflexivity].
  destruct (world w parent); [|reflexivity].
  destruct (type ev), (value ev);
    cbn [is_LEFTMOUSE is_RIGHTMOUSE is_PRESS is_RELEASE andb];
    rewrite ?then_if_false; try reflexivity;
    unfold then_if; cbn [result self_after world_after];
    apply Hh;
    first [ exact on_left_click_like | exact on_left_click_released_like
          | exact on_right_click_like | exact on_right_click_released_like | tauto ].
Qed.

Lemma move_keeps_drag_state (collisionDetect : Z -> Z -> Z -> Z -> Z -> Z -> Z -> Z -> bool)
    (circle_contains : Z -> Z -> Z -> Z -> Z -> bool)
    (w : World) (parent : Parent) (bpy_region : option Region) (d : MorphData) (ev : Event) :
  without_position
    (self_after (on_mouse_over collisionDetect circle_contains w parent bpy_region d ev))
  = without_position d.
Proof.
  rewrite self_after_on_mouse_over. unfold drag_step.
  destruct (drag_drop d); [|reflexivity].
  destruct (world w parent) as [wo|]; [|reflexivity].
  destruct (collision_loop _ _ _ _ _ _ _) as [[|]|e]; cbn [snd]; try reflexivity.
  unfold set_position. destruct d; reflexivity.
Qed.

(** X18: a pointer-button event moves no morph.  After a
    [World.on_event] on a [LEFTMOUSE] or [RIGHTMOUSE] event every morph
    below the world has the attributes of [MorphData] it had, but for
    [drag_drop] and [drag_position]: its position ([real_position],
    [_position]), sizes, scale, [bounds], hidden flag, name, textures,
    [handles_] flags and bound actions are as they were.  No class
    overrides a click handler. *)
Theorem World_on_event_button_keeps
    (collisionDetect : Z -> Z -> Z -> Z -> Z -> Z -> Z -> Z -> bool)
    (circle_contains : Z -> Z -> Z -> Z -> Z -> bool)
    (self : World) (bpy_region : option Region) (ev : Event) (context : Context) :
  is_button ev ->
  map (map_tree without_drag_state)
    (children (morph (world_after
       (World_on_event collisionDetect circle_contains self bpy_region ev context))))
  = map (map_tree without_drag_state) (children (morph self)).
Proof.
  intros Hev. unfold World_on_event.
  destruct (region context) as [r|]; [|reflexivity].
  assert (Hch : children (morph (World_frame self r ev)) = children (morph self)).
  { destruct self as [m ce mo mp mpa mci wp ww wh e da dap daw dah ah]. reflexivity. }
  rewrite (World_dispatch_keeps collisionDetect circle_contains without_drag_state
             bpy_region ev context).
  - rewrite Hch. reflexivity.
  - intros _ w parent d. apply click_keeps_position.
  - intros Hm. destruct Hev as [Hev|Hev]; rewrite Hev in Hm; discriminate Hm.
  - reflexivity.
Qed.

(** X23: a pointer move starts and ends no drag.  After a
    [World.on_event] on a [MOUSEMOVE] event every morph below the world
    has the attributes of [MorphData] it had, but for [real_position],
    [_position] and [drag_position]: its [drag_drop], sizes, scale,
    [bounds], hidden flag, name, textures, [handles_] flags and bound
    actions are as they were.  (The hover handlers of a [ButtonMorph]
    assign [color], which is not an attribute of [MorphData].) *)
Theorem World_on_event_move_keeps
    (collisionDetect : Z -> Z -> Z -> Z -> Z -> Z -> Z -> Z -> bool)
    (circle_contains : Z -> Z -> Z -> Z -> Z -> bool)
    (self : World) (bpy_region : option Region) (ev : Event) (context : Context) :
  type ev = MOUSEMOVE ->
  map (map_tree without_position)
    (children (morph (world_after
       (World_on_event collisionDetect circle_contains self bpy_region ev context))))
  = map (map_tree without_position) (children (morph self)).
Proof.
  intros Hev. unfold World_on_event.
  destruct (region context) as [r|]; [|reflexivity].
  assert (Hch : children (morph (World_frame self r ev)) = children (morph self)).
  { destruct self as [m ce mo mp mpa mci wp ww wh e da dap daw dah ah]. reflexivity. }
  rewrite (World_dispatch_keeps collisionDetect circle_contains without_position
             bpy_region ev context).
  - rewrite Hch. reflexivity.
  - intros [Hb|Hb]; rewrite Hev in Hb; discriminate Hb.
  - intros _ w parent d. apply move_keeps_drag_state.
  - reflexivity.
Qed.

(** ** A pointer move in drag state *)

(** X22: what [on_mouse_over] does to a morph in drag state whose chain of
    parents ends in a world, when neither the morph nor a child of that
    world has a negative scaled size.  The candidate position is the
    position moved by the pointer delta since the drag anchor, brought
    down to the viewport size less the scaled size of the morph and then
    up to [0], so that it is never negative.  When a child of the world
    whose name is not the name of the morph and which is not hidden
    collides with the candidate, the morph keeps its position, its anchor,
    its drag state and every other attribute of [MorphData]; when there is
    no such child, its position is the candidate, its cached [_position]
    the candidate times the absolute scale, its anchor the
    [mouse_position] of the world, and it stays in drag state. *)
Theorem on_mouse_over_drag
    (collisionDetect : Z -> Z -> Z -> Z -> Z -> Z -> Z -> Z -> bool)
    (circle_contains : Z -> Z -> Z -> Z -> Z -> bool)
    (w : World) (parent : Parent) (bpy_region : option Region)
    (self : MorphData) (ev : Event) :
  drag_drop self = true ->
  world w parent = Some w ->
  sizes_ok self ->
  Forall (fun c => sizes_ok (data c)) (children (morph w)) ->
  let cand := drag_candidate w bpy_region self in
  let vw := fst (viewport_size bpy_region) in
  let vh := snd (viewport_size bpy_region) in
  let out := on_mouse_over collisionDetect circle_contains w parent bpy_region self ev in
  cand = (Z.max (Z.min (vw - _width self)
                   (fst (position self) + (fst (mouse_position w) - fst (drag_position self)))) 0,
          Z.max (Z.min (vh - _height self)
                   (snd (position self) + (snd (mouse_position w) - snd (drag_position self)))) 0) /\
  (0 <= fst cand /\ 0 <= snd cand /\
   (_width self <= vw -> fst cand + _width self <= vw) /\
   (_height self <= vh -> snd cand + _height self <= vh)) /\
  (Exists (blocks_drag collisionDetect w self cand) (children (morph w)) ->
   self_after out = self) /\
  (~ Exists (blocks_drag collisionDetect w self cand) (children (morph w)) ->
   position (self_after out) = cand /\
   _position (self_after out)
   = (fst cand * get_absolute_scale w parent self,
      snd cand * get_absolute_scale w parent self) /\
   drag_position (self_after out) = mouse_position w /\
   drag_drop (self_after out) = true).
Proof.
  intros Hd Hw Hs Hcs cand vw vh out.
  split; [reflexivity|].
  split.
  { subst cand vw vh. unfold drag_candidate. simpl. lia. }
  subst out. rewrite self_after_on_mouse_over.
  unfold drag_step. rewrite Hd, Hw.
  destruct (@collision_loop_Exists collisionDetect w self cand _ Hs Hcs false)
    as (b & Hb & Hiff).
  fold cand. rewrite Hb.
  split.
  - intros Hex. destruct b; [reflexivity|].
    assert (false = true) by (apply Hiff; right; exact Hex). discriminate.
  - intros Hnex. destruct b.
    + destruct (proj1 Hiff eq_refl) as [H|H]; [discriminate|contradiction].
    + simpl. replace (fst cand, snd cand) with cand by (destruct cand; reflexivity).
      unfold set_position.
      assert (Hscale : forall v, get_absolute_scale w parent (set_real_position v self)
                                 = get_absolute_scale w parent self).
      { intros v. destruct self. destruct parent; reflexivity. }
      rewrite Hscale.
      destruct self; simpl in *. repeat split. exact Hd.
Qed.

(** ** Corners *)

(** X19: for every morph the constructor returns without a texture, [x2]
    and [y2] return, and [x], [y], [x2], [y2] are the four numbers of
    [bounds]. *)
Theorem corners_of_new_morph (images_load : string -> option (Z * Z)) (i : nat) (k : Kargs)
    (d : MorphData) :
  k_texture k = None ->
  Morph_init images_load i k = Ok d ->
  x2 d = Ok (x d + k_width k) /\
  y2 d = Ok (y d + k_height k) /\
  x2 d = Ok (b2 (bounds d)) /\
  y2 d = Ok (b3 (bounds d)) /\
  x d = b0 (bounds d) /\
  y d = b1 (bounds d).
Proof.
  intros Ht H.
  unfold Morph_init in H. rewrite Ht in H.
  unfold width, height in H. cbn [real_width _height real_height] in H.
  destruct (Z.ltb_spec (k_width k) 0) as [?|Hw]; [discriminate H|].
  destruct (Z.ltb_spec (k_height k * k_scale k) 0) as [?|Hh]; [discriminate H|].
  cbn [bind] in H. injection H as <-.
  unfold x2, y2, x, y, width, height, position. cbn.
  destruct (Z.ltb_spec (k_width k) 0) as [?|_]; [lia|].
  destruct (Z.ltb_spec (k_height k * k_scale k) 0) as [?|_]; [lia|].
  repeat split.
Qed.

(** ** The two absolute positions *)

(** X20: for integer coordinates, on which the sums are exact (Python
    ints, or floats that hold integers below 2^53).  Under a world, when the cached [_position] of a morph and of each of
    its parents is its unscaled position, [get_absolute_position] is
    [world_position] moved by the absolute position of the world, and the
    [absolute_position] property is [world_position] moved by the origin of
    the draw area: the two agree when those two offsets do.  The two
    methods add the same numbers in different orders, so that on floats
    they can differ by rounding. *)
Theorem absolute_positions_agree (w : World) (parent : Parent) (self : MorphData) :
  world w parent = Some w ->
  _position self = real_position self ->
  chain_unscaled parent ->
  get_absolute_position w parent self
  = (fst (World_get_absolute_position w) + fst (world_position parent self),
     snd (World_get_absolute_position w) + snd (world_position parent self)) /\
  absolute_position w parent self
  = Ok (fst (world_position parent self) + b0 (draw_area w),
        snd (world_position parent self) + b1 (draw_area w)) /\
  (World_get_absolute_position w = (b0 (draw_area w), b1 (draw_area w)) ->
   absolute_position w parent self = Ok (get_absolute_position w parent self)).
Proof.
  intros Hw Hp Hch.
  assert (Hget : get_absolute_position w parent self
                 = (fst (World_get_absolute_position w) + fst (world_position parent self),
                    snd (World_get_absolute_position w) + snd (world_position parent self))).
  { revert self Hp. induction parent as [| |d p IH]; intros self Hp.
    - discriminate Hw.
    - cbn [get_absolute_position world_position]. unfold position. rewrite Hp.
      cbn [fst snd]. f_equal; lia.
    - destruct Hch as [Hd Hch].
      cbn [get_absolute_position world_position].
      rewrite (IH Hw Hch d Hd). unfold position. rewrite Hp. cbn [fst snd].
      f_equal; lia. }
  split; [exact Hget|].
  unfold absolute_position. rewrite Hw.
  split; [reflexivity|].
  intros Ho. rewrite Hget, Ho. cbn [fst snd]. apply f_equal. apply f_equal2; lia.
Qed.

(** ** The hit-test follows the draw area *)

Lemma get_absolute_position_shift (w : World) (parent : Parent) (self : MorphData)
    (dx dy : Z) :
  world w parent = Some w ->
  get_absolute_position
    (set_draw_area_position (fst (draw_area_position w) + dx, snd (draw_area_position w) + dy) w)
    parent self
  = (fst (get_absolute_position w parent self) + dx,
     snd (get_absolute_position w parent self) + dy).
Proof.
  intros Hw. revert self. induction parent as [| |d p IH]; intros self.
  - discriminate Hw.
  - cbn [get_absolute_position]. unfold World_get_absolute_position.
    destruct w; cbn. f_equal; lia.
  - cbn [get_absolute_position]. rewrite (IH Hw d). cbn [fst snd]. f_equal; lia.
Qed.

(** X21: for integer coordinates, on which the sums are exact (Python
    ints, or floats that hold integers below 2^53), the hit-test of a
    rectangle depends on the pointer only relative to
    the draw area: moving the origin of the draw area and the absolute
    pointer position by the same integer amount changes no result of
    [mouse_over_morph], for a morph at any depth under the world.  On
    floats the sums are rounded and a pointer within rounding distance of
    an edge can change sides. *)
Theorem mouse_over_morph_follows_draw_area
    (circle_contains : Z -> Z -> Z -> Z -> Z -> bool)
    (w : World) (parent : Parent) (self : MorphData) (dx dy : Z) :
  circle self = false ->
  world w parent = Some w ->
  let w' :=
    set_mouse_position_absolute
      (fst (mouse_position_absolute w) + dx, snd (mouse_position_absolute w) + dy)
      (set_draw_area_position
         (fst (draw_area_position w) + dx, snd (draw_area_position w) + dy) w) in
  mouse_over_morph circle_contains w' parent self
  = mouse_over_morph circle_contains w parent self.
Proof.
  intros Hc Hw w'.
  assert (Hw' : world w' parent = Some w') by exact (world_any w w parent Hw w').
  assert (Hpos : get_absolute_position w' parent self
                 = (fst (get_absolute_position w parent self) + dx,
                    snd (get_absolute_position w parent self) + dy)).
  { rewrite <- (get_absolute_position_shift w parent self dx dy Hw).
    subst w'. clear. revert self.
    induction parent as [| |d p IH]; intros self; cbn [get_absolute_position].
    - reflexivity.
    - destruct w; reflexivity.
    - rewrite IH. reflexivity. }
  assert (Hm : mouse_position_absolute w'
               = (fst (mouse_position_absolute w) + dx, snd (mouse_position_absolute w) + dy)).
  { subst w'. destruct w; reflexivity. }
  unfold mouse_over_morph. rewrite Hc, Hw, Hw', Hpos, Hm. cbn [fst snd].
  destruct (width self) as [wd|e]; [|reflexivity]. cbn [bind].
  destruct (height self) as [ht|e]; [|reflexivity]. cbn [bind].
  f_equal. rewrite !Z.gtb_ltb.
  repeat match goal with
  | |- context [?a <? ?b] =>
      let H := fresh in destruct (Z.ltb_spec a b) as [H|H]; revert H
  end; intros; cbn [andb]; try reflexivity; lia.
Qed.

(** * Witnesses of the further properties *)

Lemma set_height_checked_witness :
  set_height (new_world 1 []) NoParent (-5) (new_morph 2 "m" (0, 0) 40 0 (-2))
  = (Raise (ValueError "new value for width must be a positive number"),
     new_morph 2 "m" (0, 0) 40 0 (-2)) /\
  height (snd (set_height (new_world 1 []) NoParent 7 (new_morph 2 "m" (0, 0) 40 0 (-2))))
  = Raise (ValueError "height must not be a negative value ").
Proof.
  pose proof (set_height_checked (new_world 1 []) NoParent
                (new_morph 2 "m" (0, 0) 40 0 (-2)) (-5)) as [Hneg _].
  pose proof (set_height_checked (new_world 1 []) NoParent
                (new_morph 2 "m" (0, 0) 40 0 (-2)) 7) as [_ Hpos].
  split.
  - apply Hneg. lia.
  - destruct (Hpos ltac:(lia)) as (_ & _ & _ & _ & _ & _ & Hraise).
    apply Hraise. simpl. lia.
Defined.

Lemma mouse_over_morph_cases_witness :
  exists b,
    mouse_over_morph exact_circle_contains world_pointer_15_5 ParentWorld scaled_square = Ok b.
Proof.
  destruct (mouse_over_morph_cases exact_circle_contains world_pointer_15_5 ParentWorld
              scaled_square eq_refl) as (_ & _ & _ & H).
  destruct (H ltac:(simpl; lia) ltac:(simpl; lia) eq_refl) as (b & Hb & _).
  exists b. exact Hb.
Defined.

Lemma set_is_hidden_uniform_witness :
  set_is_hidden false (set_is_hidden true nested_root) = nested_root.
Proof.
  apply (set_is_hidden_uniform false true nested_root).
  split; [reflexivity|repeat constructor].
Defined.

Lemma Morph_init_checks_witness :
  Morph_init no_images 1
    (mkKargs None (-5) 100 (0, 0) "noname" None None None None None None None 1 false false)
  = Raise (ValueError "width must not be a negative value") /\
  exists d, Morph_init no_images 1 default_kargs = Ok d /\ drag_drop d = false.
Proof.
  split.
  - apply (Morph_init_checks no_images 1
             (mkKargs None (-5) 100 (0, 0) "noname" None None None None None None None 1
                false false)).
    simpl. lia.
  - destruct (Morph_init_checks no_images 1 default_kargs) as (_ & _ & H).
    destruct (H ltac:(simpl; lia) ltac:(simpl; lia) eq_refl)
      as (d & Hd & _ & _ & _ & _ & _ & _ & _ & _ & _ & Hdd & _).
    exists d. split; [exact Hd|exact Hdd].
Defined.

Lemma texture_switch_restores_scale_witness :
  scale
    (snd (set_texture no_images "a.png"
            (snd (load_texture all_images "b.png" 3
                    (snd (load_texture all_images "a.png" 2
                            (new_morph 1 "m" (0, 0) 10 10 1)))))))
  = 2.
Proof.
  apply (texture_switch_restores_scale all_images "a.png" "b.png" 2 3 (64, 64) (64, 64)
           (new_morph 1 "m" (0, 0) 10 10 1)).
  - discriminate.
  - reflexivity.
  - reflexivity.
Defined.

Lemma World_on_event_keeps_witness :
  mouse_position_absolute
    (world_after
       (World_on_event aabb_collision exact_circle_contains click_world None
          (mkEvent LEFTMOUSE PRESS 7 7) (mkContext (Some (mkRegion 10 20 300 300)))))
  = (17, 27).
Proof.
  apply (World_on_event_keeps aabb_collision exact_circle_contains click_world None
           (mkEvent LEFTMOUSE PRESS 7 7) (mkContext (Some (mkRegion 10 20 300 300)))
           (mkRegion 10 20 300 300)).
  reflexivity.
Defined.

Lemma World_on_event_other_type_witness :
  runs
    (World_on_event aabb_collision exact_circle_contains click_world None
       (mkEvent OTHER_TYPE PRESS 7 7) (mkContext (Some (mkRegion 0 0 300 300))))
  = [].
Proof.
  rewrite (World_on_event_other_type aabb_collision exact_circle_contains click_world None
             (mkEvent OTHER_TYPE PRESS 7 7) (mkContext (Some (mkRegion 0 0 300 300)))
             (mkRegion 0 0 300 300) eq_refl eq_refl).
  reflexivity.
Defined.

Lemma click_toggles_drag_witness :
  drag_drop
    (self_after
       (on_mouse_click exact_circle_contains drag_button_world ParentWorld drag_button
          (mkEvent LEFTMOUSE PRESS 7 7)))
  = true.
Proof.
  destruct (click_toggles_drag exact_circle_contains drag_button_world ParentWorld drag_button
              (mkEvent LEFTMOUSE PRESS 7 7) eq_refl eq_refl eq_refl eq_refl eq_refl)
    as (Hpress & _).
  destruct (Hpress eq_refl eq_refl eq_refl) as (H & _).
  exact H.
Defined.

Lemma World_on_event_mouse_move_witness :
  map who
    (runs
       (World_on_event aabb_collision exact_circle_contains click_world None
          (mkEvent MOUSEMOVE OTHER_VALUE 7 7) (mkContext (Some (mkRegion 0 0 300 300)))))
  = [3%nat; 2%nat].
Proof.
  destruct (World_on_event_mouse_move aabb_collision exact_circle_contains click_world None
              (mkEvent MOUSEMOVE OTHER_VALUE 7 7) (mkContext (Some (mkRegion 0 0 300 300)))
              (mkRegion 0 0 300 300) eq_refl eq_refl) as (_ & _ & H & _).
  - repeat constructor; simpl; lia.
  - exact H.
Defined.

Lemma World_on_event_button_keeps_witness :
  map (map_tree without_drag_state)
    (children (morph (world_after
       (World_on_event aabb_collision exact_circle_contains (drag_start "A" "B") None
          (mkEvent LEFTMOUSE PRESS 5 5) (mkContext (Some (mkRegion 0 0 300 300)))))))
  = map (map_tree without_drag_state) (children (morph (drag_start "A" "B"))).
Proof.
  apply (World_on_event_button_keeps aabb_collision exact_circle_contains
           (drag_start "A" "B") None (mkEvent LEFTMOUSE PRESS 5 5)
           (mkContext (Some (mkRegion 0 0 300 300)))).
  left. reflexivity.
Defined.

Lemma World_on_event_move_keeps_witness :
  map (map_tree without_position)
    (children (morph (world_after
       (World_on_event aabb_collision exact_circle_contains (drag_scene "A" "B" (5, 35)) None
          (mkEvent MOUSEMOVE OTHER_VALUE 5 35) (mkContext (Some (mkRegion 0 0 300 300)))))))
  = map (map_tree without_position) (children (morph (drag_scene "A" "B" (5, 35)))).
Proof.
  apply (World_on_event_move_keeps aabb_collision exact_circle_contains
           (drag_scene "A" "B" (5, 35)) None (mkEvent MOUSEMOVE OTHER_VALUE 5 35)
           (mkContext (Some (mkRegion 0 0 300 300)))).
  reflexivity.
Defined.

Lemma on_mouse_over_drag_witness :
  self_after
    (on_mouse_over aabb_collision exact_circle_contains (drag_scene "A" "B" (27, 5))
       ParentWorld None (drag_self "A") (mkEvent MOUSEMOVE OTHER_VALUE 27 5))
  = drag_self "A" /\
  position
    (self_after
       (on_mouse_over aabb_collision exact_circle_contains (drag_scene "A" "B" (5, 35))
          ParentWorld None (drag_self "A") (mkEvent MOUSEMOVE OTHER_VALUE 5 35)))
  = (0, 30).
Proof.
  split.
  - assert (Hs : sizes_ok (drag_self "A")) by (unfold sizes_ok; simpl; lia).
    assert (Hcs : Forall (fun c => sizes_ok (data c))
                    (children (morph (drag_scene "A" "B" (27, 5))))).
    { repeat constructor; simpl; lia. }
    destruct (on_mouse_over_drag aabb_collision exact_circle_contains
                (drag_scene "A" "B" (27, 5)) ParentWorld None (drag_self "A")
                (mkEvent MOUSEMOVE OTHER_VALUE 27 5) eq_refl eq_refl Hs Hcs)
      as (_ & _ & Hblocked & _).
    apply Hblocked.
    apply Exists_cons_tl. apply Exists_cons_hd.
    repeat split. simpl. discriminate.
  - assert (Hs : sizes_ok (drag_self "A")) by (unfold sizes_ok; simpl; lia).
    assert (Hcs : Forall (fun c => sizes_ok (data c))
                    (children (morph (drag_scene "A" "B" (5, 35))))).
    { repeat constructor; simpl; lia. }
    destruct (on_mouse_over_drag aabb_collision exact_circle_contains
                (drag_scene "A" "B" (5, 35)) ParentWorld None (drag_self "A")
                (mkEvent MOUSEMOVE OTHER_VALUE 5 35) eq_refl eq_refl Hs Hcs)
      as (_ & _ & _ & Hfree).
    apply Hfree.
    intros Hex.
    inversion Hex as [? ? Hb|? ? Ht]; subst.
    + destruct Hb as (Hn & _). apply Hn. reflexivity.
    + inversion Ht as [? ? Hb|? ? Ht']; subst.
      * destruct Hb as (_ & _ & Hb). discriminate Hb.
      * inversion Ht'.
Defined.

Lemma corners_of_new_morph_witness :
  x2 (new_morph 1 "noname" (0, 0) 100 100 1) = Ok 100.
Proof.
  apply (corners_of_new_morph no_images 1 default_kargs
           (new_morph 1 "noname" (0, 0) 100 100 1) eq_refl eq_refl).
Defined.

Lemma absolute_positions_agree_witness :
  absolute_position click_world (ParentMorph (data click_panel) ParentWorld) click_leaf
  = Ok (get_absolute_position click_world (ParentMorph (data click_panel) ParentWorld)
          click_leaf).
Proof.
  destruct (absolute_positions_agree click_world
              (ParentMorph (data click_panel) ParentWorld) click_leaf eq_refl eq_refl)
    as (_ & _ & H).
  - split; [reflexivity|exact I].
  - apply H. reflexivity.
Defined.

Lemma mouse_over_morph_follows_draw_area_witness :
  mouse_over_morph exact_circle_contains
    (set_mouse_position_absolute (115, 55)
       (set_draw_area_position (100, 50) world_pointer_15_5))
    ParentWorld scaled_square
  = mouse_over_morph exact_circle_contains world_pointer_15_5 ParentWorld scaled_square.
Proof.
  apply (mouse_over_morph_follows_draw_area exact_circle_contains world_pointer_15_5
           ParentWorld scaled_square 100 50 eq_refl eq_refl).
Defined.
